(** * SAFE-SURFERS: the scorer, the traffic window and the script analyser

    A shallow embedding of the three core pieces of the browser extension:

    - [Scoring]: [src/lib/anomaly-scoring.ts], the multi-dimensional scorer;
    - [SimpleScoring]: the earlier three-input [getRiskLevel] of the same
      path;
    - [NetworkMonitor]: [src/background/network-monitor.{js,ts}];
    - [ScriptAnalyzer]: [src/analysis/script-analyzer.{js,ts}].

    JavaScript [number]s are read as exact rationals ([Q]): every constant
    of the scorer (2.5, 0.40, 1.35, ...) is a decimal fraction and every
    comparison is against such a constant.  [NaN] and the infinities are
    not represented.  An optional field [f?: T] is an [option T], [None]
    standing for [undefined]. *)

From Stdlib Require Import ZArith QArith Qround Lqa Lia.
From Stdlib Require Import List String Ascii Bool DecimalString.
Import ListNotations.

Open Scope Q_scope.

(** ** JavaScript operators used by the sources *)

Module Js.

(** [x > y], [x >= y], [x < y], [x <= y], [x === y] on numbers. *)
Definition gt (x y : Q) : bool := negb (Qle_bool x y).
Definition ge (x y : Q) : bool := Qle_bool y x.
Definition lt (x y : Q) : bool := negb (Qle_bool y x).
Definition le (x y : Q) : bool := Qle_bool x y.
Definition eqn (x y : Q) : bool := Qeq_bool x y.

(** [Math.min(x, y)] and [Math.round(x)] (halves go up). *)
Definition Math_min (x y : Q) : Q := if Qle_bool x y then x else y.
Definition Math_round (x : Q) : Z := Qfloor (x + 0.5).

(** Truthiness of an optional number ([undefined] and [0] are falsy) and
    of an optional boolean ([undefined] and [false] are falsy). *)
Definition truthyNum (v : option Q) : bool :=
  match v with
  | Some x => negb (Qeq_bool x 0)
  | None => false
  end.

Definition truthyBool (v : option bool) : bool :=
  match v with
  | Some b => b
  | None => false
  end.

(** [v > c] where [v] may be [undefined]: [undefined > c] is [false]. *)
Definition optGt (v : option Q) (c : Q) : bool :=
  match v with
  | Some x => gt x c
  | None => false
  end.

End Js.

(** ** The multi-dimensional scorer, [src/lib/anomaly-scoring.ts] *)

Module Scoring.
Import Js.

Record AnomalyMetrics : Type := {
  requestCount : Q;
  domainRepScore : Q;
  dataExfilSize : Q;
  uploadFrequency : option Q;
  obfuscationDetected : bool;
  dangerousFunctionCount : option Q;
  cookieAccessDetected : option bool;
  isFirstVisit : option bool;
  userInteractionOccurred : option bool;
  timeOfDay : option Q;
  domainAge : option Q
}.

Record ThreatContext : Type := {
  behavioralScore : Q;
  temporalScore : Q;
  structuralScore : Q;
  combinedScore : Q;
  confidence : Z;
  threatVector : list string
}.

Definition calculateBehavioralScore (metrics : AnomalyMetrics) : Q :=
  let score := 0 in
  (* Request frequency analysis *)
  let score :=
    if gt (requestCount metrics) 50 then score + 30
    else if gt (requestCount metrics) 20 then score + 20
    else if gt (requestCount metrics) 10 then score + 10
    else score in
  (* Data exfiltration size analysis *)
  let exfilMB := dataExfilSize metrics / (1024 * 1024) in
  let score :=
    if gt exfilMB 10 then score + 25
    else if gt exfilMB 5 then score + 18
    else if gt exfilMB 1 then score + 10
    else score in
  (* Upload frequency pattern *)
  let score :=
    if truthyNum (uploadFrequency metrics)
       && optGt (uploadFrequency metrics) 10 then score + 20
    else if truthyNum (uploadFrequency metrics)
            && optGt (uploadFrequency metrics) 5 then score + 12
    else score in
  (* Domain reputation *)
  let score := score + (10 - domainRepScore metrics) * 2.5 in
  Math_min score 100.

Definition calculateTemporalScore (metrics : AnomalyMetrics) : Q :=
  let score := 0 in
  (* First visit behavior *)
  let score :=
    if truthyBool (isFirstVisit metrics) then
      let score :=
        if gt (requestCount metrics) 20 then score + 25 else score in
      let score :=
        if gt (dataExfilSize metrics) (1024 * 1024) then score + 20
        else score in
      score
    else score in
  (* User interaction correlation *)
  let score :=
    if negb (truthyBool (userInteractionOccurred metrics)) then
      if gt (requestCount metrics) 5 then score + 30
      else if gt (requestCount metrics) 0 then score + 15
      else score
    else score in
  (* Time-based anomalies *)
  let score :=
    match timeOfDay metrics with
    | Some t => if ge t 2 && le t 5 then score + 20 else score
    | None => score
    end in
  (* Domain age analysis *)
  let score :=
    match domainAge metrics with
    | Some a =>
        if eqn a 0 then score + 30
        else if lt a 7 then score + 20
        else if lt a 30 then score + 10
        else score
    | None => score
    end in
  Math_min score 100.

Definition calculateStructuralScore (metrics : AnomalyMetrics) : Q :=
  let score := 0 in
  (* Obfuscation detection *)
  let score := if obfuscationDetected metrics then score + 40 else score in
  (* Dangerous function usage *)
  let score :=
    match dangerousFunctionCount metrics with
    | Some n =>
        if gt n 10 then score + 30
        else if gt n 5 then score + 20
        else if gt n 0 then score + 10
        else score
    | None => score
    end in
  (* Cookie/session manipulation *)
  let score :=
    if truthyBool (cookieAccessDetected metrics) then score + 30
    else score in
  Math_min score 100.

(** [vectors.push(tag)] under a condition. *)
Definition pushIf (c : bool) (tag : string) (vectors : list string)
  : list string :=
  if c then vectors ++ [tag] else vectors.

Definition identifyThreatVectors
    (metrics : AnomalyMetrics) (context : ThreatContext) : list string :=
  let vectors := [] in
  let vectors :=
    pushIf (gt (dataExfilSize metrics) (5 * 1024 * 1024))
      "DATA_EXFILTRATION" vectors in
  let vectors :=
    pushIf (obfuscationDetected metrics
            && truthyNum (dangerousFunctionCount metrics)
            && optGt (dangerousFunctionCount metrics) 5)
      "OBFUSCATED_MALWARE" vectors in
  let vectors :=
    pushIf (truthyBool (cookieAccessDetected metrics)
            && gt (dataExfilSize metrics) 0)
      "SESSION_HIJACKING" vectors in
  let vectors :=
    pushIf (negb (truthyBool (userInteractionOccurred metrics))
            && gt (requestCount metrics) 10)
      "BACKGROUND_BEACON" vectors in
  let vectors :=
    pushIf (truthyBool (isFirstVisit metrics)
            && (gt (requestCount metrics) 20
                || gt (dataExfilSize metrics) (1024 * 1024)))
      "ZERO_DAY_ATTACK" vectors in
  let vectors :=
    pushIf (truthyNum (uploadFrequency metrics)
            && optGt (uploadFrequency metrics) 15)
      "RAPID_EXFIL" vectors in
  vectors.

(** One entry of the [checks] table of [calculateConfidence]: the value
    read from the snapshot ([None] when it is [undefined]) and its
    weight. *)
Inductive FieldValue : Type :=
| NumV (x : Q)
| BoolV (b : bool).

Record FieldCheck : Type := {
  value : option FieldValue;
  weight : Q
}.

Definition checks (metrics : AnomalyMetrics) : list FieldCheck :=
  [ {| value := Some (NumV (requestCount metrics)); weight := 1 |};
    {| value := Some (NumV (domainRepScore metrics)); weight := 1 |};
    {| value := Some (NumV (dataExfilSize metrics)); weight := 1 |};
    {| value := option_map NumV (uploadFrequency metrics); weight := 0.8 |};
    {| value := Some (BoolV (obfuscationDetected metrics)); weight := 1 |};
    {| value := option_map NumV (dangerousFunctionCount metrics);
       weight := 0.8 |};
    {| value := option_map BoolV (cookieAccessDetected metrics);
       weight := 0.8 |};
    {| value := option_map BoolV (isFirstVisit metrics); weight := 0.6 |};
    {| value := option_map BoolV (userInteractionOccurred metrics);
       weight := 0.6 |};
    {| value := option_map NumV (timeOfDay metrics); weight := 0.4 |};
    {| value := option_map NumV (domainAge metrics); weight := 0.7 |} ].

(** The body of the [forEach] callback, on the pair
    [(dataPoints, availablePoints)]. *)
Definition countCheck (acc : Q * Q) (check : FieldCheck) : Q * Q :=
  let (dataPoints, availablePoints) := acc in
  let availablePoints := availablePoints + weight check in
  let dataPoints :=
    match value check with
    | Some _ => dataPoints + weight check
    | None => dataPoints
    end in
  (dataPoints, availablePoints).

Definition calculateConfidence (metrics : AnomalyMetrics) : Z :=
  let (dataPoints, availablePoints) :=
    fold_left countCheck (checks metrics) (0, 0) in
  Math_round ((dataPoints / availablePoints) * 100).

(** The four cross-dimensional patterns of [analyzeContext]. *)
Definition pattern1 (metrics : AnomalyMetrics) : bool :=
  obfuscationDetected metrics && gt (dataExfilSize metrics) (1024 * 1024).

Definition pattern2 (metrics : AnomalyMetrics) : bool :=
  truthyBool (isFirstVisit metrics)
  && negb (truthyBool (userInteractionOccurred metrics))
  && gt (requestCount metrics) 10.

Definition pattern3 (metrics : AnomalyMetrics) : bool :=
  truthyBool (cookieAccessDetected metrics)
  && truthyNum (uploadFrequency metrics)
  && optGt (uploadFrequency metrics) 10.

Definition pattern4 (metrics : AnomalyMetrics) : bool :=
  lt (domainRepScore metrics) 3
  && obfuscationDetected metrics
  && gt (dataExfilSize metrics) 0.

(** [context.threatVector = v]. *)
Definition setThreatVector (v : list string) (context : ThreatContext)
  : ThreatContext :=
  {| behavioralScore := behavioralScore context;
     temporalScore := temporalScore context;
     structuralScore := structuralScore context;
     combinedScore := combinedScore context;
     confidence := confidence context;
     threatVector := v |}.

(** The weighted combination of the three sub-scores, before the
    multipliers. *)
Definition weightedSum (behavioral temporal structural : Q) : Q :=
  (behavioral * 0.40) + (temporal * 0.30) + (structural * 0.30).

Definition analyzeContext (metrics : AnomalyMetrics) : ThreatContext :=
  let behavioral := calculateBehavioralScore metrics in
  let temporal := calculateTemporalScore metrics in
  let structural := calculateStructuralScore metrics in
  let combined := weightedSum behavioral temporal structural in
  let combined := if pattern1 metrics then combined * 1.3 else combined in
  let combined := if pattern2 metrics then combined * 1.25 else combined in
  let combined := if pattern3 metrics then combined * 1.4 else combined in
  let combined := if pattern4 metrics then combined * 1.35 else combined in
  let combined := Math_min combined 100 in
  let conf := calculateConfidence metrics in
  let context :=
    {| behavioralScore := behavioral;
       temporalScore := temporal;
       structuralScore := structural;
       combinedScore := combined;
       confidence := conf;
       threatVector := [] |} in
  setThreatVector (identifyThreatVectors metrics context) context.

Definition getRiskLevel (metrics : AnomalyMetrics) : string :=
  let context := analyzeContext metrics in
  if ge (combinedScore context) 75 then "CRITICAL"%string
  else if ge (combinedScore context) 50 then "HIGH"%string
  else if ge (combinedScore context) 25 then "MEDIUM"%string
  else "LOW"%string.

(** Field updates, to speak of two snapshots that differ in one field. *)
Definition setRequestCount (v : Q) (m : AnomalyMetrics) : AnomalyMetrics :=
  {| requestCount := v;
     domainRepScore := domainRepScore m;
     dataExfilSize := dataExfilSize m;
     uploadFrequency := uploadFrequency m;
     obfuscationDetected := obfuscationDetected m;
     dangerousFunctionCount := dangerousFunctionCount m;
     cookieAccessDetected := cookieAccessDetected m;
     isFirstVisit := isFirstVisit m;
     userInteractionOccurred := userInteractionOccurred m;
     timeOfDay := timeOfDay m;
     domainAge := domainAge m |}.

Definition setDomainRepScore (v : Q) (m : AnomalyMetrics) : AnomalyMetrics :=
  {| requestCount := requestCount m;
     domainRepScore := v;
     dataExfilSize := dataExfilSize m;
     uploadFrequency := uploadFrequency m;
     obfuscationDetected := obfuscationDetected m;
     dangerousFunctionCount := dangerousFunctionCount m;
     cookieAccessDetected := cookieAccessDetected m;
     isFirstVisit := isFirstVisit m;
     userInteractionOccurred := userInteractionOccurred m;
     timeOfDay := timeOfDay m;
     domainAge := domainAge m |}.

(** The optional fields of the snapshot, to speak of one of them being
    left out. *)
Inductive OptionalField : Type :=
| UploadFrequency
| DangerousFunctionCount
| CookieAccessDetected
| IsFirstVisit
| UserInteractionOccurred
| TimeOfDay
| DomainAge.

Definition isField (f g : OptionalField) : bool :=
  match f, g with
  | UploadFrequency, UploadFrequency
  | DangerousFunctionCount, DangerousFunctionCount
  | CookieAccessDetected, CookieAccessDetected
  | IsFirstVisit, IsFirstVisit
  | UserInteractionOccurred, UserInteractionOccurred
  | TimeOfDay, TimeOfDay
  | DomainAge, DomainAge => true
  | _, _ => false
  end.

(** The snapshot with field [f] replaced: numbers by [num], booleans by
    [flag]. *)
Definition replaceField (f : OptionalField)
    (num : option Q) (flag : option bool) (m : AnomalyMetrics)
  : AnomalyMetrics :=
  {| requestCount := requestCount m;
     domainRepScore := domainRepScore m;
     dataExfilSize := dataExfilSize m;
     uploadFrequency :=
       if isField f UploadFrequency then num else uploadFrequency m;
     obfuscationDetected := obfuscationDetected m;
     dangerousFunctionCount :=
       if isField f DangerousFunctionCount then num
       else dangerousFunctionCount m;
     cookieAccessDetected :=
       if isField f CookieAccessDetected then flag
       else cookieAccessDetected m;
     isFirstVisit := if isField f IsFirstVisit then flag else isFirstVisit m;
     userInteractionOccurred :=
       if isField f UserInteractionOccurred then flag
       else userInteractionOccurred m;
     timeOfDay := if isField f TimeOfDay then num else timeOfDay m;
     domainAge := if isField f DomainAge then num else domainAge m |}.

(** Field [f] absent. *)
Definition omit (f : OptionalField) : AnomalyMetrics -> AnomalyMetrics :=
  replaceField f None None.

(** Field [f] present with the reading that scores nothing: no uploads,
    no dangerous function, no cookie access, not a first visit, the user
    interacted, noon, a domain known for thirty days. *)
Definition benign (f : OptionalField) : AnomalyMetrics -> AnomalyMetrics :=
  match f with
  | UploadFrequency | DangerousFunctionCount =>
      replaceField f (Some 0) None
  | CookieAccessDetected | IsFirstVisit => replaceField f None (Some false)
  | UserInteractionOccurred => replaceField f None (Some true)
  | TimeOfDay => replaceField f (Some 12) None
  | DomainAge => replaceField f (Some 30) None
  end.

(** Everything of the context but the confidence. *)
Definition assessment (context : ThreatContext)
  : Q * Q * Q * Q * list string :=
  (behavioralScore context, temporalScore context, structuralScore context,
   combinedScore context, threatVector context).

End Scoring.

(** ** The confidence as the specification words it *)

Module ConfidenceSpec.
Import Js.

Inductive Field : Type :=
| RequestCount
| DomainRepScore
| DataExfilSize
| ObfuscationDetected
| Optional (f : Scoring.OptionalField).

Definition allFields : list Field :=
  [ RequestCount; DomainRepScore; DataExfilSize; ObfuscationDetected;
    Optional Scoring.UploadFrequency;
    Optional Scoring.DangerousFunctionCount;
    Optional Scoring.CookieAccessDetected;
    Optional Scoring.IsFirstVisit;
    Optional Scoring.UserInteractionOccurred;
    Optional Scoring.TimeOfDay;
    Optional Scoring.DomainAge ].

(** uploadFrequency 0.8, dangerousFunctionCount 0.8, cookieAccessDetected
    0.8, isFirstVisit 0.6, userInteractionOccurred 0.6, timeOfDay 0.4,
    domainAge 0.7; required fields 1.0 each. *)
Definition fieldWeight (f : Field) : Q :=
  match f with
  | Optional Scoring.UploadFrequency => 0.8
  | Optional Scoring.DangerousFunctionCount => 0.8
  | Optional Scoring.CookieAccessDetected => 0.8
  | Optional Scoring.IsFirstVisit => 0.6
  | Optional Scoring.UserInteractionOccurred => 0.6
  | Optional Scoring.TimeOfDay => 0.4
  | Optional Scoring.DomainAge => 0.7
  | _ => 1
  end.

Definition isSome {A : Type} (o : option A) : bool :=
  match o with
  | Some _ => true
  | None => false
  end.

(** Required fields are always present. *)
Definition present (m : Scoring.AnomalyMetrics) (f : Field) : bool :=
  match f with
  | Optional Scoring.UploadFrequency => isSome (Scoring.uploadFrequency m)
  | Optional Scoring.DangerousFunctionCount =>
      isSome (Scoring.dangerousFunctionCount m)
  | Optional Scoring.CookieAccessDetected =>
      isSome (Scoring.cookieAccessDetected m)
  | Optional Scoring.IsFirstVisit => isSome (Scoring.isFirstVisit m)
  | Optional Scoring.UserInteractionOccurred =>
      isSome (Scoring.userInteractionOccurred m)
  | Optional Scoring.TimeOfDay => isSome (Scoring.timeOfDay m)
  | Optional Scoring.DomainAge => isSome (Scoring.domainAge m)
  | _ => true
  end.

Definition totalWeight (fs : list Field) : Q :=
  fold_right (fun f acc => fieldWeight f + acc) 0 fs.

(** The weighted fraction of the fields that are present, as a rounded
    percentage of the total possible weight. *)
Definition confidence (m : Scoring.AnomalyMetrics) : Z :=
  Math_round
    (100 * (totalWeight (filter (present m) allFields)
            / totalWeight allFields)).

End ConfidenceSpec.

(** ** The three-input scorer, the earlier [src/lib/anomaly-scoring.ts] *)

Module SimpleScoring.
Import Js.

(** The interface declares three fields.  [dataExfilSize] is not part of
    it; callers pass it all the same (network-monitor.ts), so the
    argument object carries it as an extra property. *)
Record AnomalyMetrics : Type := {
  requestCount : Q;
  domainRepScore : Q;
  obfuscationDetected : bool;
  dataExfilSize : option Q
}.

Definition baseScore (metrics : AnomalyMetrics) : Q :=
  (requestCount metrics * 2) + (domainRepScore metrics * 10).

Definition obfuscationMultiplier (metrics : AnomalyMetrics) : Q :=
  if obfuscationDetected metrics then 2 else 1.

Definition finalScore (metrics : AnomalyMetrics) : Q :=
  baseScore metrics * obfuscationMultiplier metrics.

Definition getRiskLevel (metrics : AnomalyMetrics) : string :=
  if gt (finalScore metrics) 100 then "CRITICAL"%string
  else if gt (finalScore metrics) 50 then "HIGH"%string
  else "LOW"%string.

End SimpleScoring.

(** ** The traffic window, [src/background/network-monitor.{js,ts}] *)

Module NetworkMonitor.

Open Scope string_scope.

(** What [saveLog] receives.  The sink stamps the time itself, so the
    [timestamp] property is left out. *)
Record LogEntry : Type := {
  type : string;
  detection_source : string;
  severity : string;
  details : string;
  url : option string;
  destination_host : option string;
  rewritten_value : option string;
  host : option string;
  bytes_uploaded : option Z
}.

(** [hostUploadBytes] is a JavaScript [Map]: keys in insertion order. *)
Definition HostMap : Type := list (string * Z).

Record State : Type := {
  hostUploadBytes : HostMap;
  logs : list LogEntry
}.

Definition saveLog (entry : LogEntry) (st : State) : State :=
  {| hostUploadBytes := hostUploadBytes st; logs := logs st ++ [entry] |}.

Fixpoint mapGet (m : HostMap) (k : string) : option Z :=
  match m with
  | [] => None
  | (k', v) :: m' => if String.eqb k' k then Some v else mapGet m' k
  end.

Fixpoint mapSet (m : HostMap) (k : string) (v : Z) : HostMap :=
  match m with
  | [] => [(k, v)]
  | (k', v') :: m' =>
      if String.eqb k' k then (k, v) :: m' else (k', v') :: mapSet m' k v
  end.

(** Template literals print a number in decimal. *)
Definition numberToString (n : Z) : string :=
  DecimalString.NilZero.string_of_int (Z.to_int n).

(** *** The tag-rewrite patterns

    Each pattern is [/(\?|&)NAME=([^&]+)/i] for a parameter [NAME]; a
    pattern is kept as its [NAME]. *)

Definition AFFILIATE_PATTERNS : list string :=
  [ "affiliate_id"; "tag"; "partner_ref"; "ref" ].

Definition isUpper (c : ascii) : bool :=
  (65 <=? nat_of_ascii c)%nat && (nat_of_ascii c <=? 90)%nat.

Definition toLower (c : ascii) : ascii :=
  if isUpper c then ascii_of_nat (nat_of_ascii c + 32) else c.

Fixpoint toLowerCase (s : string) : string :=
  match s with
  | EmptyString => EmptyString
  | String c s' => String (toLower c) (toLowerCase s')
  end.

(** The flag [i]: two characters match when they agree up to ASCII
    letter case. *)
Definition eqCI (a b : ascii) : bool := Ascii.eqb (toLower a) (toLower b).

(** [lit] matched at the head of [s], letter case ignored: the text that
    matched and what follows it. *)
Fixpoint matchLiteral (lit s : string) : option (string * string) :=
  match lit with
  | EmptyString => Some (EmptyString, s)
  | String a lit' =>
      match s with
      | EmptyString => None
      | String b s' =>
          if eqCI a b then
            match matchLiteral lit' s' with
            | Some (m, rest) => Some (String b m, rest)
            | None => None
            end
          else None
      end
  end.

(** [[^&]*], greedy: the longest prefix free of [&]. *)
Fixpoint takeValue (s : string) : string :=
  match s with
  | EmptyString => EmptyString
  | String c s' =>
      if Ascii.eqb c "&"%char then EmptyString else String c (takeValue s')
  end.

(** The pattern anchored at the head of [s]: groups 0 and 2. *)
Definition matchHere (name s : string) : option (string * string) :=
  match s with
  | EmptyString => None
  | String c s' =>
      if Ascii.eqb c "?"%char || Ascii.eqb c "&"%char then
        match matchLiteral (name ++ "=") s' with
        | Some (key, rest) =>
            match takeValue rest with
            | EmptyString => None
            | v => Some (String c (key ++ v), v)
            end
        | None => None
        end
      else None
  end.

(** [s.match(pattern)]: the leftmost position where the pattern matches;
    [Some (match[0], match[2])], or [None] for [null]. *)
Fixpoint regexMatch (name s : string) : option (string * string) :=
  match matchHere name s with
  | Some r => Some r
  | None =>
      match s with
      | EmptyString => None
      | String _ s' => regexMatch name s'
      end
  end.

(** *** The request listener *)

Record HttpHeader : Type := {
  name : string;
  value : string
}.

Record RequestDetails : Type := {
  reqUrl : string;
  requestHeaders : list HttpHeader
}.

(** The finding logged for a tag rewrite; [sev] is ['high'] in the
    JavaScript file and ['HIGH'] in the TypeScript one. *)
Definition anomalyEntry (sev requestUrl destinationHost : string)
    (m : string * string) : LogEntry :=
  {| type := "network_anomaly";
     detection_source := "webRequest_url";
     severity := sev;
     details := "Affiliate tag detected: " ++ fst m;
     url := Some requestUrl;
     destination_host := Some destinationHost;
     rewritten_value := Some (snd m);
     host := None;
     bytes_uploaded := None |}.

(** The [for (const pattern of AFFILIATE_PATTERNS)] loop with its
    [break]. *)
Fixpoint checkPatterns (sev : string) (patterns : list string)
    (requestUrl destinationHost : string) (st : State) : State :=
  match patterns with
  | [] => st
  | pattern :: rest =>
      match regexMatch pattern requestUrl with
      | Some m => saveLog (anomalyEntry sev requestUrl destinationHost m) st
      | None => checkPatterns sev rest requestUrl destinationHost st
      end
  end.

(** The listener once the destination host and the byte count of the
    request are known: the byte counter, then the tag check. *)
Definition observe (sev : string) (destinationHost : string)
    (uploadedBytes : Z) (requestUrl : string) (st : State) : State :=
  let st :=
    if (uploadedBytes >? 0)%Z then
      let currentBytes :=
        match mapGet (hostUploadBytes st) destinationHost with
        | Some b => if (b =? 0)%Z then 0%Z else b
        | None => 0%Z
        end in
      {| hostUploadBytes :=
           mapSet (hostUploadBytes st) destinationHost
             (currentBytes + uploadedBytes)%Z;
         logs := logs st |}
    else st in
  checkPatterns sev AFFILIATE_PATTERNS requestUrl destinationHost st.

Section Listener.

(** [new URL(url).hostname], [None] when the constructor throws, and
    [parseInt], [None] when it yields [NaN]: both belong to the host
    environment. *)
Variable urlHostname : string -> option string.
Variable parseInt : string -> option Z.

Definition findContentLength (headers : list HttpHeader)
  : option HttpHeader :=
  find (fun h => String.eqb (toLowerCase (name h)) "content-length")
    headers.

Definition onBeforeSendHeaders (sev : string) (details : RequestDetails)
    (st : State) : State :=
  if prefix "chrome-extension://" (reqUrl details) then st
  else
    match urlHostname (reqUrl details) with
    | None => st
    | Some destinationHost =>
        let contentLengthHeader :=
          findContentLength (requestHeaders details) in
        let uploadedBytes :=
          match contentLengthHeader with
          | Some h =>
              match parseInt (value h) with
              | Some n => n
              | None => 0%Z
              end
          | None => 0%Z
          end in
        observe sev destinationHost uploadedBytes (reqUrl details) st
    end.

End Listener.

(** *** The five-second flush *)

Definition statisticEntry (sev : string) (h : string) (bytes : Z)
  : LogEntry :=
  {| type := "network_statistic_upload";
     detection_source := "upload_byte_counter";
     severity := sev;
     details :=
       "Total bytes uploaded to " ++ h ++ " in the last 5s: "
       ++ numberToString bytes;
     url := None;
     destination_host := None;
     rewritten_value := None;
     host := Some h;
     bytes_uploaded := Some bytes |}.

(** network-monitor.js: severity from the 5 MB threshold. *)
Module Threshold.

Definition sevHigh : string := "high".

Definition observe : string -> Z -> string -> State -> State :=
  NetworkMonitor.observe sevHigh.

Definition logHost (st : State) (entry : string * Z) : State :=
  let (h, bytes) := entry in
  let threshold := (5 * 1024 * 1024)%Z in
  let severity := if (bytes >? threshold)%Z then "warning" else "info" in
  saveLog (statisticEntry severity h bytes) st.

Definition logAndResetUploadBytes (st : State) : State :=
  if (List.length (hostUploadBytes st) =? 0)%nat then st
  else
    let st := fold_left logHost (hostUploadBytes st) st in
    {| hostUploadBytes := []; logs := logs st |}.

(** The record [logHost] hands to [saveLog] for one host. *)
Definition thresholdEntry (e : string * Z) : LogEntry :=
  statisticEntry
    (if (snd e >? 5 * 1024 * 1024)%Z then "warning" else "info")
    (fst e) (snd e).

End Threshold.

(** network-monitor.ts: severity from [getRiskLevel]. *)
Module Scored.

Definition sevHigh : string := "HIGH".

Definition observe : string -> Z -> string -> State -> State :=
  NetworkMonitor.observe sevHigh.

Definition logHost (st : State) (entry : string * Z) : State :=
  let (h, bytes) := entry in
  let finalSeverity :=
    SimpleScoring.getRiskLevel
      {| SimpleScoring.requestCount := 0;
         SimpleScoring.domainRepScore := 5;
         SimpleScoring.obfuscationDetected := false;
         SimpleScoring.dataExfilSize := Some (inject_Z bytes) |} in
  saveLog (statisticEntry finalSeverity h bytes) st.

Definition logAndResetUploadBytes (st : State) : State :=
  if (List.length (hostUploadBytes st) =? 0)%nat then st
  else
    let st := fold_left logHost (hostUploadBytes st) st in
    {| hostUploadBytes := []; logs := logs st |}.

End Scored.

(** A fresh service worker: empty window, nothing logged. *)
Definition initial : State := {| hostUploadBytes := []; logs := [] |}.

End NetworkMonitor.

(** ** The script analyser, [src/analysis/script-analyzer.{js,ts}] *)

Module ScriptAnalyzer.

Open Scope string_scope.

(** What [esprima.parseScript] returns is walked as plain JavaScript
    data: the traversal looks at property names, never at a node type
    declaration.  An object keeps its properties in insertion order.
    Numbers are integers here: the analyser reads line numbers only. *)
#[warnings="-register-all"] Inductive value : Type :=
| VUndefined
| VNull
| VBool (b : bool)
| VNum (n : Z)
| VStr (s : string)
| VArr (items : list value)
| VObj (props : list (string * value)).

Fixpoint lookup (k : string) (props : list (string * value)) : value :=
  match props with
  | [] => VUndefined
  | (k', v) :: rest => if String.eqb k' k then v else lookup k rest
  end.

(** [v.k] where [v] is neither [undefined] nor [null].  None of the
    names the analyser reads ([type], [loc], [start], [line], [callee],
    [name], [property], [left]) exists on an array or on a primitive. *)
Definition field (v : value) (k : string) : value :=
  match v with
  | VObj props => lookup k props
  | _ => VUndefined
  end.

(** [v?.k] *)
Definition optField (v : value) (k : string) : value :=
  match v with
  | VUndefined | VNull => VUndefined
  | _ => field v k
  end.

Definition truthy (v : value) : bool :=
  match v with
  | VUndefined | VNull => false
  | VBool b => b
  | VNum n => negb (n =? 0)%Z
  | VStr s => negb (String.eqb s "")
  | VArr _ | VObj _ => true
  end.

(** [typeof v === 'object' && v !== null] *)
Definition isObject (v : value) : bool :=
  match v with
  | VArr _ | VObj _ => true
  | _ => false
  end.

(** [v === s] for a string literal [s]. *)
Definition strEq (v : value) (s : string) : bool :=
  match v with
  | VStr s' => String.eqb s' s
  | _ => false
  end.

Definition DANGEROUS_CALLS : list string :=
  [ "eval"; "Function"; "setTimeout"; "setInterval"; "atob"; "btoa" ].

Definition STRING_MANIPULATORS : list string :=
  [ "fromCharCode"; "charCodeAt"; "substr"; "substring"; "replace" ].

(** [list.includes(v)]: only a string can equal a member. *)
Definition includes (l : list string) (v : value) : option string :=
  match v with
  | VStr s => if existsb (String.eqb s) l then Some s else None
  | _ => None
  end.

(** What [saveLog] receives ([timestamp] left out: the sink stamps the
    time itself). *)
Record LogEntry : Type := {
  type : string;
  detection_source : option string;
  severity : string;
  script_id : string;
  line_number : option value;
  details : string
}.

Record Error : Type := { message : string }.

(** The variables the closure [traverse] shares with its caller: the
    verdict flag and the entries handed to [saveLog] so far. *)
Record State : Type := {
  isSuspicious : bool;
  logs : list LogEntry
}.

Inductive Result (A : Type) : Type :=
| Ok (a : A)
| Throw (e : Error).
Arguments Ok {A} a.
Arguments Throw {A} e.

Definition M (A : Type) : Type := State -> Result A * State.

Definition ret {A : Type} (a : A) : M A := fun st => (Ok a, st).

Definition bind {A B : Type} (m : M A) (k : A -> M B) : M B :=
  fun st =>
    match m st with
    | (Ok a, st') => k a st'
    | (Throw e, st') => (Throw e, st')
    end.

Definition throw {A : Type} (e : Error) : M A := fun st => (Throw e, st).

Notation "x <- m ;; k" := (bind m (fun x => k))
  (at level 61, m at next level, right associativity).
Notation "m ;; k" := (bind m (fun _ => k))
  (at level 61, right associativity).

Definition saveLog (entry : LogEntry) : M unit :=
  fun st =>
    (Ok tt, {| isSuspicious := isSuspicious st;
               logs := logs st ++ [entry] |}).

Definition markSuspicious : M unit :=
  fun st => (Ok tt, {| isSuspicious := true; logs := logs st |}).

(** [v.k], which throws a [TypeError] on [undefined] and [null]. *)
Definition getProp (v : value) (k : string) : M value :=
  match v with
  | VUndefined =>
      throw {| message :=
        "Cannot read properties of undefined (reading '" ++ k ++ "')" |}
  | VNull =>
      throw {| message :=
        "Cannot read properties of null (reading '" ++ k ++ "')" |}
  | _ => ret (field v k)
  end.

(** [for (x of l) f(x)], an exception leaving the loop. *)
Definition forEach {A : Type} (f : A -> M unit) : list A -> M unit :=
  fix loop (l : list A) : M unit :=
    match l with
    | [] => ret tt
    | x :: rest => f x ;; loop rest
    end.

(** *** The traversal

    Both files share the shape of [traverse]: return on anything that is
    not an object, apply the three rules to the node, then go through
    the own properties (the indices, for an array); an array-valued
    property is walked with [forEach(traverse)].  They differ in the
    rules ([checkNode]) and in which other children are entered
    ([enters]). *)
Section Traverse.

Variable checkNode : value -> M unit.
Variable enters : value -> bool.

Fixpoint traverse (node : value) : M unit :=
  match node with
  | VObj props =>
      checkNode node ;;
      forEach
        (fun kv : string * value =>
           match kv with
           | (_, child) =>
               match child with
               | VArr items => forEach traverse items
               | _ => if enters child then traverse child else ret tt
               end
           end)
        props
  | VArr elems =>
      checkNode node ;;
      forEach
        (fun child : value =>
           match child with
           | VArr items => forEach traverse items
           | _ => if enters child then traverse child else ret tt
           end)
        elems
  | _ => ret tt
  end.

(** What either loop does with one child. *)
Definition visitChild (child : value) : M unit :=
  match child with
  | VArr items => forEach traverse items
  | _ => if enters child then traverse child else ret tt
  end.

Definition isArray (v : value) : bool :=
  match v with
  | VArr _ => true
  | _ => false
  end.

(** [visits root n]: [traverse root] reaches [n] and applies the rules
    to it.  The four ways down follow the two loops: through an array
    held by a property or by an index, whose items are all traversed,
    or into another child that [enters] lets in. *)
Inductive visits : value -> value -> Prop :=
| visits_self : forall n, isObject n = true -> visits n n
| visits_prop_items : forall props k items x n,
    In (k, VArr items) props -> In x items -> visits x n ->
    visits (VObj props) n
| visits_prop_enter : forall props k child n,
    In (k, child) props -> isArray child = false ->
    enters child = true -> visits child n ->
    visits (VObj props) n
| visits_elem_items : forall elems items x n,
    In (VArr items) elems -> In x items -> visits x n ->
    visits (VArr elems) n
| visits_elem_enter : forall elems child n,
    In child elems -> isArray child = false ->
    enters child = true -> visits child n ->
    visits (VArr elems) n.

End Traverse.

(** [ok] holds of every object and array of the tree. *)
Fixpoint allNodes (ok : value -> bool) (v : value) : bool :=
  match v with
  | VObj props =>
      ok v
      && forallb (fun kv => match kv with (_, child) => allNodes ok child end)
           props
  | VArr items => ok v && forallb (allNodes ok) items
  | _ => true
  end.

(** [root] holds [n], at any depth. *)
Inductive contains : value -> value -> Prop :=
| contains_self : forall n, contains n n
| contains_prop : forall props k child n,
    In (k, child) props -> contains child n -> contains (VObj props) n
| contains_elem : forall elems child n,
    In child elems -> contains child n -> contains (VArr elems) n.

(** [node] is a call of the bare identifier [f], a member of the
    deny-list, and starts on line [line]. *)
Definition isDangerousCall (node : value) (f : string) (line : Z) : Prop :=
  field node "type" = VStr "CallExpression"
  /\ field (field node "callee") "type" = VStr "Identifier"
  /\ field (field node "callee") "name" = VStr f
  /\ In f DANGEROUS_CALLS
  /\ field (field (field node "loc") "start") "line" = VNum line.

(** [st'] comes after [st]: the flag is never cleared and entries are
    only added. *)
Definition extends (st st' : State) : Prop :=
  (isSuspicious st = true -> isSuspicious st' = true)
  /\ exists added, logs st' = (logs st ++ added)%list.

(** A computation that only ever moves the state forward. *)
Definition grows {A : Type} (m : M A) : Prop :=
  forall st r st', m st = (r, st') -> extends st st'.

(** A computation that returns, from every state. *)
Definition returns {A : Type} (m : M A) : Prop :=
  forall st, exists a st', m st = (Ok a, st').

Definition nullish (v : value) : bool :=
  match v with
  | VUndefined | VNull => true
  | _ => false
  end.

Definition anomalyEntry (scriptId detail : string) (line : value)
  : LogEntry :=
  {| type := "script_anomaly";
     detection_source := Some "static_analysis";
     severity := "high";
     script_id := scriptId;
     line_number := Some line;
     details := detail |}.

Definition initialState : State := {| isSuspicious := false; logs := [] |}.

(** *** script-analyzer.js *)
Module JsFile.

Definition logAnomaly (scriptId ty : string) (line : value) : M unit :=
  saveLog
    (anomalyEntry scriptId
       ("High-risk structural anomaly found: " ++ ty) line).

Definition checkNode (scriptId : string) (node : value) : M unit :=
  line <- (if truthy (field node "loc")
           then start <- getProp (field node "loc") "start" ;;
                getProp start "line"
           else ret (VNum 0)) ;;
  (* Rule 1 *)
  (if strEq (field node "type") "CallExpression" then
     calleeType <- getProp (field node "callee") "type" ;;
     if strEq calleeType "Identifier" then
       let functionName := field (field node "callee") "name" in
       match includes DANGEROUS_CALLS functionName with
       | Some f =>
           markSuspicious ;;
           logAnomaly scriptId ("Function call to '" ++ f ++ "'") line
       | None => ret tt
       end
     else ret tt
   else ret tt) ;;
  (* Rule 2 *)
  (if strEq (field node "type") "MemberExpression"
      && truthy (field node "property")
      && strEq (field (field node "property") "type") "Identifier" then
     let propertyName := field (field node "property") "name" in
     match includes STRING_MANIPULATORS propertyName with
     | Some p =>
         markSuspicious ;;
         logAnomaly scriptId ("Obfuscation method detected: " ++ p) line
     | None => ret tt
     end
   else ret tt) ;;
  (* Rule 3 *)
  (if strEq (field node "type") "AssignmentExpression" then
     leftType <- getProp (field node "left") "type" ;;
     if strEq leftType "MemberExpression"
        && truthy (field (field node "left") "property")
        && strEq (field (field (field node "left") "property") "name")
             "cookie" then
       markSuspicious ;;
       logAnomaly scriptId "Direct assignment to 'document.cookie'" line
     else ret tt
   else ret tt).

Definition traverse (scriptId : string) : value -> M unit :=
  ScriptAnalyzer.traverse (checkNode scriptId) (fun _ => true).

Section Scan.

(** [esprima.parseScript(text, { loc: true })]: the tree, or the
    error it throws. *)
Variable parseScript : string -> Error + value.

Definition scanScriptForAnomalies (scriptContent scriptId : string)
  : bool * list LogEntry :=
  let body : M bool :=
    AST <- (fun st =>
              match parseScript scriptContent with
              | inr ast => (Ok ast, st)
              | inl e => (Throw e, st)
              end) ;;
    traverse scriptId AST ;;
    (fun st => (Ok (isSuspicious st), st)) in
  match body initialState with
  | (Ok r, st) => (r, logs st)
  | (Throw error, st) =>
      (false,
       (logs st ++
       [ {| type := "script_analysis_error";
            detection_source := None;
            severity := "medium";
            script_id := scriptId;
            line_number := None;
            details := "Script parsing failed: " ++ message error |} ])%list)
  end.

End Scan.

(** No property read of the rules throws on [node]. *)
Definition safeNode (node : value) : bool :=
  (if truthy (field node "loc")
   then negb (nullish (field (field node "loc") "start")) else true)
  && (if strEq (field node "type") "CallExpression"
      then negb (nullish (field node "callee")) else true)
  && (if strEq (field node "type") "AssignmentExpression"
      then negb (nullish (field node "left")) else true).

(** Every node of the tree is safe in that sense. *)
Definition safeTree : value -> bool := allNodes safeNode.

End JsFile.

(** *** script-analyzer.ts *)
Module TsFile.

Definition logAnomaly (scriptId ty : string) (line : value) : M unit :=
  saveLog (anomalyEntry scriptId ("High-risk function: " ++ ty) line).

Definition lineOf (node : value) : value :=
  let l := optField (optField (field node "loc") "start") "line" in
  if truthy l then l else VNum 0.

Definition checkNode (scriptId : string) (node : value) : M unit :=
  let line := lineOf node in
  (* Rule 1 *)
  (if strEq (field node "type") "CallExpression"
      && strEq (optField (field node "callee") "type") "Identifier" then
     let functionName := field (field node "callee") "name" in
     match includes DANGEROUS_CALLS functionName with
     | Some f =>
         markSuspicious ;;
         logAnomaly scriptId ("Function call to '" ++ f ++ "'") line
     | None => ret tt
     end
   else ret tt) ;;
  (* Rule 2 *)
  (if strEq (field node "type") "MemberExpression"
      && strEq (optField (field node "property") "type") "Identifier" then
     let propertyName := field (field node "property") "name" in
     match includes STRING_MANIPULATORS propertyName with
     | Some p =>
         markSuspicious ;;
         logAnomaly scriptId ("Obfuscation method: " ++ p) line
     | None => ret tt
     end
   else ret tt) ;;
  (* Rule 3 *)
  (if strEq (field node "type") "AssignmentExpression"
      && strEq (optField (field node "left") "type") "MemberExpression"
      && strEq (optField (field (field node "left") "property") "name")
           "cookie" then
     markSuspicious ;;
     logAnomaly scriptId "Writes to document.cookie" line
   else ret tt).

(** [typeof child === "object" && child !== null && child.type] *)
Definition enters (child : value) : bool :=
  isObject child && truthy (field child "type").

Definition traverse (scriptId : string) : value -> M unit :=
  ScriptAnalyzer.traverse (checkNode scriptId) enters.

(** The tree holds an object with a [type], a node. *)
Fixpoint holdsNode (v : value) : bool :=
  match v with
  | VObj props =>
      truthy (lookup "type" props)
      || existsb (fun kv => match kv with (_, child) => holdsNode child end)
           props
  | VArr items => existsb holdsNode items
  | _ => false
  end.

(** Nodes sit under nodes and arrays only: an object without a [type]
    (a position, the pattern of a regular expression) holds no node. *)
Definition nodesUnderNodes : value -> bool :=
  allNodes
    (fun u => isArray u || truthy (field u "type") || negb (holdsNode u)).

Section Scan.

Variable parseScript : string -> Error + value.

Definition scanScriptForAnomalies (scriptContent scriptId : string)
  : bool * list LogEntry :=
  let body : M bool :=
    AST <- (fun st =>
              match parseScript scriptContent with
              | inr ast => (Ok ast, st)
              | inl e => (Throw e, st)
              end) ;;
    traverse scriptId AST ;;
    (fun st => (Ok (isSuspicious st), st)) in
  match body initialState with
  | (Ok r, st) => (r, logs st)
  | (Throw err, st) =>
      (false,
       (logs st ++
       [ {| type := "script_analysis_error";
            detection_source := Some "static_analysis";
            severity := "medium";
            script_id := scriptId;
            line_number := None;
            details := "Failed to parse: " ++ message err |} ])%list)
  end.

End Scan.

End TsFile.

End ScriptAnalyzer.

(** ** Sample inputs *)

Module Samples.

(** The scenario of the three-input scorer. *)
Definition scenarioMetrics (obfuscated : bool)
  : SimpleScoring.AnomalyMetrics :=
  {| SimpleScoring.requestCount := 15;
     SimpleScoring.domainRepScore := 3;
     SimpleScoring.obfuscationDetected := obfuscated;
     SimpleScoring.dataExfilSize := Some 0 |}.

(** A snapshot with the required fields only. *)
Definition bare (requests reputation exfil : Q) (obfuscated : bool)
  : Scoring.AnomalyMetrics :=
  {| Scoring.requestCount := requests;
     Scoring.domainRepScore := reputation;
     Scoring.dataExfilSize := exfil;
     Scoring.uploadFrequency := None;
     Scoring.obfuscationDetected := obfuscated;
     Scoring.dangerousFunctionCount := None;
     Scoring.cookieAccessDetected := None;
     Scoring.isFirstVisit := None;
     Scoring.userInteractionOccurred := None;
     Scoring.timeOfDay := None;
     Scoring.domainAge := None |}.

(** Eleven requests on a first visit, nothing said about interaction. *)
Definition firstVisitBurst : Scoring.AnomalyMetrics :=
  Scoring.replaceField Scoring.IsFirstVisit None (Some true)
    (bare 11 10 0 false).

(** Ten thousand requests to a domain rated 1000. *)
Definition offScale : Scoring.AnomalyMetrics := bare 10000 1000 0 false.

(** Every optional field filled in. *)
Definition complete : Scoring.AnomalyMetrics :=
  {| Scoring.requestCount := 10000;
     Scoring.domainRepScore := 2;
     Scoring.dataExfilSize := 20000000;
     Scoring.uploadFrequency := Some 20;
     Scoring.obfuscationDetected := true;
     Scoring.dangerousFunctionCount := Some 12;
     Scoring.cookieAccessDetected := Some true;
     Scoring.isFirstVisit := Some true;
     Scoring.userInteractionOccurred := Some false;
     Scoring.timeOfDay := Some 3;
     Scoring.domainAge := Some 0 |}.

(** The request of the tag-rewrite scenario. *)
Definition taggedUrl : string := "https://x.example/?tag=abc123".

(** A window with nothing in it, whatever was logged before. *)
Definition emptyWindow (logged : list NetworkMonitor.LogEntry)
  : NetworkMonitor.State :=
  {| NetworkMonitor.hostUploadBytes := [];
     NetworkMonitor.logs := logged |}.

(** The tree of [x = 1;] on line 1 and [eval(code);] on line 2, as
    esprima builds it (positions other than the start line left out). *)
Definition at_line (l : Z) : string * ScriptAnalyzer.value :=
  ("loc"%string,
   ScriptAnalyzer.VObj
     [("start"%string,
       ScriptAnalyzer.VObj [("line"%string, ScriptAnalyzer.VNum l)])]).

Definition identifier (l : Z) (id : string) : ScriptAnalyzer.value :=
  ScriptAnalyzer.VObj
    [("type"%string, ScriptAnalyzer.VStr "Identifier");
     ("name"%string, ScriptAnalyzer.VStr id);
     at_line l].

Definition evalCall : ScriptAnalyzer.value :=
  ScriptAnalyzer.VObj
    [("type"%string, ScriptAnalyzer.VStr "CallExpression");
     ("callee"%string, identifier 2 "eval");
     ("arguments"%string, ScriptAnalyzer.VArr [identifier 2 "code"]);
     at_line 2].

Definition evalProgram : ScriptAnalyzer.value :=
  ScriptAnalyzer.VObj
    [("type"%string, ScriptAnalyzer.VStr "Program");
     ("body"%string,
      ScriptAnalyzer.VArr
        [ScriptAnalyzer.VObj
           [("type"%string, ScriptAnalyzer.VStr "ExpressionStatement");
            ("expression"%string,
             ScriptAnalyzer.VObj
               [("type"%string, ScriptAnalyzer.VStr "AssignmentExpression");
                ("operator"%string, ScriptAnalyzer.VStr "=");
                ("left"%string, identifier 1 "x");
                ("right"%string,
                 ScriptAnalyzer.VObj
                   [("type"%string, ScriptAnalyzer.VStr "Literal");
                    ("value"%string, ScriptAnalyzer.VNum 1);
                    ("raw"%string, ScriptAnalyzer.VStr "1");
                    at_line 1]);
                at_line 1]);
            at_line 1];
         ScriptAnalyzer.VObj
           [("type"%string, ScriptAnalyzer.VStr "ExpressionStatement");
            ("expression"%string, evalCall);
            at_line 2]]);
     ("sourceType"%string, ScriptAnalyzer.VStr "script");
     at_line 1].

Definition evalSource : string :=
  String "x" (String " " (String "=" (String " " (String "1" (String ";"
    (String (ascii_of_nat 10) "eval(code);")))))).

(** A stand-in for the parser that knows two texts. *)
Definition sampleParser (text : string)
  : ScriptAnalyzer.Error + ScriptAnalyzer.value :=
  if String.eqb text evalSource then inr evalProgram
  else inl {| ScriptAnalyzer.message := "Line 1: Unexpected token )" |}.

End Samples.

(** ** Vocabulary for further properties of the scorers *)

Module Levels.

(** The risk levels, lowest first. *)
Definition levelRank (level : string) : nat :=
  if String.eqb level "CRITICAL" then 3
  else if String.eqb level "HIGH" then 2
  else if String.eqb level "MEDIUM" then 1
  else 0.

(** The tags of [identifyThreatVectors], in the order of its [if]s. *)
Definition threatTags : list string :=
  [ "DATA_EXFILTRATION"%string; "OBFUSCATED_MALWARE"%string;
    "SESSION_HIJACKING"%string; "BACKGROUND_BEACON"%string;
    "ZERO_DAY_ATTACK"%string; "RAPID_EXFIL"%string ].

(** The entries of [l] whose flag in [keep] is set, in their order. *)
Fixpoint pick {A : Type} (l : list A) (keep : list bool) : list A :=
  match l, keep with
  | x :: l', true :: keep' => x :: pick l' keep'
  | _ :: l', false :: keep' => pick l' keep'
  | _, _ => []
  end.

End Levels.

(** ** Vocabulary for further properties of the traffic window *)

Module Window.
Import NetworkMonitor.

(** One request as the listener sees it once the host is known. *)
Record Request : Type := {
  toHost : string;
  uploaded : Z;
  requestUrl : string
}.

(** The listener run over requests in their order. *)
Definition observeAll (sev : string) (requests : list Request) (st : State)
  : State :=
  fold_left
    (fun st r => observe sev (toHost r) (uploaded r) (requestUrl r) st)
    requests st.

(** The bytes of the requests to [h] that carried a body. *)
Fixpoint totalFor (h : string) (requests : list Request) : Z :=
  match requests with
  | [] => 0
  | r :: rest =>
      (if String.eqb (toHost r) h && (uploaded r >? 0)%Z
       then uploaded r else 0) + totalFor h rest
  end%Z.

(** The text holds neither [?] nor [&]. *)
Fixpoint plain (s : string) : bool :=
  match s with
  | EmptyString => true
  | String c s' =>
      negb (Ascii.eqb c "?"%char || Ascii.eqb c "&"%char) && plain s'
  end.

End Window.

(** ** The third script analyser, [script-analyser.ts]

    The shortest of the three files: optional chaining everywhere, no
    test of the type of a callee or of a property, and every child
    traversed. *)

Module AltFile.
Import ScriptAnalyzer.
Open Scope string_scope.

Definition logAnomaly (scriptId ty : string) (line : value) : M unit :=
  saveLog (anomalyEntry scriptId ("High-risk function: " ++ ty) line).

Definition checkNode (scriptId : string) (node : value) : M unit :=
  let line := TsFile.lineOf node in
  (* Rule 1 *)
  (if strEq (field node "type") "CallExpression"
      && truthy (optField (field node "callee") "name") then
     match includes DANGEROUS_CALLS (field (field node "callee") "name") with
     | Some f =>
         markSuspicious ;;
         logAnomaly scriptId ("Function call to '" ++ f ++ "'") line
     | None => ret tt
     end
   else ret tt) ;;
  (* Rule 2 *)
  (if strEq (field node "type") "MemberExpression"
      && truthy (optField (field node "property") "name") then
     match
       includes STRING_MANIPULATORS (field (field node "property") "name")
     with
     | Some p =>
         markSuspicious ;;
         logAnomaly scriptId ("Obfuscation method: " ++ p) line
     | None => ret tt
     end
   else ret tt) ;;
  (* Rule 3 *)
  (if strEq (field node "type") "AssignmentExpression"
      && strEq (optField (optField (field node "left") "property") "name")
           "cookie" then
     markSuspicious ;;
     logAnomaly scriptId "Writes to document.cookie" line
   else ret tt).

Definition traverse (scriptId : string) : value -> M unit :=
  ScriptAnalyzer.traverse (checkNode scriptId) (fun _ => true).

Section Scan.

Variable parseScript : string -> Error + value.

Definition scanScriptForAnomalies (scriptContent scriptId : string)
  : bool * list LogEntry :=
  let body : M bool :=
    AST <- (fun st =>
              match parseScript scriptContent with
              | inr ast => (Ok ast, st)
              | inl e => (Throw e, st)
              end) ;;
    traverse scriptId AST ;;
    (fun st => (Ok (isSuspicious st), st)) in
  match body initialState with
  | (Ok r, st) => (r, logs st)
  | (Throw err, st) =>
      (false,
       (logs st ++
        [ {| type := "script_analysis_error";
             detection_source := None;
             severity := "medium";
             script_id := scriptId;
             line_number := None;
             details := "Failed to parse: " ++ message err |} ])%list)
  end.

End Scan.

End AltFile.

(** ** Vocabulary for further properties of the analysers *)

Module Findings.
Import ScriptAnalyzer.
Open Scope string_scope.

Definition isEmpty {A : Type} (l : list A) : bool :=
  match l with
  | [] => true
  | _ => false
  end.

(** The state once [entries] were found: each finding sets the flag and
    is logged. *)
Definition record (st : State) (entries : list LogEntry) : State :=
  {| isSuspicious := isSuspicious st || negb (isEmpty entries);
     logs := (logs st ++ entries)%list |}.

Section Order.

Variable enters : value -> bool.

(** The nodes to which [traverse] applies the rules, in the order in
    which it does. *)
Fixpoint visitOrder (node : value) : list value :=
  match node with
  | VObj props =>
      node
      :: flat_map
           (fun kv : string * value =>
              match kv with
              | (_, child) =>
                  match child with
                  | VArr items => flat_map visitOrder items
                  | _ => if enters child then visitOrder child else []
                  end
              end)
           props
  | VArr elems =>
      node
      :: flat_map
           (fun child : value =>
              match child with
              | VArr items => flat_map visitOrder items
              | _ => if enters child then visitOrder child else []
              end)
           elems
  | _ => []
  end.

Definition childOrder (child : value) : list value :=
  match child with
  | VArr items => flat_map visitOrder items
  | _ => if enters child then visitOrder child else []
  end.

End Order.

(** What the rules of script-analyzer.js log on a node whose property
    reads do not throw. *)
Definition jsLine (node : value) : value :=
  if truthy (field node "loc")
  then field (field (field node "loc") "start") "line"
  else VNum 0.

Definition jsFindings (scriptId : string) (node : value) : list LogEntry :=
  let entry := fun ty =>
    anomalyEntry scriptId ("High-risk structural anomaly found: " ++ ty)%string
      (jsLine node) in
  ((if strEq (field node "type") "CallExpression"
       && strEq (field (field node "callee") "type") "Identifier"
    then match
           includes DANGEROUS_CALLS (field (field node "callee") "name")
         with
         | Some f => [entry ("Function call to '" ++ f ++ "'")%string]
         | None => []
         end
    else [])
   ++ (if strEq (field node "type") "MemberExpression"
          && truthy (field node "property")
          && strEq (field (field node "property") "type") "Identifier"
       then match
              includes STRING_MANIPULATORS
                (field (field node "property") "name")
            with
            | Some p => [entry ("Obfuscation method detected: " ++ p)%string]
            | None => []
            end
       else [])
   ++ (if strEq (field node "type") "AssignmentExpression"
          && strEq (field (field node "left") "type") "MemberExpression"
          && truthy (field (field node "left") "property")
          && strEq (field (field (field node "left") "property") "name")
               "cookie"
       then [entry "Direct assignment to 'document.cookie'"]
       else []))%list.

(** What the rules of script-analyzer.ts log on a node. *)
Definition tsFindings (scriptId : string) (node : value) : list LogEntry :=
  let entry := fun ty =>
    anomalyEntry scriptId ("High-risk function: " ++ ty)%string
      (TsFile.lineOf node) in
  ((if strEq (field node "type") "CallExpression"
       && strEq (optField (field node "callee") "type") "Identifier"
    then match
           includes DANGEROUS_CALLS (field (field node "callee") "name")
         with
         | Some f => [entry ("Function call to '" ++ f ++ "'")%string]
         | None => []
         end
    else [])
   ++ (if strEq (field node "type") "MemberExpression"
          && strEq (optField (field node "property") "type") "Identifier"
       then match
              includes STRING_MANIPULATORS
                (field (field node "property") "name")
            with
            | Some p => [entry ("Obfuscation method: " ++ p)%string]
            | None => []
            end
       else [])
   ++ (if strEq (field node "type") "AssignmentExpression"
          && strEq (optField (field node "left") "type") "MemberExpression"
          && strEq (optField (field (field node "left") "property") "name")
               "cookie"
       then [entry "Writes to document.cookie"]
       else []))%list.

(** What the rules of the third file log on a node. *)
Definition altFindings (scriptId : string) (node : value) : list LogEntry :=
  let entry := fun ty =>
    anomalyEntry scriptId ("High-risk function: " ++ ty)%string
      (TsFile.lineOf node) in
  ((if strEq (field node "type") "CallExpression"
       && truthy (optField (field node "callee") "name")
    then match
           includes DANGEROUS_CALLS (field (field node "callee") "name")
         with
         | Some f => [entry ("Function call to '" ++ f ++ "'")%string]
         | None => []
         end
    else [])
   ++ (if strEq (field node "type") "MemberExpression"
          && truthy (optField (field node "property") "name")
       then match
              includes STRING_MANIPULATORS
                (field (field node "property") "name")
            with
            | Some p => [entry ("Obfuscation method: " ++ p)%string]
            | None => []
            end
       else [])
   ++ (if strEq (field node "type") "AssignmentExpression"
          && strEq
               (optField (optField (field node "left") "property") "name")
               "cookie"
       then [entry "Writes to document.cookie"]
       else []))%list.

(** A computation that returns after finding exactly [entries]. *)
Definition produces (m : M unit) (entries : list LogEntry) : Prop :=
  forall st, m st = (Ok tt, record st entries).

(** [node] assigns to a member named [cookie] and starts on line
    [line]. *)
Definition isCookieWrite (node : value) (line : Z) : Prop :=
  field node "type" = VStr "AssignmentExpression"
  /\ field (field node "left") "type" = VStr "MemberExpression"
  /\ field (field (field node "left") "property") "name" = VStr "cookie"
  /\ field (field (field node "loc") "start") "line" = VNum line.

(** [node] reads the member [p], one of the string manipulators, through
    an identifier, and starts on line [line]. *)
Definition isManipulatorAccess (node : value) (p : string) (line : Z)
  : Prop :=
  field node "type" = VStr "MemberExpression"
  /\ field (field node "property") "type" = VStr "Identifier"
  /\ field (field node "property") "name" = VStr p
  /\ In p STRING_MANIPULATORS
  /\ field (field (field node "loc") "start") "line" = VNum line.

(** The types of node the three rules look at. *)
Definition watched (node : value) : bool :=
  strEq (field node "type") "CallExpression"
  || strEq (field node "type") "MemberExpression"
  || strEq (field node "type") "AssignmentExpression".

(** The scan of script [scriptId] logged [found] and nothing else, all
    of it [script_anomaly] entries of severity [high], and answered
    [true] exactly when it logged something. *)
Definition logsExactly (result : bool * list LogEntry) (scriptId : string)
    (found : list LogEntry) : Prop :=
  snd result = found
  /\ Forall (fun e => type e = "script_anomaly" /\ severity e = "high"
                      /\ script_id e = scriptId)
       (snd result)
  /\ (fst result = true <-> snd result <> []).

(** The scan answered [true] and logged [entry]. *)
Definition flags (result : bool * list LogEntry) (entry : LogEntry) : Prop :=
  fst result = true /\ In entry (snd result).

End Findings.
(** ** The log store, [log-storage.ts]

    [chrome.storage.local] is a map from keys to values; it is taken to
    give back what was put in, which holds of values made of numbers,
    strings, booleans, arrays and objects. *)

Module LogStorage.
Import ScriptAnalyzer.
Open Scope string_scope.

Definition LOG_KEY : string := "security_logs".

Definition Storage : Type := list (string * value).

(** [o[k] = v] on an object: an existing property keeps its place. *)
Fixpoint setProp (k : string) (v : value) (props : list (string * value))
  : list (string * value) :=
  match props with
  | [] => [(k, v)]
  | (k', v') :: rest =>
      if String.eqb k' k then (k, v) :: rest
      else (k', v') :: setProp k v rest
  end.

(** [chrome.storage.local.get(key)] and [set({[key]: v})] *)
Definition storageGet (st : Storage) (key : string) : value :=
  lookup key st.

Definition storageSet (key : string) (v : value) (st : Storage) : Storage :=
  setProp key v st.

(** [Array.isArray(v) ? v : []] *)
Definition arrayOrEmpty (v : value) : list value :=
  match v with
  | VArr items => items
  | _ => []
  end.

(** [{ ...newLogEntry, timestamp: Date.now() }], for an entry that is an
    object, given by its properties. *)
Definition fullLog (newLogEntry : list (string * value)) (now : Z) : value :=
  VObj (setProp "timestamp" (VNum now) newLogEntry).

(** [saveLog] after its first [await]: [currentLogs] is what the read
    gave, [st] the store at the time of the write. *)
Definition saveLogWrite (newLogEntry : list (string * value)) (now : Z)
    (currentLogs : value) (st : Storage) : Storage :=
  let logsArray := arrayOrEmpty currentLogs in
  let updatedLogs := fullLog newLogEntry now :: logsArray in
  storageSet LOG_KEY (VArr updatedLogs) st.

(** [saveLog] with nothing running between its read and its write. *)
Definition saveLog (newLogEntry : list (string * value)) (now : Z)
    (st : Storage) : Storage :=
  saveLogWrite newLogEntry now (storageGet st LOG_KEY) st.

Definition getLogs (st : Storage) : list value :=
  arrayOrEmpty (storageGet st LOG_KEY).

(** Entries saved one after the other, each with its own time. *)
Definition saveAll (entries : list (list (string * value) * Z))
    (st : Storage) : Storage :=
  fold_left (fun st e => saveLog (fst e) (snd e) st) entries st.

End LogStorage.

(** ** The permission check, [conflict-checker.js] and
    [conflict-checker.ts] *)

Module ConflictChecker.

Open Scope string_scope.

(** [chrome.management.ExtensionInfo], the fields that are read. *)
Module Management.

Record ExtensionInfo : Type := {
  id : string;
  name : string;
  type : string;
  enabled : bool;
  permissions : option (list string);
  hostPermissions : option (list string)
}.

End Management.

Record LogEntry : Type := {
  type : string;
  severity : string;
  extension_name : string;
  extension_id : string;
  sensitive_permissions_found : list string;
  details : string;
  timestamp : option string
}.

Record State : Type := {
  conflictCount : nat;
  logs : list LogEntry
}.

Definition saveLog (entry : LogEntry) (st : State) : State :=
  {| conflictCount := conflictCount st; logs := (logs st ++ [entry])%list |}.

(** [list?.includes(perm)], [undefined] read as [false]. *)
Definition optIncludes (l : option (list string)) (perm : string) : bool :=
  match l with
  | Some l => existsb (String.eqb perm) l
  | None => false
  end.

Section Checker.

Variable SENSITIVE_PERMISSIONS : list string.

(** The time the entry carries, if the file gives it one. *)
Variable stamp : option string.

Variable runtimeId : string.

Definition holds (ext : Management.ExtensionInfo) (perm : string) : bool :=
  optIncludes (Management.permissions ext) perm
  || optIncludes (Management.hostPermissions ext) perm.

(** The inner loop. *)
Definition foundPermissions (ext : Management.ExtensionInfo) : list string :=
  fold_left
    (fun found perm =>
       if holds ext perm then (found ++ [perm])%list else found)
    SENSITIVE_PERMISSIONS [].

Definition skipped (ext : Management.ExtensionInfo) : bool :=
  String.eqb (Management.id ext) runtimeId
  || negb (String.eqb (Management.type ext) "extension")
  || negb (Management.enabled ext).

Definition conflictEntry (ext : Management.ExtensionInfo) : LogEntry :=
  let found := foundPermissions ext in
  {| type := "extension_conflict";
     severity := "medium";
     extension_name := Management.name ext;
     extension_id := Management.id ext;
     sensitive_permissions_found := found;
     details :=
       "Extension possesses "
       ++ NetworkMonitor.numberToString (Z.of_nat (List.length found))
       ++ " sensitive permissions.";
     timestamp := stamp |}.

(** One turn of the outer loop. *)
Definition checkExtension (st : State) (ext : Management.ExtensionInfo)
  : State :=
  if skipped ext then st
  else
    match foundPermissions ext with
    | [] => st
    | _ :: _ =>
        saveLog (conflictEntry ext)
          {| conflictCount := S (conflictCount st); logs := logs st |}
    end.

(** The check on what [chrome.management.getAll()] gave: the entries
    saved and the count printed, none when the call failed. *)
Definition check (getAll : option (list Management.ExtensionInfo))
  : option nat * list LogEntry :=
  match getAll with
  | Some extensions =>
      let st :=
        fold_left checkExtension extensions
          {| conflictCount := 0; logs := [] |} in
      (Some (conflictCount st), logs st)
  | None => (None, [])
  end.

(** The extension is one the loop does not skip and holds one of the
    permissions. *)
Definition reported (ext : Management.ExtensionInfo) : bool :=
  negb (skipped ext) && existsb (holds ext) SENSITIVE_PERMISSIONS.

End Checker.

(** *** conflict-checker.js *)
Module JsFile.

Definition SENSITIVE_PERMISSIONS : list string :=
  [ "webRequest"; "cookies"; "tabs"; "scripting"; "<all_urls>" ].

Definition runConflictCheck (runtimeId : string)
    (getAll : option (list Management.ExtensionInfo))
  : option nat * list LogEntry :=
  check SENSITIVE_PERMISSIONS None runtimeId getAll.

End JsFile.

(** *** conflict-checker.ts *)
Module TsFile.

Definition SENSITIVE_PERMISSIONS : list string :=
  [ "webRequest"; "cookies"; "tabs"; "scripting"; "<all_urls>";
    "management" ].

Definition runConflictCheck (runtimeId now : string)
    (getAll : option (list Management.ExtensionInfo))
  : option nat * list LogEntry :=
  check SENSITIVE_PERMISSIONS (Some now) runtimeId getAll.

End TsFile.

End ConflictChecker.

(** ** The URL scanner of the three [background.ts]

    The URL of a request is ASCII text, so [toLowerCase] and
    [toUpperCase] change the 26 letters only. *)

Module UrlScanner.

Open Scope string_scope.

Definition SUSPICIOUS_PARAMS : list string :=
  [ "redirect"; "aff_id"; "token"; "base64"; "track"; "click"; "session" ].

Definition TRACKER_DOMAINS : list string :=
  [ "doubleclick.net"; "adnxs.com"; "google-analytics.com"; "tracking";
    "pixel"; "affiliate" ].

(** [s.includes(needle)] *)
Fixpoint includes (s needle : string) : bool :=
  prefix needle s
  || match s with
     | EmptyString => false
     | String _ s' => includes s' needle
     end.

(** [s.startsWith(p)] *)
Definition startsWith (s p : string) : bool := prefix p s.

Definition isLower (c : ascii) : bool :=
  (97 <=? nat_of_ascii c)%nat && (nat_of_ascii c <=? 122)%nat.

Definition toUpper (c : ascii) : ascii :=
  if isLower c then ascii_of_nat (nat_of_ascii c - 32) else c.

Fixpoint toUpperCase (s : string) : string :=
  match s with
  | EmptyString => EmptyString
  | String c s' => String (toUpper c) (toUpperCase s')
  end.

Record LogEntry : Type := {
  type : string;
  severity : string;
  url : string;
  details : string;
  detection_source : string
}.

(** A call of [triggerAlert] ([time] left out). *)
Record Alert : Type := {
  message : string;
  alertUrl : string
}.

Record State : Type := {
  logs : list LogEntry;
  alerts : list Alert
}.

Definition saveLog (entry : LogEntry) (st : State) : State :=
  {| logs := (logs st ++ [entry])%list; alerts := alerts st |}.

Definition triggerAlert (msg u : string) (st : State) : State :=
  {| logs := logs st;
     alerts := (alerts st ++ [ {| message := msg; alertUrl := u |} ])%list |}.

(** The two variables the [if]s assign. *)
Record Verdict : Type := {
  riskLevel : string;
  reason : string
}.

Definition urlThreat (v : Verdict) (u : string) : LogEntry :=
  {| type := "url_threat";
     severity := riskLevel v;
     url := u;
     details := reason v;
     detection_source := "network_monitor" |}.

(** The rules of [src/background.ts] and of the file that follows
    [log-storage.ts]. *)
Definition assess (u : string) : Verdict :=
  let v := {| riskLevel := "low"; reason := "" |} in
  let v :=
    if existsb (fun p => includes u p) SUSPICIOUS_PARAMS
    then {| riskLevel := "medium";
            reason := "Suspicious query parameter detected." |}
    else v in
  if startsWith u "http:"
  then {| riskLevel := "high"; reason := "Unsecured HTTP site detected." |}
  else v.

(** *** The listener that only logs *)
Module Plain.

Definition onBeforeRequest (detailsUrl : string) (st : State) : State :=
  let u := NetworkMonitor.toLowerCase detailsUrl in
  let v := assess u in
  if negb (String.eqb (riskLevel v) "low")
  then saveLog (urlThreat v u) st
  else st.

End Plain.

(** *** The listener of [src/background.ts], which also alerts *)
Module Alerting.

Definition onBeforeRequest (detailsUrl : string) (st : State) : State :=
  let u := NetworkMonitor.toLowerCase detailsUrl in
  let v := assess u in
  if negb (String.eqb (riskLevel v) "low")
  then
    triggerAlert
      (reason v ++ " (Risk: " ++ toUpperCase (riskLevel v) ++ ")") u
      (saveLog (urlThreat v u) st)
  else st.

End Alerting.

(** *** The listener that also knows tracker domains *)
Module Trackers.

Definition assess (u : string) : Verdict :=
  let v := {| riskLevel := "low"; reason := "" |} in
  let v :=
    if existsb (fun param => includes u param) SUSPICIOUS_PARAMS
    then {| riskLevel := "medium";
            reason := "Suspicious query parameter in URL." |}
    else v in
  let v :=
    if existsb (fun domain => includes u domain) TRACKER_DOMAINS
    then {| riskLevel := "medium";
            reason := "Known tracking or ad network detected." |}
    else v in
  if startsWith u "http:"
  then {| riskLevel := "high"; reason := "Unsecured HTTP site detected." |}
  else v.

Definition onBeforeRequest (detailsUrl : string) (st : State) : State :=
  let u := NetworkMonitor.toLowerCase detailsUrl in
  let v := assess u in
  if negb (String.eqb (riskLevel v) "low")
  then saveLog (urlThreat v u) st
  else st.

End Trackers.

Definition initial : State := {| logs := []; alerts := [] |}.

(** What every listener logs for a URL that starts with [http:]. *)
Definition unsecured (u : string) : LogEntry :=
  {| type := "url_threat";
     severity := "high";
     url := u;
     details := "Unsecured HTTP site detected.";
     detection_source := "network_monitor" |}.

(** The severity of the entry logged last. *)
Definition severity_of_last (l : list LogEntry) : option string :=
  option_map severity (last (map Some l) None).

End UrlScanner.
(** ** Further sample inputs *)

Module Cases.

Open Scope string_scope.

(** Stand-ins for [new URL(url).hostname] and [parseInt]. *)
Definition sampleHostname (url : string) : option string :=
  if prefix "https://x.example/" url then Some "x.example" else None.

Definition sampleParseInt (text : string) : option Z :=
  if String.eqb text "1000" then Some 1000%Z
  else if String.eqb text "0" then Some 0%Z
  else None.

(** A request with two headers, the length spelt in capitals. *)
Definition upload : NetworkMonitor.RequestDetails :=
  {| NetworkMonitor.reqUrl := "https://x.example/upload";
     NetworkMonitor.requestHeaders :=
       [ {| NetworkMonitor.name := "Accept"; NetworkMonitor.value := "*/*" |};
         {| NetworkMonitor.name := "CONTENT-LENGTH";
            NetworkMonitor.value := "1000" |} ] |}.

(** The tree of [document.cookie = name.replace(a, b);] on line 1
    (start lines only). *)
Definition memberOf (object property : string) : ScriptAnalyzer.value :=
  ScriptAnalyzer.VObj
    [("type", ScriptAnalyzer.VStr "MemberExpression");
     ("computed", ScriptAnalyzer.VBool false);
     ("object", Samples.identifier 1 object);
     ("property", Samples.identifier 1 property);
     Samples.at_line 1].

Definition replaceCall : ScriptAnalyzer.value :=
  ScriptAnalyzer.VObj
    [("type", ScriptAnalyzer.VStr "CallExpression");
     ("callee", memberOf "name" "replace");
     ("arguments",
      ScriptAnalyzer.VArr [Samples.identifier 1 "a"; Samples.identifier 1 "b"]);
     Samples.at_line 1].

Definition cookieWrite : ScriptAnalyzer.value :=
  ScriptAnalyzer.VObj
    [("type", ScriptAnalyzer.VStr "AssignmentExpression");
     ("operator", ScriptAnalyzer.VStr "=");
     ("left", memberOf "document" "cookie");
     ("right", replaceCall);
     Samples.at_line 1].

Definition cookieProgram : ScriptAnalyzer.value :=
  ScriptAnalyzer.VObj
    [("type", ScriptAnalyzer.VStr "Program");
     ("body",
      ScriptAnalyzer.VArr
        [ScriptAnalyzer.VObj
           [("type", ScriptAnalyzer.VStr "ExpressionStatement");
            ("expression", cookieWrite);
            Samples.at_line 1]]);
     ("sourceType", ScriptAnalyzer.VStr "script");
     Samples.at_line 1].

Definition cookieSource : string := "document.cookie = name.replace(a, b);".

(** The tree of [x;]: nothing for the rules to find. *)
Definition plainProgram : ScriptAnalyzer.value :=
  ScriptAnalyzer.VObj
    [("type", ScriptAnalyzer.VStr "Program");
     ("body",
      ScriptAnalyzer.VArr
        [ScriptAnalyzer.VObj
           [("type", ScriptAnalyzer.VStr "ExpressionStatement");
            ("expression", Samples.identifier 1 "x");
            Samples.at_line 1]]);
     ("sourceType", ScriptAnalyzer.VStr "script");
     Samples.at_line 1].

(** A stand-in for the parser that knows three texts. *)
Definition parser (text : string)
  : ScriptAnalyzer.Error + ScriptAnalyzer.value :=
  if String.eqb text cookieSource then inr cookieProgram
  else if String.eqb text "x;" then inr plainProgram
  else Samples.sampleParser text.

(** A parse call that throws on every text, as a call of [parseScript]
    on an import that is [undefined] does. *)
Definition noParser (text : string)
  : ScriptAnalyzer.Error + ScriptAnalyzer.value :=
  inl {| ScriptAnalyzer.message :=
           "Cannot read properties of undefined (reading 'parseScript')" |}.

End Cases.

(** ** Sample extensions, stores and requests *)

Module Installed.

Open Scope string_scope.

Definition extension (i : string) (perms hosts : option (list string))
  : ConflictChecker.Management.ExtensionInfo :=
  {| ConflictChecker.Management.id := i;
     ConflictChecker.Management.name := i;
     ConflictChecker.Management.type := "extension";
     ConflictChecker.Management.enabled := true;
     ConflictChecker.Management.permissions := perms;
     ConflictChecker.Management.hostPermissions := hosts |}.

Definition blocker : ConflictChecker.Management.ExtensionInfo :=
  extension "blocker" (Some ["tabs"; "storage"; "webRequest"])
    (Some ["<all_urls>"]).

Definition manager : ConflictChecker.Management.ExtensionInfo :=
  extension "manager" (Some ["management"]) None.

Definition self : ConflictChecker.Management.ExtensionInfo :=
  extension "self" (Some ["management"; "webRequest"]) None.

Definition all : list ConflictChecker.Management.ExtensionInfo :=
  [ blocker; manager; self ].

(** A store that holds one old entry and an alert. *)
Definition store : LogStorage.Storage :=
  [ ("latest_alert", ScriptAnalyzer.VStr "seen");
    ("security_logs",
     ScriptAnalyzer.VArr
       [ScriptAnalyzer.VObj [("type", ScriptAnalyzer.VStr "old")]]) ].

Definition dated : list (string * ScriptAnalyzer.value) :=
  [ ("type", ScriptAnalyzer.VStr "network_anomaly");
    ("timestamp", ScriptAnalyzer.VStr "2025-01-01T00:00:00.000Z");
    ("severity", ScriptAnalyzer.VStr "high") ].

Definition plainEntry : list (string * ScriptAnalyzer.value) :=
  [ ("type", ScriptAnalyzer.VStr "url_threat") ].

End Installed.
(** * Properties *)

(** ** Comparisons and clamping *)

Section JsFacts.
Import Js.

Lemma gt_true (x y : Q) : gt x y = true <-> y < x.
Proof.
  unfold gt. rewrite negb_true_iff, <- not_true_iff_false, Qle_bool_iff.
  split; [apply Qnot_le_lt | apply Qlt_not_le].
Qed.

Lemma gt_false (x y : Q) : gt x y = false <-> x <= y.
Proof. unfold gt. rewrite negb_false_iff. apply Qle_bool_iff. Qed.

Lemma lt_true (x y : Q) : lt x y = true <-> x < y.
Proof. apply gt_true. Qed.

Lemma lt_false (x y : Q) : lt x y = false <-> y <= x.
Proof. apply gt_false. Qed.

Lemma ge_true (x y : Q) : ge x y = true <-> y <= x.
Proof. apply Qle_bool_iff. Qed.

Lemma ge_false (x y : Q) : ge x y = false <-> x < y.
Proof.
  unfold ge. rewrite <- not_true_iff_false, Qle_bool_iff.
  split; [apply Qnot_le_lt | apply Qlt_not_le].
Qed.

Lemma Math_min_le_r (x y : Q) : Math_min x y <= y.
Proof.
  unfold Math_min. destruct (Qle_bool x y) eqn:E.
  - now apply Qle_bool_iff.
  - apply Qle_refl.
Qed.

Lemma Math_min_glb (x y z : Q) : z <= x -> z <= y -> z <= Math_min x y.
Proof. unfold Math_min. now destruct (Qle_bool x y). Qed.

Lemma Math_min_mono (x x' y : Q) : x <= x' -> Math_min x y <= Math_min x' y.
Proof.
  intros H. unfold Math_min.
  destruct (Qle_bool x y) eqn:E, (Qle_bool x' y) eqn:E'; try lra.
  - now apply Qle_bool_iff.
  - apply not_true_iff_false in E. rewrite Qle_bool_iff in E. lra.
Qed.

End JsFacts.

(** Case analysis on every comparison in sight, each left as an order
    fact for [lra]. *)
Ltac split_cmp :=
  repeat match goal with
    | |- context [Js.gt ?a ?b] =>
        let E := fresh "E" in
        destruct (Js.gt a b) eqn:E;
        [apply gt_true in E | apply gt_false in E]
    | |- context [Js.lt ?a ?b] =>
        let E := fresh "E" in
        destruct (Js.lt a b) eqn:E;
        [apply lt_true in E | apply lt_false in E]
    | |- context [Js.ge ?a ?b] =>
        let E := fresh "E" in
        destruct (Js.ge a b) eqn:E;
        [apply ge_true in E | apply ge_false in E]
    end.

(** ** The three-input scorer *)

Section SimpleScoringFacts.
Import SimpleScoring Samples.

(** C8: requestCount = 15, domainRepScore = 3 without obfuscation gives
    base 15*2 + 3*10 = 60, multiplier 1, final 60 and HIGH; with
    obfuscation the final score is 120 and the level CRITICAL. *)
Theorem simple_scenarios :
  baseScore (scenarioMetrics false) == 15 * 2 + 3 * 10
  /\ baseScore (scenarioMetrics false) == 60
  /\ obfuscationMultiplier (scenarioMetrics false) = 1
  /\ finalScore (scenarioMetrics false) == 60
  /\ getRiskLevel (scenarioMetrics false) = "HIGH"%string
  /\ finalScore (scenarioMetrics true) == 120
  /\ getRiskLevel (scenarioMetrics true) = "CRITICAL"%string.
Proof. repeat split; reflexivity. Qed.

(** The placeholder snapshot of the flush scores exactly 50, whatever
    [dataExfilSize] it carries. *)
Lemma placeholder_final (exfil : option Q) :
  finalScore {| requestCount := 0; domainRepScore := 5;
                obfuscationDetected := false; dataExfilSize := exfil |}
  == 50.
Proof. reflexivity. Qed.

Lemma placeholder_level (exfil : option Q) :
  getRiskLevel {| requestCount := 0; domainRepScore := 5;
                  obfuscationDetected := false; dataExfilSize := exfil |}
  = "LOW"%string.
Proof. reflexivity. Qed.

End SimpleScoringFacts.

(** ** The multi-dimensional scorer *)

Section ScoringFacts.
Import Js Scoring Samples.

(** Case analysis on the conditions that do not compare numbers the
    proof cares about. *)
Ltac split_flags :=
  repeat match goal with
    | |- context [if (?a && ?b)%bool then _ else _] =>
        destruct (a && b)%bool
    | |- context [if truthyBool ?a then _ else _] =>
        destruct (truthyBool a)
    | |- context [if negb ?a then _ else _] => destruct a; cbn [negb]
    | |- context [if obfuscationDetected ?a then _ else _] =>
        destruct (obfuscationDetected a)
    | |- context [if eqn ?a ?b then _ else _] => destruct (eqn a b)
    | |- context [match ?o with Some _ => _ | None => _ end] =>
        destruct o
    end.

Lemma behavioral_request_mono (m : AnomalyMetrics) (r1 r2 : Q) :
  r1 <= r2 ->
  calculateBehavioralScore (setRequestCount r1 m)
  <= calculateBehavioralScore (setRequestCount r2 m).
Proof.
  intros H. unfold calculateBehavioralScore.
  cbn [requestCount dataExfilSize uploadFrequency domainRepScore
       setRequestCount].
  apply Math_min_mono.
  generalize (dataExfilSize m / (1024 * 1024)); intros e.
  split_flags;
    destruct (gt e 10), (gt e 5), (gt e 1); split_cmp; lra.
Qed.

Lemma behavioral_reputation_mono (m : AnomalyMetrics) (d1 d2 : Q) :
  d1 <= d2 ->
  calculateBehavioralScore (setDomainRepScore d2 m)
  <= calculateBehavioralScore (setDomainRepScore d1 m).
Proof.
  intros H. unfold calculateBehavioralScore.
  cbn [requestCount dataExfilSize uploadFrequency domainRepScore
       setDomainRepScore].
  apply Math_min_mono.
  match goal with
  | |- ?a + _ <= ?b + _ => change b with a; generalize a; intros s
  end.
  lra.
Qed.

(** C9: of two snapshots that differ in [requestCount] only, the one
    with the larger [requestCount] has the larger or equal behavioural
    score; of two that differ in [domainRepScore] only, the one with the
    larger [domainRepScore] has the smaller or equal behavioural score. *)
Theorem behavioral_monotone (m : AnomalyMetrics) (lo hi : Q) :
  lo <= hi ->
  calculateBehavioralScore (setRequestCount lo m)
  <= calculateBehavioralScore (setRequestCount hi m)
  /\ calculateBehavioralScore (setDomainRepScore hi m)
     <= calculateBehavioralScore (setDomainRepScore lo m).
Proof.
  intros H. split.
  - now apply behavioral_request_mono.
  - now apply behavioral_reputation_mono.
Qed.

Lemma behavioral_monotone_witness :
  15 <= 60
  /\ calculateBehavioralScore (setRequestCount 15 (bare 0 4 0 false))
     <= calculateBehavioralScore (setRequestCount 60 (bare 0 4 0 false))
  /\ calculateBehavioralScore (setDomainRepScore 60 (bare 0 4 0 false))
     <= calculateBehavioralScore (setDomainRepScore 15 (bare 0 4 0 false)).
Proof.
  split; [ lra | apply (behavioral_monotone (bare 0 4 0 false) 15 60); lra ].
Defined.

(** *** Bounds *)

Lemma behavioral_le_100 (m : AnomalyMetrics) :
  calculateBehavioralScore m <= 100.
Proof. apply Math_min_le_r. Qed.

Lemma behavioral_nonneg (m : AnomalyMetrics) :
  domainRepScore m <= 10 -> 0 <= calculateBehavioralScore m.
Proof.
  intros H. unfold calculateBehavioralScore.
  apply Math_min_glb; [ | lra ].
  generalize (dataExfilSize m / (1024 * 1024)); intros e.
  split_flags; split_cmp; lra.
Qed.

Lemma temporal_nonneg (m : AnomalyMetrics) : 0 <= calculateTemporalScore m.
Proof.
  unfold calculateTemporalScore.
  apply Math_min_glb; [ | lra ].
  split_flags; split_cmp; lra.
Qed.

Lemma structural_nonneg (m : AnomalyMetrics) :
  0 <= calculateStructuralScore m.
Proof.
  unfold calculateStructuralScore.
  apply Math_min_glb; [ | lra ].
  split_flags; split_cmp; lra.
Qed.

Lemma combined_le_100 (m : AnomalyMetrics) :
  combinedScore (analyzeContext m) <= 100.
Proof. apply Math_min_le_r. Qed.

Lemma combined_nonneg (m : AnomalyMetrics) :
  domainRepScore m <= 10 -> 0 <= combinedScore (analyzeContext m).
Proof.
  intros H. cbn [analyzeContext setThreatVector combinedScore].
  pose proof (behavioral_nonneg m H) as Hb.
  pose proof (temporal_nonneg m) as Ht.
  pose proof (structural_nonneg m) as Hs.
  revert Hb Ht Hs.
  generalize (calculateBehavioralScore m) (calculateTemporalScore m)
    (calculateStructuralScore m).
  intros b t s Hb Ht Hs. unfold weightedSum.
  apply Math_min_glb; [ | lra ].
  destruct (pattern1 m), (pattern2 m), (pattern3 m), (pattern4 m); lra.
Qed.

End ScoringFacts.

Section ScoringClaims.
Import Js Scoring Samples.

(** C3, amended: the combined score never exceeds 100, and it is at least
    0 whenever [domainRepScore] is at most 10, whatever the other fields
    hold. *)
Theorem combined_bounds (m : AnomalyMetrics) :
  combinedScore (analyzeContext m) <= 100
  /\ (domainRepScore m <= 10 -> 0 <= combinedScore (analyzeContext m)).
Proof.
  split.
  - apply combined_le_100.
  - apply combined_nonneg.
Qed.

Lemma combined_bounds_witness :
  domainRepScore complete <= 10
  /\ 0 <= combinedScore (analyzeContext complete) <= 100.
Proof.
  assert (H : domainRepScore complete <= 10) by (cbn; lra).
  split; [ exact H | split ].
  - apply (proj2 (combined_bounds complete)), H.
  - apply (proj1 (combined_bounds complete)).
Defined.

(** C3 as stated fails: a reputation score of 1000 drives the combined
    score to -969. *)
Lemma combined_negative_off_scale :
  combinedScore (analyzeContext offScale) == -969
  /\ ~ (0 <= combinedScore (analyzeContext offScale) <= 100).
Proof.
  assert (H : combinedScore (analyzeContext offScale) == -969)
    by reflexivity.
  split; [ exact H | ].
  rewrite H. intros [H0 _]. lra.
Qed.

(** C4: the confidence computed by [calculateConfidence] is the weighted
    fraction of the fields that are present, with the weights of the
    specification, as a rounded percentage of the total weight. *)
Theorem confidence_weighted_fraction (m : AnomalyMetrics) :
  confidence (analyzeContext m) = ConfidenceSpec.confidence m.
Proof.
  change (calculateConfidence m = ConfidenceSpec.confidence m).
  destruct m as [rc rep ex uf ob dfc cad ifv uio tod da].
  destruct uf, dfc, cad, ifv, uio, tod, da; vm_compute; reflexivity.
Qed.

Example confidence_complete : calculateConfidence complete = 100%Z.
Proof. reflexivity. Qed.

Example confidence_bare : calculateConfidence (bare 1 2 3 false) = 46%Z.
Proof. reflexivity. Qed.

(** The six optional fields other than [userInteractionOccurred] are
    skipped when absent: leaving one out gives the sub-scores, the
    combined score and the threat vectors of the reading that scores
    nothing; and leaving any field out never raises the confidence,
    which counts an absent field as missing. *)
Lemma sibling_fields_are_neutral (f : OptionalField) (m : AnomalyMetrics) :
  (f <> UserInteractionOccurred ->
   assessment (analyzeContext (omit f m))
   = assessment (analyzeContext (benign f m)))
  /\ (confidence (analyzeContext (omit f m))
      <= confidence (analyzeContext m))%Z.
Proof.
  split.
  - intros Hf. destruct m as [rc rep ex uf ob dfc cad ifv uio tod da].
    destruct f; try congruence; unfold assessment; repeat f_equal.
  - destruct m as [rc rep ex uf ob dfc cad ifv uio tod da].
    destruct f, uf, dfc, cad, ifv, uio, tod, da; vm_compute; congruence.
Qed.

(** C1, the code against the claim: the three tests of
    [!metrics.userInteractionOccurred] take an absent field for
    [false].  With [userInteractionOccurred] absent, eleven requests on
    a first visit earn the no-interaction bonus of 30 where the claim
    says none, the tag BACKGROUND_BEACON where the claim says it is not
    tagged, and the first-visit multiplier of 1.25 where the claim says
    its conjunct is not satisfied; the assessment differs from that of
    the reading in which the absent field scores nothing. *)
Lemma absent_interaction_is_scored :
  userInteractionOccurred firstVisitBurst = None
  /\ calculateTemporalScore firstVisitBurst == 30
  /\ calculateTemporalScore (benign UserInteractionOccurred firstVisitBurst)
     == 0
  /\ In "BACKGROUND_BEACON"%string
       (threatVector (analyzeContext firstVisitBurst))
  /\ pattern2 firstVisitBurst = true
  /\ combinedScore (analyzeContext firstVisitBurst)
     == 1.25 * weightedSum (calculateBehavioralScore firstVisitBurst)
                 (calculateTemporalScore firstVisitBurst)
                 (calculateStructuralScore firstVisitBurst)
  /\ assessment (analyzeContext (omit UserInteractionOccurred firstVisitBurst))
     <> assessment
          (analyzeContext (benign UserInteractionOccurred firstVisitBurst)).
Proof.
  repeat split; try reflexivity.
  - cbn. auto.
  - vm_compute. discriminate.
Qed.

End ScoringClaims.

(** *** The flush under the multi-dimensional scorer *)

Section WeightedFlush.
Import Js Scoring Samples.

(** Were [getRiskLevel] the multi-dimensional one, the placeholder
    snapshot of the flush would still be LOW for every byte count: its
    combined score is at most 0.40 * 37.5 = 15. *)
Lemma placeholder_level_weighted (bytes : Q) :
  getRiskLevel (bare 0 5 bytes false) = "LOW"%string.
Proof.
  unfold getRiskLevel, analyzeContext, setThreatVector, combinedScore,
    calculateBehavioralScore, pattern1, pattern2, pattern3, pattern4.
  cbn [bare requestCount domainRepScore dataExfilSize uploadFrequency
       obfuscationDetected isFirstVisit cookieAccessDetected
       userInteractionOccurred andb truthyBool truthyNum].
  destruct (gt (bytes / (1024 * 1024)) 10);
    [ | destruct (gt (bytes / (1024 * 1024)) 5);
        [ | destruct (gt (bytes / (1024 * 1024)) 1) ] ];
    reflexivity.
Qed.

Lemma pushIf_keeps (c : bool) (tag x : string) (vectors : list string) :
  In x vectors -> In x (pushIf c tag vectors).
Proof.
  intros H. unfold pushIf. destruct c; [ | exact H ].
  apply in_or_app. now left.
Qed.

Lemma pushIf_adds (tag : string) (vectors : list string) :
  In tag (pushIf true tag vectors).
Proof. apply in_or_app. right. now left. Qed.

(** With [userInteractionOccurred] absent, BACKGROUND_BEACON is tagged as
    soon as there are more than ten requests. *)
Lemma beacon_without_interaction_field (m : AnomalyMetrics) :
  userInteractionOccurred m = None ->
  10 < requestCount m ->
  In "BACKGROUND_BEACON"%string (threatVector (analyzeContext m)).
Proof.
  intros Hu Hr. apply gt_true in Hr.
  cbn [analyzeContext setThreatVector threatVector].
  unfold identifyThreatVectors. rewrite Hu, Hr. cbn [truthyBool negb andb].
  do 2 apply pushIf_keeps. apply pushIf_adds.
Qed.

End WeightedFlush.

(** ** The tag-rewrite patterns and the listener *)

Section PatternFacts.
Import NetworkMonitor Samples.
Open Scope string_scope.

Lemma append_assoc (a b c : string) : (a ++ b) ++ c = a ++ (b ++ c).
Proof. induction a as [ | x a IH ]; cbn; [ reflexivity | now rewrite IH ]. Qed.

(** [matchLiteral] splits [s] into a text that equals the literal up to
    letter case, and the rest. *)
Lemma matchLiteral_sound (lit s key rest : string) :
  matchLiteral lit s = Some (key, rest) ->
  s = key ++ rest /\ toLowerCase key = toLowerCase lit.
Proof.
  revert s key rest.
  induction lit as [ | a lit IH ]; intros s key rest H; cbn in H.
  - inversion H; subst. split; reflexivity.
  - destruct s as [ | b s ]; [ discriminate | ].
    destruct (eqCI a b) eqn:E; [ | discriminate ].
    destruct (matchLiteral lit s) as [[m r] | ] eqn:Em; [ | discriminate ].
    inversion H; subst. destruct (IH _ _ _ Em) as [-> Hk].
    split; [ reflexivity | ]. cbn. rewrite Hk. f_equal.
    unfold eqCI in E. apply Ascii.eqb_eq in E. now symmetry.
Qed.

(** [takeValue] is the longest prefix without [&]. *)
Lemma takeValue_sound (s : string) :
  exists post,
    s = takeValue s ++ post
    /\ (forall c, In c (list_ascii_of_string (takeValue s)) -> c <> "&"%char)
    /\ (post = "" \/ exists post', post = String "&" post').
Proof.
  induction s as [ | c s (post & Hs & Hfree & Hpost) ]; cbn.
  - exists "". split; [ reflexivity | split; [ intros c [] | now left ] ].
  - destruct (Ascii.eqb_spec c "&"%char) as [-> | Hc].
    + exists (String "&" s).
      split; [ reflexivity | split; [ intros c [] | right; eauto ] ].
    + exists post. cbn. split; [ now rewrite <- Hs | split; [ | exact Hpost ] ].
      intros d [<- | Hd]; auto.
Qed.

(** What a match is: [?] or [&], the parameter name in any letter case,
    [=], then the value, which is not empty, holds no [&], and runs up
    to the next [&] or to the end of the text. *)
Lemma regexMatch_sound (name s whole v : string) :
  regexMatch name s = Some (whole, v) ->
  exists pre c key post,
    s = pre ++ whole ++ post
    /\ whole = String c (key ++ v)
    /\ (c = "?"%char \/ c = "&"%char)
    /\ toLowerCase key = toLowerCase (name ++ "=")
    /\ v <> ""
    /\ (forall d, In d (list_ascii_of_string v) -> d <> "&"%char)
    /\ (post = "" \/ exists post', post = String "&" post').
Proof.
  induction s as [ | c s IH ]; cbn [regexMatch].
  - cbn. discriminate.
  - destruct (matchHere name (String c s)) as [[w u] | ] eqn:E.
    + intros H. inversion H; subst w u. clear IH H.
      cbn in E.
      destruct (Ascii.eqb c "?" || Ascii.eqb c "&")%bool eqn:Ec;
        [ | discriminate ].
      destruct (matchLiteral (name ++ "=") s) as [[key rest] | ] eqn:Em;
        [ | discriminate ].
      destruct (matchLiteral_sound _ _ _ _ Em) as [-> Hkey].
      destruct (takeValue_sound rest) as (post & Hrest & Hfree & Hpost).
      destruct (takeValue rest) as [ | d val ] eqn:Ev; [ discriminate | ].
      inversion E; subst whole v.
      exists "", c, key, post. cbn [append].
      split; [ now rewrite append_assoc, <- Hrest | ].
      split; [ reflexivity | ].
      split.
      { apply Bool.orb_true_iff in Ec.
        destruct Ec as [Ec | Ec]; apply Ascii.eqb_eq in Ec; auto. }
      split; [ exact Hkey | ].
      split; [ discriminate | ].
      split; [ exact Hfree | exact Hpost ].
    + intros H. destruct (IH H)
        as (pre & c' & key & post & -> & Hw & Hc & Hk & Hv & Hfree & Hpost).
      exists (String c pre), c', key, post.
      split; [ reflexivity | ].
      split; [ exact Hw | ].
      split; [ exact Hc | ].
      split; [ exact Hk | ].
      split; [ exact Hv | ].
      split; [ exact Hfree | exact Hpost ].
Qed.

Section ListenerFacts.

Variable urlHostname : string -> option string.
Variable parseInt : string -> option Z.

(** Requests of the extension itself and requests whose URL does not
    parse are let through untouched; the others go through [observe]. *)
Lemma listener_cases (sev : string) (details : RequestDetails) (st : State) :
  let run := onBeforeSendHeaders urlHostname parseInt sev details st in
  (prefix "chrome-extension://" (reqUrl details) = true -> run = st)
  /\ (urlHostname (reqUrl details) = None -> run = st)
  /\ (forall destinationHost,
        prefix "chrome-extension://" (reqUrl details) = false ->
        urlHostname (reqUrl details) = Some destinationHost ->
        exists uploadedBytes,
          run = observe sev destinationHost uploadedBytes (reqUrl details) st).
Proof.
  unfold onBeforeSendHeaders. cbv zeta. repeat split.
  - now intros ->.
  - intros ->. now destruct (prefix _ _).
  - intros h -> ->. eauto.
Qed.

End ListenerFacts.

End PatternFacts.

(** ** The traffic window *)

Section NetworkMonitorFacts.
Import NetworkMonitor Samples.
Open Scope string_scope.
Open Scope list_scope.

Lemma checkPatterns_window sev patterns requestUrl destinationHost st :
  hostUploadBytes
    (checkPatterns sev patterns requestUrl destinationHost st)
  = hostUploadBytes st.
Proof.
  induction patterns as [ | p ps IH ]; cbn; [ reflexivity | ].
  destruct (regexMatch p requestUrl); [ reflexivity | exact IH ].
Qed.

(** The loop logs for the first pattern that matches, and for no
    other. *)
Lemma checkPatterns_first patterns requestUrl :
  (exists p, In p patterns /\ regexMatch p requestUrl <> None) ->
  exists before p after m,
    patterns = before ++ p :: after
    /\ Forall (fun q => regexMatch q requestUrl = None) before
    /\ regexMatch p requestUrl = Some m
    /\ forall sev destinationHost st,
         logs (checkPatterns sev patterns requestUrl destinationHost st)
         = logs st ++ [anomalyEntry sev requestUrl destinationHost m].
Proof.
  induction patterns as [ | q qs IH ]; intros (p & Hin & Hm).
  - destruct Hin.
  - destruct (regexMatch q requestUrl) as [m | ] eqn:E.
    + exists [], q, qs, m. repeat split; auto.
      intros. cbn [checkPatterns]. now rewrite E.
    + destruct Hin as [-> | Hin]; [ congruence | ].
      destruct IH as (before & p' & after & m & -> & Hb & Hp & Hl);
        [ now exists p | ].
      exists (q :: before), p', after, m. repeat split; auto.
      intros. cbn [checkPatterns]. rewrite E. apply Hl.
Qed.

Lemma checkPatterns_none sev patterns requestUrl destinationHost st :
  Forall (fun q => regexMatch q requestUrl = None) patterns ->
  checkPatterns sev patterns requestUrl destinationHost st = st.
Proof.
  induction 1 as [ | q qs Hq _ IH ]; cbn; [ reflexivity | ].
  now rewrite Hq.
Qed.

(** The byte counter and the tag check do not touch each other's
    part of the state. *)
Lemma observe_window sev destinationHost uploadedBytes requestUrl st :
  hostUploadBytes (observe sev destinationHost uploadedBytes requestUrl st)
  = if (uploadedBytes >? 0)%Z then
      mapSet (hostUploadBytes st) destinationHost
        (match mapGet (hostUploadBytes st) destinationHost with
         | Some b => if (b =? 0)%Z then 0 else b
         | None => 0
         end + uploadedBytes)%Z
    else hostUploadBytes st.
Proof.
  unfold observe. rewrite checkPatterns_window.
  now destruct (uploadedBytes >? 0)%Z.
Qed.

Lemma observe_logs sev destinationHost uploadedBytes requestUrl st :
  logs (observe sev destinationHost uploadedBytes requestUrl st)
  = logs (checkPatterns sev AFFILIATE_PATTERNS requestUrl destinationHost
            (emptyWindow (logs st))).
Proof.
  unfold observe. generalize AFFILIATE_PATTERNS. intros patterns.
  destruct (uploadedBytes >? 0)%Z;
    induction patterns as [ | p ps IH ]; cbn; try reflexivity;
    destruct (regexMatch p requestUrl); auto.
Qed.

End NetworkMonitorFacts.

(** *** Tag rewrites *)

Section TagRewriteClaims.
Import NetworkMonitor Samples.
Open Scope string_scope.
Open Scope list_scope.

(** C7: a request whose URL matches one of the tag-rewrite patterns is
    logged by [observe] itself, once, as a [network_anomaly] of high
    severity; the finding is that of the first pattern of the list that
    matches and carries the value of the parameter, that is the text
    after [name=] up to the next [&] or the end of the URL;
    [https://x.example/?tag=abc123] carries [abc123]. *)
Theorem tag_rewrite_logged_at_once
    (destinationHost requestUrl : string) (uploadedBytes : Z) (st : State) :
  ((exists p, In p AFFILIATE_PATTERNS /\ regexMatch p requestUrl <> None) ->
   exists before p after m finding,
     AFFILIATE_PATTERNS = before ++ p :: after
     /\ Forall (fun q => regexMatch q requestUrl = None) before
     /\ regexMatch p requestUrl = Some m
     /\ (exists pre c key post,
           requestUrl = (pre ++ String c (key ++ snd m) ++ post)%string
           /\ (c = "?"%char \/ c = "&"%char)
           /\ toLowerCase key = toLowerCase (p ++ "=")
           /\ snd m <> ""
           /\ (forall d, In d (list_ascii_of_string (snd m)) ->
                         d <> "&"%char)
           /\ (post = "" \/ exists post', post = String "&" post'))
     /\ type finding = "network_anomaly"
     /\ severity finding = "high"
     /\ url finding = Some requestUrl
     /\ rewritten_value finding = Some (snd m)
     /\ logs (Threshold.observe destinationHost uploadedBytes requestUrl st)
        = logs st ++ [finding])
  /\ map rewritten_value
       (logs (Threshold.observe destinationHost uploadedBytes taggedUrl
                (emptyWindow [])))
     = [Some "abc123"].
Proof.
  split.
  - intros H.
    destruct (checkPatterns_first AFFILIATE_PATTERNS requestUrl H)
      as (before & p & after & [whole v] & Hs & Hb & Hp & Hl).
    exists before, p, after, (whole, v),
      (anomalyEntry "high" requestUrl destinationHost (whole, v)).
    split; [ exact Hs | ].
    split; [ exact Hb | ].
    split; [ exact Hp | ].
    split.
    { destruct (regexMatch_sound _ _ _ _ Hp)
        as (pre & c & key & post & Hu & Hw & Hc & Hk & Hv & Hfree & Hpost).
      exists pre, c, key, post. cbn [snd]. rewrite Hu, Hw. auto 10. }
    repeat split.
    unfold Threshold.observe. rewrite observe_logs, Hl. reflexivity.
  - unfold Threshold.observe. rewrite observe_logs. reflexivity.
Qed.

Lemma tag_rewrite_logged_at_once_witness :
  (exists p, In p AFFILIATE_PATTERNS /\ regexMatch p taggedUrl <> None)
  /\ exists finding,
       rewritten_value finding = Some "abc123"
       /\ logs (Threshold.observe "x.example" 0 taggedUrl (emptyWindow []))
          = [finding].
Proof.
  assert (H : exists p,
             In p AFFILIATE_PATTERNS /\ regexMatch p taggedUrl <> None).
  { exists "tag". split; [ cbn; auto | vm_compute; discriminate ]. }
  split; [ exact H | ].
  destruct (proj1 (tag_rewrite_logged_at_once "x.example" taggedUrl 0
                     (emptyWindow [])) H)
    as (before & p & after & m & finding & _ & _ & Hp & _ & _ & _ & _ & Hv & Hl).
  exists finding. split; [ | exact Hl ].
  pose proof Hl as Hc. vm_compute in Hc.
  inversion Hc as [Hf]. reflexivity.
Defined.

(** The TypeScript file logs the same finding with severity ['HIGH']. *)
Lemma tag_rewrite_scored
    (destinationHost requestUrl : string) (uploadedBytes : Z) (st : State) :
  (exists p, In p AFFILIATE_PATTERNS /\ regexMatch p requestUrl <> None) ->
  exists before p after m,
    AFFILIATE_PATTERNS = before ++ p :: after
    /\ Forall (fun q => regexMatch q requestUrl = None) before
    /\ regexMatch p requestUrl = Some m
    /\ logs (Scored.observe destinationHost uploadedBytes requestUrl st)
       = logs st ++ [anomalyEntry "HIGH" requestUrl destinationHost m].
Proof.
  intros H.
  destruct (checkPatterns_first AFFILIATE_PATTERNS requestUrl H)
    as (before & p & after & m & Hs & Hb & Hp & Hl).
  exists before, p, after, m. repeat split; auto.
  unfold Scored.observe. rewrite observe_logs, Hl. reflexivity.
Qed.

End TagRewriteClaims.

(** *** The flush *)

Section FlushFacts.
Import NetworkMonitor Samples.
Open Scope string_scope.
Open Scope list_scope.

Lemma fold_logHost_logs (logHost : State -> string * Z -> State)
    (entryOf : string * Z -> LogEntry) :
  (forall st e, logHost st e = saveLog (entryOf e) st) ->
  forall window st,
    logs (fold_left logHost window st) = logs st ++ map entryOf window.
Proof.
  intros Hstep window.
  induction window as [ | e es IH ]; intros st; cbn [fold_left map].
  - now rewrite app_nil_r.
  - rewrite IH, Hstep. cbn [saveLog logs]. now rewrite <- app_assoc.
Qed.

Lemma threshold_flush_logs (st : State) :
  logs (Threshold.logAndResetUploadBytes st)
  = logs st ++ map Threshold.thresholdEntry (hostUploadBytes st).
Proof.
  unfold Threshold.logAndResetUploadBytes.
  destruct (hostUploadBytes st) as [ | e es ] eqn:E.
  - cbn. now rewrite app_nil_r.
  - cbn [List.length Nat.eqb logs]. rewrite <- E.
    apply fold_logHost_logs. now intros s [h b].
Qed.

Lemma scored_flush_logs (st : State) :
  logs (Scored.logAndResetUploadBytes st)
  = logs st
    ++ map (fun e => statisticEntry "LOW" (fst e) (snd e))
         (hostUploadBytes st).
Proof.
  unfold Scored.logAndResetUploadBytes.
  destruct (hostUploadBytes st) as [ | e es ] eqn:E.
  - cbn. now rewrite app_nil_r.
  - cbn [List.length Nat.eqb logs]. rewrite <- E.
    apply fold_logHost_logs. intros s [h b]. unfold Scored.logHost.
    now rewrite placeholder_level.
Qed.

Lemma flush_empties (st : State) :
  hostUploadBytes (Threshold.logAndResetUploadBytes st) = []
  /\ hostUploadBytes (Scored.logAndResetUploadBytes st) = [].
Proof.
  unfold Threshold.logAndResetUploadBytes, Scored.logAndResetUploadBytes.
  destruct (hostUploadBytes st) eqn:E; cbn; auto.
Qed.

(** Two requests to one host in a fresh window add up. *)
Lemma two_uploads_window sev (hostA u1 u2 : string) logged :
  hostUploadBytes
    (observe sev hostA 2000 u2 (observe sev hostA 1000 u1 (emptyWindow logged)))
  = [(hostA, 3000%Z)].
Proof.
  rewrite observe_window. cbn [Z.gtb Z.compare Pos.compare Pos.compare_cont].
  rewrite observe_window. cbn. now rewrite String.eqb_refl.
Qed.

(** C6: a flush of an empty window changes nothing and logs nothing;
    after two requests to one host carrying 1000 and 2000 bytes in a
    fresh window, the flush logs exactly one statistic record, for that
    host, with [bytes_uploaded = 3000], and leaves the window empty. *)
Theorem flush_window (hostA u1 u2 : string) (logged : list LogEntry) :
  Threshold.logAndResetUploadBytes (emptyWindow logged) = emptyWindow logged
  /\ let st :=
       Threshold.observe hostA 2000 u2
         (Threshold.observe hostA 1000 u1 (emptyWindow logged)) in
     exists record,
       logs (Threshold.logAndResetUploadBytes st) = logs st ++ [record]
       /\ type record = "network_statistic_upload"
       /\ host record = Some hostA
       /\ bytes_uploaded record = Some 3000%Z
       /\ hostUploadBytes (Threshold.logAndResetUploadBytes st) = [].
Proof.
  split; [ reflexivity | ].
  cbv zeta. exists (Threshold.thresholdEntry (hostA, 3000%Z)).
  rewrite threshold_flush_logs. unfold Threshold.observe.
  rewrite two_uploads_window.
  repeat split. apply flush_empties.
Qed.

(** The same holds of the TypeScript flush. *)
Lemma scored_flush_adds_up (hostA u1 u2 : string) (logged : list LogEntry) :
  Scored.logAndResetUploadBytes (emptyWindow logged) = emptyWindow logged
  /\ let st :=
       Scored.observe hostA 2000 u2
         (Scored.observe hostA 1000 u1 (emptyWindow logged)) in
     logs (Scored.logAndResetUploadBytes st)
     = logs st ++ [statisticEntry "LOW" hostA 3000]
     /\ hostUploadBytes (Scored.logAndResetUploadBytes st) = [].
Proof.
  split; [ reflexivity | ].
  cbv zeta. rewrite scored_flush_logs. unfold Scored.observe.
  rewrite two_uploads_window. split; [ reflexivity | apply flush_empties ].
Qed.

(** C10: the flush of network-monitor.ts scores the snapshot
    [{requestCount: 0, domainRepScore: 5, obfuscationDetected: false,
    dataExfilSize: bytes}] with the three-input [getRiskLevel]; its final
    score is 50 for every byte count, which is not above 50, so every
    record the flush logs has severity ['LOW']. *)
Theorem scored_flush_always_low (st : State) :
  (forall bytes : Z,
     SimpleScoring.finalScore
       {| SimpleScoring.requestCount := 0;
          SimpleScoring.domainRepScore := 5;
          SimpleScoring.obfuscationDetected := false;
          SimpleScoring.dataExfilSize := Some (inject_Z bytes) |} == 50
     /\ SimpleScoring.getRiskLevel
          {| SimpleScoring.requestCount := 0;
             SimpleScoring.domainRepScore := 5;
             SimpleScoring.obfuscationDetected := false;
             SimpleScoring.dataExfilSize := Some (inject_Z bytes) |} = "LOW")
  /\ exists records,
       logs (Scored.logAndResetUploadBytes st) = logs st ++ records
       /\ map (fun r => (host r, bytes_uploaded r)) records
          = map (fun e => (Some (fst e), Some (snd e))) (hostUploadBytes st)
       /\ Forall
            (fun r => type r = "network_statistic_upload"
                      /\ severity r = "LOW")
            records.
Proof.
  split.
  - intros bytes. split; reflexivity.
  - exists (map (fun e => statisticEntry "LOW" (fst e) (snd e))
              (hostUploadBytes st)).
    split; [ apply scored_flush_logs | split ].
    + now rewrite map_map.
    + apply Forall_forall. intros r Hr. apply in_map_iff in Hr.
      destruct Hr as (e & <- & _). split; reflexivity.
Qed.

End FlushFacts.

(** ** The script analyser *)

Section AnalyzerFacts.
Import ScriptAnalyzer.
Open Scope string_scope.
Open Scope list_scope.

(** Induction on a tree, the hypothesis holding for every child. *)
Lemma value_tree_ind (P : value -> Prop) :
  (forall v, isObject v = false -> P v) ->
  (forall items, Forall P items -> P (VArr items)) ->
  (forall props, Forall (fun kv => P (snd kv)) props -> P (VObj props)) ->
  forall v, P v.
Proof.
  intros Hleaf Harr Hobj. fix IH 1.
  intros [ | | b | n | s | items | props ]; try (apply Hleaf; reflexivity).
  - apply Harr. induction items as [ | x xs IHxs ]; constructor.
    + apply IH.
    + exact IHxs.
  - apply Hobj. induction props as [ | [k x] xs IHxs ]; constructor.
    + apply IH.
    + exact IHxs.
Qed.

(** *** States only move forward *)

Lemma extends_refl (st : State) : extends st st.
Proof. split; [ auto | exists []; now rewrite app_nil_r ]. Qed.

Lemma extends_trans (a b c : State) :
  extends a b -> extends b c -> extends a c.
Proof.
  intros [Hf (l & Hl)] [Hf' (l' & Hl')]. split; [ auto | ].
  exists (l ++ l'). now rewrite Hl', Hl, app_assoc.
Qed.

Lemma extends_flag (a b : State) :
  extends a b -> isSuspicious a = true -> isSuspicious b = true.
Proof. now intros [H _]. Qed.

Lemma extends_In (a b : State) (e : LogEntry) :
  extends a b -> In e (logs a) -> In e (logs b).
Proof. intros [_ (l & ->)] H. apply in_or_app. now left. Qed.

Lemma grows_run {A : Type} (m : M A) st r st' :
  grows m -> m st = (r, st') -> extends st st'.
Proof. intros H. apply H. Qed.

Lemma grows_ret {A : Type} (a : A) : grows (ret a).
Proof. intros st r st' H. inversion H. apply extends_refl. Qed.

Lemma grows_throw {A : Type} (e : Error) : grows (@throw A e).
Proof. intros st r st' H. inversion H. apply extends_refl. Qed.

Lemma grows_bind {A B : Type} (m : M A) (k : A -> M B) :
  grows m -> (forall a, grows (k a)) -> grows (bind m k).
Proof.
  intros Hm Hk st r st' H. unfold bind in H.
  destruct (m st) as [[a | e] s1] eqn:E.
  - eapply extends_trans; [ eapply grows_run, E | eapply grows_run, H ]; auto.
  - inversion H; subst. eapply grows_run, E. auto.
Qed.

Lemma grows_saveLog (entry : LogEntry) : grows (saveLog entry).
Proof.
  intros st r st' H. inversion H. split; cbn; [ auto | now exists [entry] ].
Qed.

Lemma grows_markSuspicious : grows markSuspicious.
Proof.
  intros st r st' H. inversion H. split; cbn; [ auto | ].
  exists []. now rewrite app_nil_r.
Qed.

Lemma grows_getProp (v : value) (k : string) : grows (getProp v k).
Proof. destruct v; cbn; first [ apply grows_ret | apply grows_throw ]. Qed.

Lemma grows_forEach {A : Type} (f : A -> M unit) (l : list A) :
  Forall (fun x => grows (f x)) l -> grows (forEach f l).
Proof.
  induction 1 as [ | x xs Hx _ IH ]; cbn.
  - apply grows_ret.
  - apply grows_bind; auto.
Qed.

(** Breaks a computation down along its binds and branches. *)
Ltac grow :=
  repeat first
    [ apply grows_ret
    | apply grows_saveLog
    | apply grows_markSuspicious
    | apply grows_getProp
    | apply grows_bind; [ | intros ? ]
    | match goal with
      | |- grows (if ?c then _ else _) => destruct c
      | |- grows (match ?o with Some _ => _ | None => _ end) => destruct o
      end ].

Lemma js_checkNode_grows (scriptId : string) (node : value) :
  grows (JsFile.checkNode scriptId node).
Proof. unfold JsFile.checkNode, JsFile.logAnomaly. grow. Qed.

Lemma ts_checkNode_grows (scriptId : string) (node : value) :
  grows (TsFile.checkNode scriptId node).
Proof. unfold TsFile.checkNode, TsFile.logAnomaly. grow. Qed.

(** *** Inversion of a run that returned *)

Lemma bind_Ok {A B : Type} (m : M A) (k : A -> M B) st b st' :
  bind m k st = (Ok b, st') ->
  exists a s1, m st = (Ok a, s1) /\ k a s1 = (Ok b, st').
Proof.
  unfold bind. destruct (m st) as [[a | e] s1]; intros H.
  - now exists a, s1.
  - discriminate.
Qed.

Lemma forEach_In_Ok {A : Type} (f : A -> M unit) :
  (forall x, grows (f x)) ->
  forall l st st', forEach f l st = (Ok tt, st') ->
  forall x, In x l ->
  exists s1 s2, extends st s1 /\ f x s1 = (Ok tt, s2) /\ extends s2 st'.
Proof.
  intros Hf l. induction l as [ | y ys IH ]; intros st st' H x Hin.
  - destruct Hin.
  - cbn in H. apply bind_Ok in H. destruct H as ([] & s1 & Hy & Hrest).
    destruct Hin as [-> | Hin].
    + exists st, s1. split; [ apply extends_refl | split; [ exact Hy | ] ].
      eapply grows_run, Hrest. apply grows_forEach, Forall_forall. auto.
    + destruct (IH _ _ Hrest _ Hin) as (a & b & Ha & Hx & Hb).
      exists a, b. split; [ | split; [ exact Hx | exact Hb ] ].
      eapply extends_trans; [ eapply grows_run, Hy; auto | exact Ha ].
Qed.

Lemma returns_ret {A : Type} (a : A) : returns (ret a).
Proof. intros st. now exists a, st. Qed.

Lemma returns_bind {A B : Type} (m : M A) (k : A -> M B) :
  returns m -> (forall a, returns (k a)) -> returns (bind m k).
Proof.
  intros Hm Hk st. unfold bind. destruct (Hm st) as (a & s1 & ->). apply Hk.
Qed.

Lemma returns_saveLog (entry : LogEntry) : returns (saveLog entry).
Proof. intros st. unfold saveLog. eauto. Qed.

Lemma returns_markSuspicious : returns markSuspicious.
Proof. intros st. unfold markSuspicious. eauto. Qed.

Lemma getProp_field (v : value) (k : string) :
  nullish v = false -> getProp v k = ret (field v k).
Proof. destruct v; try discriminate; reflexivity. Qed.

Lemma truthy_not_nullish (v : value) : truthy v = true -> nullish v = false.
Proof. destruct v; try discriminate; reflexivity. Qed.

Lemma forEach_returns {A : Type} (f : A -> M unit) (l : list A) :
  Forall (fun x => returns (f x)) l -> returns (forEach f l).
Proof.
  induction 1 as [ | x xs Hx _ IH ]; cbn.
  - apply returns_ret.
  - apply returns_bind; auto.
Qed.

Lemma returns_unit (m : M unit) st :
  returns m -> exists st', m st = (Ok tt, st').
Proof. intros H. destruct (H st) as ([] & st' & E). now exists st'. Qed.

(** Breaks a computation that cannot throw down along its binds and
    branches. *)
Ltac settle :=
  repeat first
    [ apply returns_ret
    | apply returns_saveLog
    | apply returns_markSuspicious
    | apply returns_bind; [ | intros ? ]
    | match goal with
      | |- returns (if ?c then _ else _) => destruct c
      | |- returns (match ?o with Some _ => _ | None => _ end) => destruct o
      end ].

(** *** The traversal, whatever the rules *)

Section Traversal.

Variable checkNode : value -> M unit.
Variable enters : value -> bool.
Hypothesis checkNode_grows : forall n, grows (checkNode n).

Local Notation "'walk'" := (traverse checkNode enters).
Local Notation "'child_step'" := (visitChild checkNode enters).

Lemma walk_array (elems : list value) :
  walk (VArr elems)
  = bind (checkNode (VArr elems)) (fun _ => forEach child_step elems).
Proof. reflexivity. Qed.

Lemma walk_object (props : list (string * value)) :
  walk (VObj props)
  = bind (checkNode (VObj props))
      (fun _ =>
         forEach (fun kv => match kv with (_, child) => child_step child end)
           props).
Proof. reflexivity. Qed.

Lemma walk_leaf (v : value) : isObject v = false -> walk v = ret tt.
Proof. destruct v; try discriminate; reflexivity. Qed.

(** A property of [traverse v] proved by induction on [v] has to say
    something of the items of [v] too, for the loops walk the items of
    an array child themselves. *)
Lemma walk_ind (ok : value -> bool) (P : M unit -> Prop) :
  P (ret tt) ->
  (forall n k, ok n = true -> P k -> P (bind (checkNode n) (fun _ => k))) ->
  (forall (A : Type) (f : A -> M unit) l,
     Forall (fun x => P (f x)) l -> P (forEach f l)) ->
  forall v, allNodes ok v = true -> P (walk v).
Proof.
  intros Hret Hbind Hloop.
  assert (Hchild : forall v,
             P (walk v)
             /\ match v with
                | VArr items => Forall (fun x => P (walk x)) items
                | _ => True
                end -> P (child_step v)).
  { intros v [Hv Hitems]. unfold visitChild.
    destruct v; try (destruct (enters _); assumption).
    now apply Hloop. }
  assert (Hall : forall v,
             allNodes ok v = true ->
             P (walk v)
             /\ match v with
                | VArr items => Forall (fun x => P (walk x)) items
                | _ => True
                end).
  { induction v as [ v Hv | items IH | props IH ] using value_tree_ind;
      intros Hok.
    - rewrite (walk_leaf _ Hv). split; [ exact Hret | ].
      destruct v; try exact I. discriminate.
    - cbn in Hok. apply andb_prop in Hok. destruct Hok as [Hn Hitems].
      rewrite forallb_forall in Hitems. rewrite Forall_forall in IH.
      split.
      + rewrite walk_array. apply Hbind, Hloop; [ exact Hn | ].
        apply Forall_forall. intros x Hx. apply Hchild. auto.
      + apply Forall_forall. intros x Hx. now apply IH; auto.
    - cbn in Hok. apply andb_prop in Hok. destruct Hok as [Hn Hprops].
      rewrite forallb_forall in Hprops. rewrite Forall_forall in IH.
      split; [ | exact I ].
      rewrite walk_object. apply Hbind, Hloop; [ exact Hn | ].
      apply Forall_forall. intros [k x] Hx. apply Hchild.
      apply (IH _ Hx). apply (Hprops _ Hx). }
  intros v Hv. now apply Hall.
Qed.

Lemma allNodes_trivial (v : value) : allNodes (fun _ => true) v = true.
Proof.
  induction v as [ v Hv | items IH | props IH ] using value_tree_ind.
  - destruct v; try discriminate; reflexivity.
  - cbn. apply forallb_forall. now apply Forall_forall.
  - cbn. apply forallb_forall. intros [k x] Hx.
    rewrite Forall_forall in IH. apply (IH _ Hx).
Qed.

Lemma traverse_returns (ok : value -> bool) (v : value) :
  (forall n, ok n = true -> returns (checkNode n)) ->
  allNodes ok v = true -> returns (walk v).
Proof.
  intros Hok. apply walk_ind.
  - apply returns_ret.
  - intros n k Hn Hk. apply returns_bind; auto.
  - intros A f l. apply forEach_returns.
Qed.

Lemma traverse_grows (v : value) : grows (walk v).
Proof.
  apply (walk_ind (fun _ => true)).
  - apply grows_ret.
  - intros n k _ Hk. apply grows_bind; auto.
  - intros A f l. apply grows_forEach.
  - apply allNodes_trivial.
Qed.

Lemma child_step_grows (child : value) : grows (child_step child).
Proof.
  unfold visitChild. destruct child;
    try (destruct (enters _); [ apply traverse_grows | apply grows_ret ]).
  apply grows_forEach, Forall_forall. intros. apply traverse_grows.
Qed.

(** If [traverse root] returns and reaches [n], the rules were applied
    to [n] and returned, at some point of the run. *)
Lemma traverse_visits (root n : value) :
  visits enters root n ->
  forall st st', walk root st = (Ok tt, st') ->
  exists s1 s2,
    extends st s1 /\ checkNode n s1 = (Ok tt, s2) /\ extends s2 st'.
Proof.
  induction 1 as
    [ n Hn
    | props k items x n Hin Hx _ IH
    | props k child n Hin Harr Hent _ IH
    | elems items x n Hin Hx _ IH
    | elems child n Hin Harr Hent _ IH ]; intros st st' Hrun.
  - destruct n; try discriminate.
    + rewrite walk_array in Hrun. apply bind_Ok in Hrun.
      destruct Hrun as ([] & s1 & Hc & Hrest). exists st, s1.
      split; [ apply extends_refl | split; [ exact Hc | ] ].
      eapply grows_run, Hrest. apply grows_forEach, Forall_forall.
      intros. apply child_step_grows.
    + rewrite walk_object in Hrun. apply bind_Ok in Hrun.
      destruct Hrun as ([] & s1 & Hc & Hrest). exists st, s1.
      split; [ apply extends_refl | split; [ exact Hc | ] ].
      eapply grows_run, Hrest. apply grows_forEach, Forall_forall.
      intros [k x] _. apply child_step_grows.
  - rewrite walk_object in Hrun. apply bind_Ok in Hrun.
    destruct Hrun as ([] & sa & Hc & Hrest).
    eapply forEach_In_Ok in Hrest; [ | | exact Hin ];
      [ | intros [k' c']; apply child_step_grows ].
    destruct Hrest as (s1 & s2 & E1 & Hstep & E2). cbn in Hstep.
    eapply forEach_In_Ok in Hstep; [ | apply traverse_grows | exact Hx ].
    destruct Hstep as (s3 & s4 & E3 & Hw & E4).
    destruct (IH _ _ Hw) as (t1 & t2 & F1 & Hn & F2).
    exists t1, t2. split; [ | split; [ exact Hn | ] ].
    + eapply extends_trans; [ eapply grows_run, Hc; auto | ].
      eauto using extends_trans.
    + eauto using extends_trans.
  - rewrite walk_object in Hrun. apply bind_Ok in Hrun.
    destruct Hrun as ([] & sa & Hc & Hrest).
    eapply forEach_In_Ok in Hrest; [ | | exact Hin ];
      [ | intros [k' c']; apply child_step_grows ].
    destruct Hrest as (s1 & s2 & E1 & Hstep & E2).
    assert (Hw : walk child s1 = (Ok tt, s2)).
    { unfold visitChild in Hstep. rewrite Hent in Hstep.
      destruct child; try discriminate; exact Hstep. }
    destruct (IH _ _ Hw) as (t1 & t2 & F1 & Hn & F2).
    exists t1, t2. split; [ | split; [ exact Hn | ] ].
    + eapply extends_trans; [ eapply grows_run, Hc; auto | ].
      eauto using extends_trans.
    + eauto using extends_trans.
  - rewrite walk_array in Hrun. apply bind_Ok in Hrun.
    destruct Hrun as ([] & sa & Hc & Hrest).
    eapply forEach_In_Ok in Hrest; [ | apply child_step_grows | exact Hin ].
    destruct Hrest as (s1 & s2 & E1 & Hstep & E2). cbn in Hstep.
    eapply forEach_In_Ok in Hstep; [ | apply traverse_grows | exact Hx ].
    destruct Hstep as (s3 & s4 & E3 & Hw & E4).
    destruct (IH _ _ Hw) as (t1 & t2 & F1 & Hn & F2).
    exists t1, t2. split; [ | split; [ exact Hn | ] ].
    + eapply extends_trans; [ eapply grows_run, Hc; auto | ].
      eauto using extends_trans.
    + eauto using extends_trans.
  - rewrite walk_array in Hrun. apply bind_Ok in Hrun.
    destruct Hrun as ([] & sa & Hc & Hrest).
    eapply forEach_In_Ok in Hrest; [ | apply child_step_grows | exact Hin ].
    destruct Hrest as (s1 & s2 & E1 & Hstep & E2).
    assert (Hw : walk child s1 = (Ok tt, s2)).
    { unfold visitChild in Hstep. rewrite Hent in Hstep.
      destruct child; try discriminate; exact Hstep. }
    destruct (IH _ _ Hw) as (t1 & t2 & F1 & Hn & F2).
    exists t1, t2. split; [ | split; [ exact Hn | ] ].
    + eapply extends_trans; [ eapply grows_run, Hc; auto | ].
      eauto using extends_trans.
    + eauto using extends_trans.
Qed.

End Traversal.

(** *** script-analyzer.js *)

(** With the property reads of the rules safe, the rules return. *)
Lemma js_checkNode_returns (scriptId : string) (node : value) :
  JsFile.safeNode node = true -> returns (JsFile.checkNode scriptId node).
Proof.
  unfold JsFile.safeNode, JsFile.checkNode, JsFile.logAnomaly.
  intros H.
  apply andb_prop in H. destruct H as [H Hleft].
  apply andb_prop in H. destruct H as [Hloc Hcallee].
  apply returns_bind.
  - destruct (truthy (field node "loc")) eqn:Eloc; [ | apply returns_ret ].
    rewrite getProp_field by now apply truthy_not_nullish.
    change (returns (getProp (field (field node "loc") "start") "line")).
    rewrite getProp_field by now apply negb_true_iff.
    apply returns_ret.
  - intros line. apply returns_bind; [ | intros _; apply returns_bind ].
    + destruct (strEq (field node "type") "CallExpression");
        [ | apply returns_ret ].
      rewrite getProp_field by now apply negb_true_iff.
      settle.
    + settle.
    + intros _.
      destruct (strEq (field node "type") "AssignmentExpression");
        [ | apply returns_ret ].
      rewrite getProp_field by now apply negb_true_iff.
      settle.
Qed.

Lemma ts_checkNode_returns (scriptId : string) (node : value) :
  returns (TsFile.checkNode scriptId node).
Proof. unfold TsFile.checkNode, TsFile.logAnomaly. settle. Qed.

(** *** A call of a deny-listed identifier *)

Lemma field_object (v : value) (k : string) :
  field v k <> VUndefined -> exists props, v = VObj props.
Proof. destruct v; cbn; try congruence. eauto. Qed.

Lemma includes_member (l : list string) (f : string) :
  In f l -> includes l (VStr f) = Some f.
Proof.
  intros H. cbn.
  replace (existsb (String.eqb f) l) with true; [ reflexivity | ].
  symmetry. apply existsb_exists. exists f. split; [ exact H | ].
  apply String.eqb_refl.
Qed.

Lemma call_shape (node : value) (f : string) (line : Z) :
  isDangerousCall node f line ->
  truthy (field node "loc") = true
  /\ nullish (field node "loc") = false
  /\ nullish (field (field node "loc") "start") = false
  /\ nullish (field node "callee") = false.
Proof.
  intros (Ht & Hct & Hcn & Hf & Hl).
  destruct (field_object (field (field node "loc") "start") "line")
    as (ps & Hs); [ congruence | ].
  destruct (field_object (field node "loc") "start") as (pl & Hloc);
    [ congruence | ].
  destruct (field_object (field node "callee") "type") as (pc & Hc);
    [ congruence | ].
  rewrite Hs, Hloc, Hc. repeat split.
Qed.

(** On such a node the rules of script-analyzer.js set the flag and log
    the call, and nothing else. *)
Lemma js_checkNode_call (scriptId : string) (node : value) (f : string)
    (line : Z) (st : State) :
  isDangerousCall node f line ->
  JsFile.checkNode scriptId node st
  = (Ok tt,
     {| isSuspicious := true;
        logs := logs st ++
                [anomalyEntry scriptId
                   ("High-risk structural anomaly found: Function call to '"
                    ++ f ++ "'")
                   (VNum line)] |}).
Proof.
  intros H. destruct (call_shape _ _ _ H) as (Hloc & Hnl & Hns & Hnc).
  destruct H as (Ht & Hct & Hcn & Hf & Hl).
  unfold JsFile.checkNode, JsFile.logAnomaly.
  rewrite Hloc, (getProp_field _ _ Hnl), (getProp_field _ _ Hnc), Ht.
  unfold bind at 1. unfold bind at 1. cbn [ret].
  rewrite (getProp_field _ _ Hns), Hl, Hct, Hcn, (includes_member _ _ Hf).
  reflexivity.
Qed.

Lemma ts_lineOf_call (node : value) (f : string) (line : Z) :
  isDangerousCall node f line -> TsFile.lineOf node = VNum line.
Proof.
  intros H. destruct (call_shape _ _ _ H) as (Hloc & Hnl & Hns & Hnc).
  destruct H as (Ht & Hct & Hcn & Hf & Hl).
  unfold TsFile.lineOf.
  assert (E : optField (optField (field node "loc") "start") "line"
              = VNum line).
  { destruct (field node "loc"); try discriminate. cbn [optField].
    destruct (field (VObj props) "start"); try discriminate. exact Hl. }
  rewrite E. cbn [truthy]. destruct (Z.eqb_spec line 0); subst; reflexivity.
Qed.

Lemma ts_checkNode_call (scriptId : string) (node : value) (f : string)
    (line : Z) (st : State) :
  isDangerousCall node f line ->
  TsFile.checkNode scriptId node st
  = (Ok tt,
     {| isSuspicious := true;
        logs := logs st ++
                [anomalyEntry scriptId
                   ("High-risk function: Function call to '" ++ f ++ "'")
                   (VNum line)] |}).
Proof.
  intros H. pose proof (ts_lineOf_call _ _ _ H) as Hline.
  destruct (call_shape _ _ _ H) as (Hloc & Hnl & Hns & Hnc).
  destruct H as (Ht & Hct & Hcn & Hf & Hl).
  unfold TsFile.checkNode, TsFile.logAnomaly.
  rewrite Hline, Ht.
  replace (optField (field node "callee") "type") with (VStr "Identifier")
    by (destruct (field node "callee"); try discriminate; now rewrite <- Hct).
  rewrite Hcn, (includes_member _ _ Hf).
  reflexivity.
Qed.

(** *** What the traversals reach *)

(** A value held by the tree is reached when every value on the way
    down to it that is not an array is one the loops enter. *)
Lemma contains_visits (enters : value -> bool) (x n : value) :
  contains x n -> isObject n = true -> isArray n = false ->
  (forall u, contains x u -> contains u n -> isArray u = false ->
             enters u = true) ->
  visits enters x n
  /\ (forall elems, In x elems -> visits enters (VArr elems) n)
  /\ (forall props k, In (k, x) props -> visits enters (VObj props) n).
Proof.
  induction 1 as [ n | props0 k0 child n Hin Hc IH | elems0 child n Hin Hc IH ];
    intros Ho Ha Hpath.
  - assert (He : enters n = true)
      by (apply Hpath; auto using contains_self).
    assert (Hv : visits enters n n) by now apply visits_self.
    split; [ exact Hv | split ].
    + intros elems Hx. eapply visits_elem_enter; eauto.
    + intros props k Hx. eapply visits_prop_enter; eauto.
  - destruct IH as (Hv & _ & Hobj); auto.
    { intros u Hu Hun. apply Hpath; [ | exact Hun ].
      eapply contains_prop; eauto. }
    assert (He : enters (VObj props0) = true).
    { apply Hpath; [ apply contains_self | | reflexivity ].
      eapply contains_prop; eauto. }
    pose proof (Hobj _ _ Hin) as Hx.
    split; [ exact Hx | split ].
    + intros elems Hel. eapply visits_elem_enter; eauto.
    + intros props k Hel. eapply visits_prop_enter; eauto.
  - destruct IH as (Hv & Harr & _); auto.
    { intros u Hu Hun. apply Hpath; [ | exact Hun ].
      eapply contains_elem; eauto. }
    split; [ now apply Harr | split ].
    + intros elems Hel. eapply visits_elem_items; eauto.
    + intros props k Hel. eapply visits_prop_items; eauto.
Qed.

Lemma allNodes_contains (ok : value -> bool) (v u : value) :
  allNodes ok v = true -> contains v u -> isObject u = true -> ok u = true.
Proof.
  intros Hall Hc. revert Hall.
  induction Hc as [ n | props k child n Hin _ IH | elems child n Hin _ IH ];
    intros Hall Ho.
  - destruct n; try discriminate; cbn in Hall;
      now apply andb_prop in Hall.
  - cbn in Hall. apply andb_prop in Hall. destruct Hall as [_ Hall].
    rewrite forallb_forall in Hall. apply IH; [ | exact Ho ].
    apply (Hall _ Hin).
  - cbn in Hall. apply andb_prop in Hall. destruct Hall as [_ Hall].
    rewrite forallb_forall in Hall. apply IH; [ | exact Ho ].
    apply (Hall _ Hin).
Qed.

Lemma holdsNode_contains (u n : value) :
  contains u n -> truthy (field n "type") = true ->
  TsFile.holdsNode u = true.
Proof.
  induction 1 as [ n | props k child n Hin _ IH | elems child n Hin _ IH ];
    intros Ht.
  - destruct n; try discriminate. cbn in *. now rewrite Ht.
  - cbn. apply orb_true_iff. right. apply existsb_exists.
    exists (k, child). auto.
  - cbn. apply existsb_exists. exists child. auto.
Qed.

(** In a tree whose nodes sit under nodes and arrays only, the
    TypeScript loops enter everything above a node. *)
Lemma ts_path_entered (ast n u : value) :
  TsFile.nodesUnderNodes ast = true ->
  truthy (field n "type") = true ->
  contains ast u -> contains u n -> isArray u = false ->
  TsFile.enters u = true.
Proof.
  intros Hast Hn Hu Hun Ha.
  assert (Ho : isObject u = true).
  { destruct Hun; [ | reflexivity | reflexivity ].
    destruct n; try discriminate; reflexivity. }
  pose proof (allNodes_contains _ _ _ Hast Hu Ho) as Hok. cbn beta in Hok.
  rewrite Ha, (holdsNode_contains _ _ Hun Hn) in Hok. cbn in Hok.
  unfold TsFile.enters. rewrite Ho. cbn.
  now rewrite orb_false_r in Hok.
Qed.

(** *** The verdict *)

Section Verdict.

Variable parseScript : string -> Error + value.

Lemma js_scan_parsed (scriptContent scriptId : string) (ast : value)
    (st' : State) :
  parseScript scriptContent = inr ast ->
  JsFile.traverse scriptId ast initialState = (Ok tt, st') ->
  JsFile.scanScriptForAnomalies parseScript scriptContent scriptId
  = (isSuspicious st', logs st').
Proof.
  intros Hp Ht. unfold JsFile.scanScriptForAnomalies, bind.
  now rewrite Hp, Ht.
Qed.

Lemma ts_scan_parsed (scriptContent scriptId : string) (ast : value)
    (st' : State) :
  parseScript scriptContent = inr ast ->
  TsFile.traverse scriptId ast initialState = (Ok tt, st') ->
  TsFile.scanScriptForAnomalies parseScript scriptContent scriptId
  = (isSuspicious st', logs st').
Proof.
  intros Hp Ht. unfold TsFile.scanScriptForAnomalies, bind.
  now rewrite Hp, Ht.
Qed.

Lemma js_scan_call (scriptContent scriptId : string) (ast node : value)
    (f : string) (line : Z) :
  parseScript scriptContent = inr ast ->
  JsFile.safeTree ast = true ->
  contains ast node ->
  isDangerousCall node f line ->
  let result :=
    JsFile.scanScriptForAnomalies parseScript scriptContent scriptId in
  fst result = true
  /\ In (anomalyEntry scriptId
           ("High-risk structural anomaly found: Function call to '"
            ++ f ++ "'")
           (VNum line))
       (snd result).
Proof.
  intros Hp Hsafe Hc Hcall.
  destruct (returns_unit (JsFile.traverse scriptId ast) initialState)
    as (st' & Hrun).
  { apply (traverse_returns _ _ JsFile.safeNode);
      [ apply js_checkNode_returns | exact Hsafe ]. }
  assert (Hv : visits (fun _ => true) ast node).
  { destruct Hcall as (Ht & _).
    destruct (field_object node "type") as (ps & ->); [ congruence | ].
    now apply contains_visits. }
  destruct (traverse_visits _ _ (js_checkNode_grows scriptId) _ _ Hv _ _ Hrun)
    as (s1 & s2 & E1 & Hn & E2).
  rewrite (js_checkNode_call _ _ _ _ s1 Hcall) in Hn. inversion Hn; subst s2.
  cbv zeta. rewrite (js_scan_parsed _ _ _ _ Hp Hrun). cbn [fst snd]. split.
  - now apply (extends_flag _ _ E2).
  - apply (extends_In _ _ _ E2). cbn [logs]. apply in_or_app. right. now left.
Qed.

Lemma ts_scan_call (scriptContent scriptId : string) (ast node : value)
    (f : string) (line : Z) :
  parseScript scriptContent = inr ast ->
  TsFile.nodesUnderNodes ast = true ->
  contains ast node ->
  isDangerousCall node f line ->
  let result :=
    TsFile.scanScriptForAnomalies parseScript scriptContent scriptId in
  fst result = true
  /\ In (anomalyEntry scriptId
           ("High-risk function: Function call to '" ++ f ++ "'")
           (VNum line))
       (snd result).
Proof.
  intros Hp Hast Hc Hcall.
  destruct (returns_unit (TsFile.traverse scriptId ast) initialState)
    as (st' & Hrun).
  { apply (traverse_returns _ _ (fun _ => true));
      [ intros; apply ts_checkNode_returns | apply allNodes_trivial ]. }
  assert (Hv : visits TsFile.enters ast node).
  { pose proof Hcall as (Ht & _).
    destruct (field_object node "type") as (ps & Hnode); [ congruence | ].
    apply contains_visits; try (subst node; reflexivity); [ exact Hc | ].
    intros u Hu Hun Ha. apply (ts_path_entered ast node); auto.
    now rewrite Ht. }
  destruct (traverse_visits _ _ (ts_checkNode_grows scriptId) _ _ Hv _ _ Hrun)
    as (s1 & s2 & E1 & Hn & E2).
  rewrite (ts_checkNode_call _ _ _ _ s1 Hcall) in Hn. inversion Hn; subst s2.
  cbv zeta. rewrite (ts_scan_parsed _ _ _ _ Hp Hrun). cbn [fst snd]. split.
  - now apply (extends_flag _ _ E2).
  - apply (extends_In _ _ _ E2). cbn [logs]. apply in_or_app. right. now left.
Qed.

End Verdict.

End AnalyzerFacts.

Section AnalyzerClaims.
Import ScriptAnalyzer Samples.
Open Scope string_scope.
Open Scope list_scope.

(** C2: when the parser returns a tree that holds a call of a bare
    identifier of the deny-list, the analyser answers [true] and logs a
    [script_anomaly] finding of severity [high] whose details name the
    function and whose [line_number] is the line on which the call
    starts.  script-analyzer.js does so on every tree on which its
    property reads do not throw, script-analyzer.ts on every tree whose
    nodes sit under nodes and arrays only; the trees of the parser are
    of both kinds. *)
Theorem dangerous_call_flagged
    (parseScript : string -> Error + value)
    (scriptContent scriptId : string) (ast node : value)
    (f : string) (line : Z) :
  parseScript scriptContent = inr ast ->
  contains ast node ->
  isDangerousCall node f line ->
  (JsFile.safeTree ast = true ->
   fst (JsFile.scanScriptForAnomalies parseScript scriptContent scriptId)
   = true
   /\ In {| type := "script_anomaly";
            detection_source := Some "static_analysis";
            severity := "high";
            script_id := scriptId;
            line_number := Some (VNum line);
            details :=
              "High-risk structural anomaly found: Function call to '"
              ++ f ++ "'" |}
        (snd (JsFile.scanScriptForAnomalies parseScript scriptContent
                scriptId)))
  /\ (TsFile.nodesUnderNodes ast = true ->
      fst (TsFile.scanScriptForAnomalies parseScript scriptContent scriptId)
      = true
      /\ In {| type := "script_anomaly";
               detection_source := Some "static_analysis";
               severity := "high";
               script_id := scriptId;
               line_number := Some (VNum line);
               details :=
                 "High-risk function: Function call to '" ++ f ++ "'" |}
           (snd (TsFile.scanScriptForAnomalies parseScript scriptContent
                   scriptId))).
Proof.
  intros Hp Hc Hcall. split.
  - intros Hsafe. exact (js_scan_call _ _ _ ast node f line Hp Hsafe Hc Hcall).
  - intros Hast. exact (ts_scan_call _ _ _ ast node f line Hp Hast Hc Hcall).
Qed.

Lemma evalCall_contained : contains evalProgram evalCall.
Proof.
  eapply contains_prop; [ right; left; reflexivity | ].
  eapply contains_elem; [ right; left; reflexivity | ].
  eapply contains_prop; [ right; left; reflexivity | ].
  apply contains_self.
Qed.

Lemma dangerous_call_flagged_witness :
  sampleParser evalSource = inr evalProgram
  /\ contains evalProgram evalCall
  /\ isDangerousCall evalCall "eval" 2
  /\ JsFile.safeTree evalProgram = true
  /\ TsFile.nodesUnderNodes evalProgram = true
  /\ fst (JsFile.scanScriptForAnomalies sampleParser evalSource "page")
     = true
  /\ In {| type := "script_anomaly";
           detection_source := Some "static_analysis";
           severity := "high";
           script_id := "page";
           line_number := Some (VNum 2);
           details :=
             "High-risk structural anomaly found: Function call to 'eval'" |}
       (snd (JsFile.scanScriptForAnomalies sampleParser evalSource "page"))
  /\ fst (TsFile.scanScriptForAnomalies sampleParser evalSource "page")
     = true
  /\ In {| type := "script_anomaly";
           detection_source := Some "static_analysis";
           severity := "high";
           script_id := "page";
           line_number := Some (VNum 2);
           details := "High-risk function: Function call to 'eval'" |}
       (snd (TsFile.scanScriptForAnomalies sampleParser evalSource "page")).
Proof.
  assert (Hp : sampleParser evalSource = inr evalProgram) by reflexivity.
  pose proof evalCall_contained as Hc.
  assert (Hcall : isDangerousCall evalCall "eval" 2).
  { repeat split. cbn. auto. }
  assert (Hsafe : JsFile.safeTree evalProgram = true) by reflexivity.
  assert (Hast : TsFile.nodesUnderNodes evalProgram = true) by reflexivity.
  destruct (dangerous_call_flagged sampleParser evalSource "page"
              evalProgram evalCall "eval" 2 Hp Hc Hcall) as [Hjs Hts].
  split; [ exact Hp | ].
  split; [ exact Hc | ].
  split; [ exact Hcall | ].
  split; [ exact Hsafe | ].
  split; [ exact Hast | ].
  split; [ exact (proj1 (Hjs Hsafe)) | ].
  split; [ exact (proj2 (Hjs Hsafe)) | ].
  split; [ exact (proj1 (Hts Hast)) | exact (proj2 (Hts Hast)) ].
Defined.

(** C5: when the parser throws, the analyser logs one entry, of type
    [script_analysis_error] and severity [medium], whose details end
    with the message of the error, and answers [false]. *)
Theorem parse_failure_reported
    (parseScript : string -> Error + value)
    (scriptContent scriptId : string) (error : Error) :
  parseScript scriptContent = inl error ->
  JsFile.scanScriptForAnomalies parseScript scriptContent scriptId
  = (false,
     [ {| type := "script_analysis_error";
          detection_source := None;
          severity := "medium";
          script_id := scriptId;
          line_number := None;
          details := "Script parsing failed: " ++ message error |} ])
  /\ TsFile.scanScriptForAnomalies parseScript scriptContent scriptId
     = (false,
        [ {| type := "script_analysis_error";
             detection_source := Some "static_analysis";
             severity := "medium";
             script_id := scriptId;
             line_number := None;
             details := "Failed to parse: " ++ message error |} ]).
Proof.
  intros H.
  unfold JsFile.scanScriptForAnomalies, TsFile.scanScriptForAnomalies, bind.
  rewrite H. split; reflexivity.
Qed.

Lemma parse_failure_reported_witness :
  sampleParser "eval(;" = inl {| message := "Line 1: Unexpected token )" |}
  /\ JsFile.scanScriptForAnomalies sampleParser "eval(;" "page"
     = (false,
        [ {| type := "script_analysis_error";
             detection_source := None;
             severity := "medium";
             script_id := "page";
             line_number := None;
             details :=
               "Script parsing failed: Line 1: Unexpected token )" |} ]).
Proof.
  assert (H : sampleParser "eval(;"
              = inl {| message := "Line 1: Unexpected token )" |})
    by reflexivity.
  split; [ exact H | ].
  apply (proj1 (parse_failure_reported sampleParser "eval(;" "page" _ H)).
Defined.

End AnalyzerClaims.

(** * Further properties *)

(** ** The scorers *)

Section ScorerExtras.
Import Js Scoring Samples Levels.

Lemma Math_min_le_l (x y : Q) : Math_min x y <= x.
Proof.
  unfold Math_min. destruct (Qle_bool x y) eqn:E; [ apply Qle_refl | ].
  apply not_true_iff_false in E. rewrite Qle_bool_iff in E. lra.
Qed.

Ltac split_conditions :=
  repeat match goal with
    | |- context [if (?a && ?b)%bool then _ else _] =>
        destruct (a && b)%bool
    | |- context [if truthyBool ?a then _ else _] =>
        destruct (truthyBool a)
    | |- context [if negb ?a then _ else _] => destruct a; cbn [negb]
    | |- context [if obfuscationDetected ?a then _ else _] =>
        destruct (obfuscationDetected a)
    | |- context [if eqn ?a ?b then _ else _] => destruct (eqn a b)
    | |- context [match ?o with Some _ => _ | None => _ end] =>
        destruct o
    end.

(** X1: the temporal and the structural score lie between 0 and 100 for
    every snapshot, whatever the counts and sizes; the behavioural score
    never exceeds 100. *)
Theorem subscores_in_range (m : AnomalyMetrics) :
  0 <= calculateTemporalScore m <= 100
  /\ 0 <= calculateStructuralScore m <= 100
  /\ calculateBehavioralScore m <= 100.
Proof.
  repeat split.
  - apply temporal_nonneg.
  - apply Math_min_le_r.
  - apply structural_nonneg.
  - apply Math_min_le_r.
  - apply Math_min_le_r.
Qed.

(** X2: with a reputation score of at most 10, the cross-dimensional
    patterns never lower the score: the combined score is at least the
    clamped weighted sum of the three sub-scores. *)
Theorem patterns_only_raise (m : AnomalyMetrics) :
  domainRepScore m <= 10 ->
  Math_min
    (weightedSum (calculateBehavioralScore m) (calculateTemporalScore m)
       (calculateStructuralScore m)) 100
  <= combinedScore (analyzeContext m).
Proof.
  intros H. cbn [analyzeContext setThreatVector combinedScore].
  pose proof (behavioral_nonneg m H) as Hb.
  pose proof (temporal_nonneg m) as Ht.
  pose proof (structural_nonneg m) as Hs.
  revert Hb Ht Hs.
  generalize (calculateBehavioralScore m) (calculateTemporalScore m)
    (calculateStructuralScore m).
  intros b t s Hb Ht Hs. unfold weightedSum.
  apply Math_min_mono.
  destruct (pattern1 m), (pattern2 m), (pattern3 m), (pattern4 m); lra.
Qed.

Lemma patterns_only_raise_witness :
  domainRepScore complete <= 10
  /\ Math_min
       (weightedSum (calculateBehavioralScore complete)
          (calculateTemporalScore complete)
          (calculateStructuralScore complete)) 100
     <= combinedScore (analyzeContext complete).
Proof.
  assert (H : domainRepScore complete <= 10) by (cbn; lra).
  split; [ exact H | ].
  apply (patterns_only_raise complete H).
Defined.

Lemma temporal_request_mono (m : AnomalyMetrics) (r1 r2 : Q) :
  r1 <= r2 ->
  calculateTemporalScore (setRequestCount r1 m)
  <= calculateTemporalScore (setRequestCount r2 m).
Proof.
  intros H. unfold calculateTemporalScore.
  cbn [requestCount dataExfilSize isFirstVisit userInteractionOccurred
       timeOfDay domainAge setRequestCount].
  apply Math_min_mono.
  destruct (truthyBool (isFirstVisit m)),
    (truthyBool (userInteractionOccurred m)),
    (gt (dataExfilSize m) (1024 * 1024)); cbn [negb];
    destruct (timeOfDay m) as [t | ];
    try destruct (ge t 2 && le t 5)%bool;
    destruct (domainAge m) as [a | ];
    try (destruct (eqn a 0), (lt a 7), (lt a 30));
    split_cmp; lra.
Qed.

(** X3: with a reputation score of at most 10, more requests never give
    a lower combined score, nor a lower risk level. *)
Theorem combined_request_monotone (m : AnomalyMetrics) (lo hi : Q) :
  domainRepScore m <= 10 -> lo <= hi ->
  combinedScore (analyzeContext (setRequestCount lo m))
  <= combinedScore (analyzeContext (setRequestCount hi m))
  /\ (levelRank (getRiskLevel (setRequestCount lo m))
      <= levelRank (getRiskLevel (setRequestCount hi m)))%nat.
Proof.
  intros Hrep Hle.
  assert (Hc : combinedScore (analyzeContext (setRequestCount lo m))
               <= combinedScore (analyzeContext (setRequestCount hi m))).
  { cbn [analyzeContext setThreatVector combinedScore].
    pose proof (behavioral_request_mono m lo hi Hle) as Hb.
    pose proof (temporal_request_mono m lo hi Hle) as Ht.
    pose proof (behavioral_nonneg (setRequestCount lo m) Hrep) as Hb0.
    pose proof (temporal_nonneg (setRequestCount lo m)) as Ht0.
    pose proof (structural_nonneg (setRequestCount lo m)) as Hs0.
    change (calculateStructuralScore (setRequestCount hi m))
      with (calculateStructuralScore (setRequestCount lo m)).
    change (pattern1 (setRequestCount hi m))
      with (pattern1 (setRequestCount lo m)).
    change (pattern3 (setRequestCount hi m))
      with (pattern3 (setRequestCount lo m)).
    change (pattern4 (setRequestCount hi m))
      with (pattern4 (setRequestCount lo m)).
    assert (Hp2 : pattern2 (setRequestCount lo m) = true ->
                  pattern2 (setRequestCount hi m) = true).
    { unfold pattern2.
      cbn [requestCount isFirstVisit userInteractionOccurred setRequestCount].
      destruct (truthyBool (isFirstVisit m)),
        (negb (truthyBool (userInteractionOccurred m)));
        cbn [andb]; try discriminate.
      rewrite !gt_true. lra. }
    revert Hb Ht Hb0 Ht0 Hs0.
    generalize (calculateBehavioralScore (setRequestCount lo m))
      (calculateBehavioralScore (setRequestCount hi m))
      (calculateTemporalScore (setRequestCount lo m))
      (calculateTemporalScore (setRequestCount hi m))
      (calculateStructuralScore (setRequestCount lo m)).
    intros b1 b2 t1 t2 s Hb Ht Hb0 Ht0 Hs0. unfold weightedSum.
    apply Math_min_mono.
    destruct (pattern2 (setRequestCount lo m)) eqn:E2.
    - rewrite (Hp2 eq_refl).
      destruct (pattern1 (setRequestCount lo m)),
        (pattern3 (setRequestCount lo m)),
        (pattern4 (setRequestCount lo m)); lra.
    - destruct (pattern2 (setRequestCount hi m)),
        (pattern1 (setRequestCount lo m)),
        (pattern3 (setRequestCount lo m)),
        (pattern4 (setRequestCount lo m)); lra. }
  split; [ exact Hc | ].
  unfold getRiskLevel. revert Hc.
  generalize (combinedScore (analyzeContext (setRequestCount lo m)))
    (combinedScore (analyzeContext (setRequestCount hi m))).
  intros c1 c2 Hc.
  destruct (ge c1 75) eqn:A1; [ apply ge_true in A1 | apply ge_false in A1 ];
  destruct (ge c1 50) eqn:B1; [ apply ge_true in B1 | apply ge_false in B1
                              | apply ge_true in B1 | apply ge_false in B1 ];
  destruct (ge c1 25) eqn:C1;
  destruct (ge c2 75) eqn:A2;
  destruct (ge c2 50) eqn:B2;
  destruct (ge c2 25) eqn:C2;
  cbn; try lia;
  repeat match goal with
    | H : ge _ _ = true |- _ => apply ge_true in H
    | H : ge _ _ = false |- _ => apply ge_false in H
    end; lra.
Qed.

Lemma combined_request_monotone_witness :
  domainRepScore complete <= 10 /\ 3 <= 40
  /\ combinedScore (analyzeContext (setRequestCount 3 complete))
     <= combinedScore (analyzeContext (setRequestCount 40 complete)).
Proof.
  assert (H : domainRepScore complete <= 10) by (cbn; lra).
  assert (H' : 3 <= 40) by lra.
  split; [ exact H | split; [ exact H' | ] ].
  apply (proj1 (combined_request_monotone complete 3 40 H H')).
Defined.

(** The pushes of [identifyThreatVectors] pick tags off the fixed list. *)
Lemma pushes_pick (c1 c2 c3 c4 c5 c6 : bool) :
  pushIf c6 "RAPID_EXFIL"
    (pushIf c5 "ZERO_DAY_ATTACK"
       (pushIf c4 "BACKGROUND_BEACON"
          (pushIf c3 "SESSION_HIJACKING"
             (pushIf c2 "OBFUSCATED_MALWARE"
                (pushIf c1 "DATA_EXFILTRATION" [])))))
  = pick threatTags [c1; c2; c3; c4; c5; c6].
Proof. destruct c1, c2, c3, c4, c5, c6; reflexivity. Qed.

Lemma pick_In {A : Type} (l : list A) (keep : list bool) (x : A) :
  In x (pick l keep) -> In x l.
Proof.
  revert keep. induction l as [ | y l IH ]; intros [ | [ | ] keep ] H;
    cbn in H; try contradiction.
  - destruct H as [-> | H]; [ now left | right; eauto ].
  - right; eauto.
Qed.

Lemma pick_NoDup {A : Type} (l : list A) (keep : list bool) :
  NoDup l -> NoDup (pick l keep).
Proof.
  intros H. revert keep.
  induction H as [ | y l Hy _ IH ]; intros [ | [ | ] keep ]; cbn;
    try constructor; auto.
  intros Hin. apply Hy. eapply pick_In, Hin.
Qed.

(** X4: the threat vectors of a context are tags of the fixed list of
    six, in the order of that list, each at most once. *)
Theorem threat_vectors_in_order (m : AnomalyMetrics) :
  (exists keep, threatVector (analyzeContext m) = pick threatTags keep)
  /\ NoDup (threatVector (analyzeContext m)).
Proof.
  assert (H : exists keep,
             threatVector (analyzeContext m) = pick threatTags keep).
  { cbn [analyzeContext setThreatVector threatVector].
    unfold identifyThreatVectors. rewrite pushes_pick. eauto. }
  split; [ exact H | ].
  destruct H as (keep & ->). apply pick_NoDup.
  unfold threatTags.
  repeat (constructor; [ cbn; intuition discriminate | ]). constructor.
Qed.

Lemma zero_day_picked (c1 c2 c3 c4 c5 c6 : bool) :
  In "ZERO_DAY_ATTACK"%string (pick threatTags [c1; c2; c3; c4; c5; c6])
  <-> c5 = true.
Proof.
  destruct c1, c2, c3, c4, c5, c6; cbn; intuition discriminate.
Qed.

(** X5: ZERO_DAY_ATTACK is tagged exactly when the first visit adds to
    the temporal score, that is when the temporal score is higher than
    it would be were [isFirstVisit] false. *)
Theorem zero_day_iff_first_visit_scores (m : AnomalyMetrics) :
  In "ZERO_DAY_ATTACK"%string (threatVector (analyzeContext m))
  <-> calculateTemporalScore (replaceField IsFirstVisit None (Some false) m)
      < calculateTemporalScore m.
Proof.
  cbn [analyzeContext setThreatVector threatVector].
  unfold identifyThreatVectors. rewrite pushes_pick, zero_day_picked.
  unfold calculateTemporalScore, Math_min.
  cbn [replaceField isField requestCount dataExfilSize isFirstVisit
       userInteractionOccurred timeOfDay domainAge truthyBool].
  destruct (truthyBool (isFirstVisit m)); cbn [andb];
    destruct (truthyBool (userInteractionOccurred m)); cbn [negb];
    destruct (timeOfDay m) as [t | ];
    try destruct (ge t 2 && le t 5)%bool;
    destruct (domainAge m) as [a | ];
    try (destruct (eqn a 0), (lt a 7), (lt a 30));
    split_cmp; cbn [orb];
    repeat match goal with
      | |- context [Qle_bool ?a ?b] =>
          let E := fresh "E" in
          destruct (Qle_bool a b) eqn:E;
          [ apply Qle_bool_iff in E
          | apply not_true_iff_false in E; rewrite Qle_bool_iff in E ]
      end;
    split; intros H; try reflexivity; try discriminate; try lra.
Qed.

(** X6: the confidence is at least 46 and at most 100, and it is 100
    exactly when all seven optional fields are present. *)
Theorem confidence_range (m : AnomalyMetrics) :
  (46 <= confidence (analyzeContext m) <= 100)%Z
  /\ (confidence (analyzeContext m) = 100%Z
      <-> uploadFrequency m <> None /\ dangerousFunctionCount m <> None
          /\ cookieAccessDetected m <> None /\ isFirstVisit m <> None
          /\ userInteractionOccurred m <> None /\ timeOfDay m <> None
          /\ domainAge m <> None).
Proof.
  change (confidence (analyzeContext m)) with (calculateConfidence m).
  destruct m as [rc rep ex uf ob dfc cad ifv uio tod da].
  cbn [uploadFrequency dangerousFunctionCount cookieAccessDetected
       isFirstVisit userInteractionOccurred timeOfDay domainAge].
  destruct uf, dfc, cad, ifv, uio, tod, da;
    match goal with
    | |- context [calculateConfidence ?x] =>
        let c := eval vm_compute in (calculateConfidence x) in
        change (calculateConfidence x) with c
    end;
    (split; [ lia | ]);
    (split; [ try discriminate; intros _; repeat split; discriminate
            | try reflexivity; intros H; exfalso; intuition congruence ]).
Qed.

(** X7: a snapshot that has the required fields only and no obfuscation
    scores less than 50, so its level is LOW or MEDIUM whatever the
    request count, the reputation and the size are. *)
Theorem required_fields_never_high (requests reputation exfil : Q) :
  combinedScore (analyzeContext (bare requests reputation exfil false)) < 50
  /\ (getRiskLevel (bare requests reputation exfil false) = "LOW"%string
      \/ getRiskLevel (bare requests reputation exfil false)
         = "MEDIUM"%string).
Proof.
  assert (H : combinedScore
                (analyzeContext (bare requests reputation exfil false))
              < 50).
  { cbn [analyzeContext setThreatVector combinedScore].
    pose proof (behavioral_le_100 (bare requests reputation exfil false))
      as Hb.
    assert (Ht : calculateTemporalScore
                   (bare requests reputation exfil false) <= 30).
    { unfold calculateTemporalScore.
      cbn [bare requestCount dataExfilSize isFirstVisit
           userInteractionOccurred timeOfDay domainAge truthyBool negb].
      eapply Qle_trans; [ apply Math_min_le_l | ].
      split_cmp; lra. }
    assert (Hs : calculateStructuralScore
                   (bare requests reputation exfil false) == 0)
      by reflexivity.
    assert (Hp : pattern1 (bare requests reputation exfil false) = false
                 /\ pattern2 (bare requests reputation exfil false) = false
                 /\ pattern3 (bare requests reputation exfil false) = false
                 /\ pattern4 (bare requests reputation exfil false) = false).
    { unfold pattern1, pattern2, pattern3, pattern4.
      cbn [bare obfuscationDetected isFirstVisit cookieAccessDetected
           truthyBool andb].
      now rewrite andb_false_r. }
    destruct Hp as (-> & -> & -> & ->).
    revert Hb Ht Hs.
    generalize (calculateBehavioralScore
                  (bare requests reputation exfil false))
      (calculateTemporalScore (bare requests reputation exfil false))
      (calculateStructuralScore (bare requests reputation exfil false)).
    intros b t s Hb Ht Hs. unfold weightedSum.
    eapply Qle_lt_trans; [ apply Math_min_le_l | lra ]. }
  split; [ exact H | ].
  unfold getRiskLevel. revert H.
  generalize (combinedScore
                (analyzeContext (bare requests reputation exfil false))).
  intros c Hc.
  destruct (ge c 75) eqn:A; [ apply ge_true in A; lra | ].
  destruct (ge c 50) eqn:B; [ apply ge_true in B; lra | ].
  destruct (ge c 25); auto.
Qed.

End ScorerExtras.

Section SimpleScorerExtras.
Import Js SimpleScoring Levels.

Lemma simple_rank_monotone (a b : AnomalyMetrics) :
  finalScore a <= finalScore b ->
  (levelRank (getRiskLevel a) <= levelRank (getRiskLevel b))%nat.
Proof.
  unfold getRiskLevel. generalize (finalScore a) (finalScore b).
  intros x y H.
  destruct (gt x 100) eqn:A1; [ apply gt_true in A1 | apply gt_false in A1 ];
  destruct (gt x 50) eqn:B1; [ apply gt_true in B1 | apply gt_false in B1
                             | apply gt_true in B1 | apply gt_false in B1 ];
  destruct (gt y 100) eqn:A2; [ apply gt_true in A2 | apply gt_false in A2
                              | apply gt_true in A2 | apply gt_false in A2
                              | apply gt_true in A2 | apply gt_false in A2
                              | apply gt_true in A2 | apply gt_false in A2 ];
  destruct (gt y 50) eqn:B2;
  cbn; try lia;
  try (apply gt_true in B2); try (apply gt_false in B2); lra.
Qed.

(** X8: in the three-input scorer neither more requests nor a higher
    reputation score ever lowers the level: a higher [domainRepScore]
    counts as more risk here. *)
Theorem simple_level_monotone (lo hi other : Q) (obfuscated : bool)
    (exfil : option Q) :
  lo <= hi ->
  (levelRank
     (getRiskLevel {| requestCount := lo; domainRepScore := other;
                      obfuscationDetected := obfuscated;
                      dataExfilSize := exfil |})
   <= levelRank
        (getRiskLevel {| requestCount := hi; domainRepScore := other;
                         obfuscationDetected := obfuscated;
                         dataExfilSize := exfil |}))%nat
  /\ (levelRank
        (getRiskLevel {| requestCount := other; domainRepScore := lo;
                         obfuscationDetected := obfuscated;
                         dataExfilSize := exfil |})
      <= levelRank
           (getRiskLevel {| requestCount := other; domainRepScore := hi;
                            obfuscationDetected := obfuscated;
                            dataExfilSize := exfil |}))%nat.
Proof.
  intros H. split; apply simple_rank_monotone;
    unfold finalScore, baseScore, obfuscationMultiplier;
    cbn [requestCount domainRepScore obfuscationDetected];
    destruct obfuscated; lra.
Qed.

Lemma simple_level_monotone_witness :
  10 <= 30
  /\ (levelRank
        (getRiskLevel {| requestCount := 10; domainRepScore := 4;
                         obfuscationDetected := false;
                         dataExfilSize := None |})
      <= levelRank
           (getRiskLevel {| requestCount := 30; domainRepScore := 4;
                            obfuscationDetected := false;
                            dataExfilSize := None |}))%nat.
Proof.
  assert (H : 10 <= 30) by lra.
  split; [ exact H | ].
  apply (proj1 (simple_level_monotone 10 30 4 false None H)).
Defined.

(** X9: when the base score is not negative, detected obfuscation never
    gives a lower level than its absence. *)
Theorem simple_obfuscation_never_lowers (requests reputation : Q)
    (exfil : option Q) :
  0 <= requests * 2 + reputation * 10 ->
  (levelRank
     (getRiskLevel {| requestCount := requests; domainRepScore := reputation;
                      obfuscationDetected := false;
                      dataExfilSize := exfil |})
   <= levelRank
        (getRiskLevel {| requestCount := requests;
                         domainRepScore := reputation;
                         obfuscationDetected := true;
                         dataExfilSize := exfil |}))%nat.
Proof.
  intros H. apply simple_rank_monotone.
  unfold finalScore, baseScore, obfuscationMultiplier.
  cbn [requestCount domainRepScore obfuscationDetected]. lra.
Qed.

Lemma simple_obfuscation_never_lowers_witness :
  0 <= 15 * 2 + 3 * 10
  /\ (levelRank
        (getRiskLevel {| requestCount := 15; domainRepScore := 3;
                         obfuscationDetected := false;
                         dataExfilSize := None |})
      <= levelRank
           (getRiskLevel {| requestCount := 15; domainRepScore := 3;
                            obfuscationDetected := true;
                            dataExfilSize := None |}))%nat.
Proof.
  assert (H : 0 <= 15 * 2 + 3 * 10) by lra.
  split; [ exact H | ].
  apply (simple_obfuscation_never_lowers 15 3 None H).
Defined.

End SimpleScorerExtras.

(** ** The traffic window *)

Section WindowExtras.
Import NetworkMonitor Window Samples.
Open Scope string_scope.
Open Scope list_scope.

Lemma mapGet_mapSet_same (m : HostMap) (k : string) (v : Z) :
  mapGet (mapSet m k v) k = Some v.
Proof.
  induction m as [ | [k' v'] m IH ]; cbn.
  - now rewrite String.eqb_refl.
  - destruct (String.eqb k' k) eqn:E; cbn.
    + now rewrite String.eqb_refl.
    + now rewrite E.
Qed.

Lemma mapGet_mapSet_other (m : HostMap) (k k' : string) (v : Z) :
  k' <> k -> mapGet (mapSet m k v) k' = mapGet m k'.
Proof.
  intros H. induction m as [ | [k0 v0] m IH ]; cbn.
  - destruct (String.eqb_spec k k'); congruence.
  - destruct (String.eqb_spec k0 k) as [-> | Hk]; cbn.
    + destruct (String.eqb_spec k k'); congruence.
    + destruct (String.eqb_spec k0 k'); auto.
Qed.

Lemma mapSet_keys (m : HostMap) (k : string) (v : Z) :
  map fst (mapSet m k v)
  = if existsb (String.eqb k) (map fst m) then map fst m
    else map fst m ++ [k].
Proof.
  induction m as [ | [k' v'] m IH ]; cbn; [ reflexivity | ].
  rewrite (String.eqb_sym k k').
  destruct (String.eqb_spec k' k) as [-> | Hk]; cbn.
  - reflexivity.
  - rewrite IH. now destruct (existsb _ _).
Qed.

(** The hosts of the window stay distinct, as the keys of a [Map]
    do. *)
Lemma window_hosts_distinct (sev destinationHost url : string)
    (uploadedBytes : Z) (st : State) :
  NoDup (map fst (hostUploadBytes st)) ->
  NoDup (map fst
           (hostUploadBytes (observe sev destinationHost uploadedBytes url st))).
Proof.
  intros H. rewrite observe_window.
  destruct (uploadedBytes >? 0)%Z; [ | exact H ].
  rewrite mapSet_keys.
  destruct (existsb (String.eqb destinationHost) (map fst (hostUploadBytes st)))
    eqn:E; [ exact H | ].
  apply NoDup_app; [ exact H | repeat constructor; intros [] | ].
  intros x Hx Hk. cbn in Hk. destruct Hk as [<- | []].
  apply not_true_iff_false in E. apply E. apply existsb_exists.
  exists destinationHost. split; [ exact Hx | apply String.eqb_refl ].
Qed.

(** A request never lowers the total of any host, and leaves the
    totals of the other hosts as they are. *)
Theorem totals_never_decrease (sev destinationHost url h : string)
    (uploadedBytes v : Z) (st : State) :
  mapGet (hostUploadBytes st) h = Some v ->
  exists v',
    mapGet (hostUploadBytes (observe sev destinationHost uploadedBytes url st))
      h = Some v'
    /\ (v <= v')%Z
    /\ (h <> destinationHost -> v' = v).
Proof.
  intros H. rewrite observe_window.
  destruct (uploadedBytes >? 0)%Z eqn:Eb.
  - destruct (String.eqb_spec h destinationHost) as [-> | Hne].
    + rewrite mapGet_mapSet_same, H. eexists. split; [ reflexivity | ].
      split; [ | congruence ].
      apply Z.gtb_lt in Eb. destruct (Z.eqb_spec v 0); lia.
    + rewrite mapGet_mapSet_other by exact Hne.
      exists v. repeat split; auto. lia.
  - exists v. repeat split; auto. lia.
Qed.

Lemma totals_never_decrease_witness :
  mapGet
    (hostUploadBytes
       (observe "high" "a.example" 10 "https://a.example/" (emptyWindow [])))
    "a.example" = Some 10%Z
  /\ exists v',
       mapGet
         (hostUploadBytes
            (observe "high" "a.example" 5 "https://a.example/"
               (observe "high" "a.example" 10 "https://a.example/"
                  (emptyWindow []))))
         "a.example" = Some v'
       /\ (10 <= v')%Z.
Proof.
  assert (H : mapGet
                (hostUploadBytes
                   (observe "high" "a.example" 10 "https://a.example/"
                      (emptyWindow [])))
                "a.example" = Some 10%Z) by reflexivity.
  split; [ exact H | ].
  destruct (totals_never_decrease "high" "a.example" "https://a.example/"
              "a.example" 5 10 _ H) as (v' & Hv & Hle & _).
  exists v'. split; [ exact Hv | exact Hle ].
Defined.

Lemma observeAll_total (sev h : string) (requests : list Request) :
  forall st,
    (forall k v, mapGet (hostUploadBytes st) k = Some v -> (0 < v)%Z) ->
    mapGet (hostUploadBytes (observeAll sev requests st)) h
    = (let t :=
         (match mapGet (hostUploadBytes st) h with
          | Some v => v
          | None => 0
          end + totalFor h requests)%Z in
       if (t >? 0)%Z then Some t else None)
    /\ (forall k v,
          mapGet (hostUploadBytes (observeAll sev requests st)) k = Some v ->
          (0 < v)%Z).
Proof.
  induction requests as [ | r rs IH ]; intros st Hpos.
  - cbn. split; [ | exact Hpos ].
    destruct (mapGet (hostUploadBytes st) h) as [v | ] eqn:E; cbn.
    + rewrite Z.add_0_r. pose proof (Hpos _ _ E) as Hv.
      apply Z.gtb_lt in Hv. now rewrite Hv.
    + reflexivity.
  - cbn [observeAll fold_left totalFor].
    set (st1 := observe sev (toHost r) (uploaded r) (requestUrl r) st).
    assert (Hpos1 : forall k v,
               mapGet (hostUploadBytes st1) k = Some v -> (0 < v)%Z).
    { intros k v. unfold st1. rewrite observe_window.
      destruct (uploaded r >? 0)%Z eqn:Eb; [ | apply Hpos ].
      apply Z.gtb_lt in Eb.
      destruct (String.eqb_spec k (toHost r)) as [-> | Hne].
      - rewrite mapGet_mapSet_same. intros Hv. inversion Hv; subst v.
        destruct (mapGet (hostUploadBytes st) (toHost r)) as [b | ] eqn:E;
          [ | lia ].
        pose proof (Hpos _ _ E). destruct (Z.eqb_spec b 0); lia.
      - rewrite mapGet_mapSet_other by exact Hne. apply Hpos. }
    destruct (IH st1 Hpos1) as [Hget Hall].
    split; [ | exact Hall ].
    change (fold_left _ rs st1) with (observeAll sev rs st1).
    rewrite Hget. cbv zeta.
    assert (E : (match mapGet (hostUploadBytes st1) h with
                 | Some v => v
                 | None => 0
                 end
                 = match mapGet (hostUploadBytes st) h with
                   | Some v => v
                   | None => 0
                   end
                   + (if String.eqb (toHost r) h && (uploaded r >? 0)%Z
                      then uploaded r else 0))%Z).
    { unfold st1. rewrite observe_window.
      destruct (uploaded r >? 0)%Z eqn:Eb.
      - destruct (String.eqb_spec (toHost r) h) as [<- | Hne]; cbn [andb].
        + rewrite mapGet_mapSet_same.
          destruct (mapGet (hostUploadBytes st) (toHost r)) as [b | ];
            [ | reflexivity ].
          now destruct (Z.eqb_spec b 0); subst.
        + rewrite mapGet_mapSet_other by congruence. lia.
      - rewrite andb_false_r. lia. }
    rewrite E. now rewrite Z.add_assoc.
Qed.

(** X10: after any run of requests in a fresh window, the total kept for
    a host is the sum of the byte counts of its requests that carried a
    body, and a host without such a request has no entry. *)
Theorem window_total_is_sum (sev h : string) (requests : list Request)
    (logged : list LogEntry) :
  mapGet (hostUploadBytes (observeAll sev requests (emptyWindow logged))) h
  = if (totalFor h requests >? 0)%Z then Some (totalFor h requests)
    else None.
Proof.
  destruct (observeAll_total sev h requests (emptyWindow logged)) as [H _].
  - intros k v Hk. discriminate.
  - exact H.
Qed.

(** X11: the flush of network-monitor.js logs one record for every host
    of the window, in the order in which the hosts were first seen, each
    with its total and with severity [warning] exactly when the total is
    above 5 MiB; it leaves the window empty, so a second flush right
    after it does nothing. *)
Theorem threshold_flush_records (st : State) :
  (exists records,
     logs (Threshold.logAndResetUploadBytes st) = logs st ++ records
     /\ map (fun r => (type r, host r, bytes_uploaded r, severity r)) records
        = map (fun e =>
                 ("network_statistic_upload", Some (fst e), Some (snd e),
                  if (snd e >? 5242880)%Z then "warning" else "info"))
            (hostUploadBytes st))
  /\ hostUploadBytes (Threshold.logAndResetUploadBytes st) = []
  /\ Threshold.logAndResetUploadBytes (Threshold.logAndResetUploadBytes st)
     = Threshold.logAndResetUploadBytes st.
Proof.
  split; [ | split ].
  - exists (map Threshold.thresholdEntry (hostUploadBytes st)).
    split; [ apply threshold_flush_logs | ].
    rewrite map_map. reflexivity.
  - apply flush_empties.
  - pose proof (proj1 (flush_empties st)) as H.
    unfold Threshold.logAndResetUploadBytes at 1. now rewrite H.
Qed.

Lemma plain_no_match (name s : string) :
  plain s = true -> regexMatch name s = None.
Proof.
  induction s as [ | c s IH ]; intros H; [ reflexivity | ].
  cbn in H. apply andb_prop in H. destruct H as [Hc Hs].
  apply negb_true_iff in Hc.
  cbn [regexMatch matchHere]. rewrite Hc. now apply IH.
Qed.

Lemma checkPatterns_adds (sev : string) (patterns : list string)
    (url destinationHost : string) (st : State) :
  exists added,
    logs (checkPatterns sev patterns url destinationHost st)
    = logs st ++ added
    /\ (List.length added <= 1)%nat
    /\ Forall
         (fun finding =>
            exists p whole v,
              In p patterns /\ regexMatch p url = Some (whole, v)
              /\ finding = anomalyEntry sev url destinationHost (whole, v))
         added
    /\ (Forall (fun p => regexMatch p url = None) patterns -> added = []).
Proof.
  induction patterns as [ | p ps IH ]; cbn [checkPatterns].
  - exists []. rewrite app_nil_r. repeat split; auto.
  - destruct (regexMatch p url) as [[whole v] | ] eqn:E.
    + exists [anomalyEntry sev url destinationHost (whole, v)].
      split; [ reflexivity | split; [ cbn; lia | split ] ].
      * constructor; [ | constructor ].
        exists p, whole, v. split; [ now left | auto ].
      * intros H. inversion H; congruence.
    + destruct IH as (added & Hl & Hn & Hf & Hnone).
      exists added. split; [ exact Hl | split; [ exact Hn | split ] ].
      * eapply Forall_impl; [ | exact Hf ].
        intros f (q & whole & v & Hq & Hm & Hf').
        exists q, whole, v. split; [ now right | auto ].
      * intros H. inversion H; auto.
Qed.

(** X12: one request gives at most one finding, however many patterns its
    URL matches, and none at all when the URL holds neither [?] nor
    [&]. *)
Theorem at_most_one_finding (destinationHost url : string)
    (uploadedBytes : Z) (st : State) :
  exists added,
    logs (Threshold.observe destinationHost uploadedBytes url st)
    = logs st ++ added
    /\ (List.length added <= 1)%nat
    /\ (plain url = true -> added = []).
Proof.
  unfold Threshold.observe. rewrite observe_logs.
  destruct (checkPatterns_adds Threshold.sevHigh AFFILIATE_PATTERNS url
              destinationHost (emptyWindow (logs st)))
    as (added & Hl & Hn & _ & Hnone).
  exists added. split; [ exact Hl | split; [ exact Hn | ] ].
  intros Hp. apply Hnone. apply Forall_forall. intros p _.
  now apply plain_no_match.
Qed.

(** X13: whatever [observe] logs is a [network_anomaly] of the request:
    it carries the URL and the host of the request, a rewritten value
    that is not empty and holds no [&], and details that quote the
    matched text. *)
Theorem findings_are_well_formed (destinationHost url : string)
    (uploadedBytes : Z) (st : State) :
  exists added,
    logs (Threshold.observe destinationHost uploadedBytes url st)
    = logs st ++ added
    /\ Forall
         (fun finding =>
            type finding = "network_anomaly"
            /\ NetworkMonitor.url finding = Some url
            /\ destination_host finding = Some destinationHost
            /\ exists whole v,
                 rewritten_value finding = Some v
                 /\ details finding
                    = ("Affiliate tag detected: " ++ whole)%string
                 /\ v <> EmptyString
                 /\ (forall d, In d (list_ascii_of_string v) ->
                               d <> "&"%char)
                 /\ exists pre post,
                      url = (pre ++ whole ++ post)%string)
         added.
Proof.
  unfold Threshold.observe. rewrite observe_logs.
  destruct (checkPatterns_adds Threshold.sevHigh AFFILIATE_PATTERNS url
              destinationHost (emptyWindow (logs st)))
    as (added & Hl & _ & Hf & _).
  exists added. split; [ exact Hl | ].
  eapply Forall_impl; [ | exact Hf ].
  intros f (p & whole & v & _ & Hm & ->).
  destruct (regexMatch_sound _ _ _ _ Hm)
    as (pre & c & key & post & Hu & _ & _ & _ & Hv & Hfree & _).
  split; [ reflexivity | split; [ reflexivity | split; [ reflexivity | ] ] ].
  exists whole, v.
  split; [ reflexivity | split; [ reflexivity | split; [ exact Hv | ] ] ].
  split; [ exact Hfree | eauto ].
Qed.

Section ListenerExtras.

Variable urlHostname : string -> option string.
Variable parseInt : string -> option Z.

Lemma find_first {A : Type} (f : A -> bool) (pre post : list A) (x : A) :
  Forall (fun y => f y = false) pre -> f x = true ->
  find f (pre ++ x :: post) = Some x.
Proof.
  induction 1 as [ | y ys Hy _ IH ]; intros Hx; cbn.
  - now rewrite Hx.
  - rewrite Hy. now apply IH.
Qed.

(** X14: the listener counts the first header whose name is
    [content-length] in any letter case: when its value parses to a
    positive number, that number is added to the total of the host of
    the request. *)
Theorem content_length_is_counted (sev : string) (details : RequestDetails)
    (st : State) (destinationHost : string)
    (pre post : list HttpHeader) (header : HttpHeader) (n : Z) :
  prefix "chrome-extension://" (reqUrl details) = false ->
  urlHostname (reqUrl details) = Some destinationHost ->
  requestHeaders details = pre ++ header :: post ->
  Forall (fun h => toLowerCase (name h) <> "content-length") pre ->
  toLowerCase (name header) = "content-length" ->
  parseInt (value header) = Some n ->
  (0 < n)%Z ->
  mapGet
    (hostUploadBytes (onBeforeSendHeaders urlHostname parseInt sev details st))
    destinationHost
  = Some (match mapGet (hostUploadBytes st) destinationHost with
          | Some v => v
          | None => 0
          end + n)%Z.
Proof.
  intros Hint Hhost Hh Hpre Hname Hparse Hn.
  unfold onBeforeSendHeaders, findContentLength.
  rewrite Hint, Hhost, Hh.
  rewrite (find_first _ pre post header).
  - rewrite Hparse, observe_window.
    apply Z.gtb_lt in Hn. rewrite Hn, mapGet_mapSet_same.
    destruct (mapGet (hostUploadBytes st) destinationHost) as [v | ];
      [ | reflexivity ].
    now destruct (Z.eqb_spec v 0); subst.
  - eapply Forall_impl; [ | exact Hpre ].
    intros h Hne. cbv beta. now apply String.eqb_neq.
  - now apply String.eqb_eq.
Qed.

(** X15: the listener leaves the whole state alone for a request of the
    extension itself and for a URL that does not parse; and it leaves
    the window alone when no header is named [content-length], when the
    value of that header is not a number, and when it is not
    positive. *)
Theorem listener_leaves_alone (sev : string) (details : RequestDetails)
    (st : State) :
  let after := onBeforeSendHeaders urlHostname parseInt sev details st in
  (prefix "chrome-extension://" (reqUrl details) = true -> after = st)
  /\ (urlHostname (reqUrl details) = None -> after = st)
  /\ (Forall (fun h => toLowerCase (name h) <> "content-length")
         (requestHeaders details) ->
      hostUploadBytes after = hostUploadBytes st)
  /\ (forall header,
        findContentLength (requestHeaders details) = Some header ->
        match parseInt (value header) with
        | Some n => (n <= 0)%Z
        | None => True
        end ->
        hostUploadBytes after = hostUploadBytes st).
Proof.
  cbv zeta. unfold onBeforeSendHeaders.
  split; [ | split; [ | split ] ].
  - now intros ->.
  - intros ->. now destruct (prefix _ _).
  - intros H.
    destruct (prefix _ _); [ reflexivity | ].
    destruct (urlHostname _); [ | reflexivity ].
    replace (findContentLength (requestHeaders details)) with
      (@None HttpHeader).
    + now rewrite observe_window.
    + symmetry. unfold findContentLength.
      induction H as [ | h hs Hh _ IH ]; cbn; [ reflexivity | ].
      apply String.eqb_neq in Hh. now rewrite Hh.
  - intros header Hfind Hvalue.
    destruct (prefix _ _); [ reflexivity | ].
    destruct (urlHostname _); [ | reflexivity ].
    rewrite Hfind, observe_window.
    destruct (parseInt (value header)) as [n | ]; [ | reflexivity ].
    destruct (Z.gtb_spec n 0); [ lia | reflexivity ].
Qed.

End ListenerExtras.

Lemma content_length_is_counted_witness :
  mapGet
    (hostUploadBytes
       (onBeforeSendHeaders Cases.sampleHostname Cases.sampleParseInt "high"
          Cases.upload (emptyWindow [])))
    "x.example"
  = Some 1000%Z.
Proof.
  apply (content_length_is_counted Cases.sampleHostname Cases.sampleParseInt
           "high" Cases.upload (emptyWindow []) "x.example"
           [ {| name := "Accept"; value := "*/*" |} ] []
           {| name := "CONTENT-LENGTH"; value := "1000" |} 1000).
  - reflexivity.
  - reflexivity.
  - reflexivity.
  - constructor; [ cbn; discriminate | constructor ].
  - reflexivity.
  - reflexivity.
  - lia.
Defined.

Lemma listener_leaves_alone_witness :
  prefix "chrome-extension://" "chrome-extension://abc/popup.html?tag=1"
  = true
  /\ onBeforeSendHeaders Cases.sampleHostname Cases.sampleParseInt "high"
       {| reqUrl := "chrome-extension://abc/popup.html?tag=1";
          requestHeaders := [] |} (emptyWindow [])
     = emptyWindow [].
Proof.
  assert (H : prefix "chrome-extension://"
                "chrome-extension://abc/popup.html?tag=1" = true)
    by reflexivity.
  split; [ exact H | ].
  apply (proj1 (listener_leaves_alone Cases.sampleHostname
                  Cases.sampleParseInt "high"
                  {| reqUrl := "chrome-extension://abc/popup.html?tag=1";
                     requestHeaders := [] |} (emptyWindow []))).
  exact H.
Defined.

End WindowExtras.

(** ** The script analysers *)

Section FindingsFacts.
Import ScriptAnalyzer Findings Samples.
Open Scope string_scope.
Open Scope list_scope.

Lemma record_nil (st : State) : record st [] = st.
Proof.
  destruct st as [b l]. unfold record. cbn.
  now rewrite orb_false_r, app_nil_r.
Qed.

Lemma record_app (st : State) (a b : list LogEntry) :
  record (record st a) b = record st (a ++ b).
Proof.
  unfold record. cbn. f_equal.
  - destruct (isSuspicious st), a, b; reflexivity.
  - now rewrite app_assoc.
Qed.

Lemma produces_ret : produces (ret tt) [].
Proof. intros st. now rewrite record_nil. Qed.

Lemma produces_one (entry : LogEntry) :
  produces (markSuspicious ;; saveLog entry) [entry].
Proof.
  intros st. unfold bind, markSuspicious, saveLog, record. cbn.
  now rewrite orb_true_r.
Qed.

Lemma produces_bind (m k : M unit) (a b : list LogEntry) :
  produces m a -> produces k b -> produces (m ;; k) (a ++ b).
Proof.
  intros Hm Hk st. unfold bind. now rewrite Hm, Hk, record_app.
Qed.

Lemma produces_forEach {A : Type} (f : A -> M unit)
    (G : A -> list LogEntry) (l : list A) :
  Forall (fun x => produces (f x) (G x)) l ->
  produces (forEach f l) (flat_map G l).
Proof.
  induction 1 as [ | x xs Hx _ IH ]; cbn.
  - apply produces_ret.
  - now apply produces_bind.
Qed.

Lemma flat_map_flat_map {A B C : Type} (f : B -> list C) (g : A -> list B)
    (l : list A) :
  flat_map f (flat_map g l) = flat_map (fun x => flat_map f (g x)) l.
Proof.
  induction l as [ | x l IH ]; cbn; [ reflexivity | ].
  now rewrite flat_map_app, IH.
Qed.

(** Induction on a tree that also hands out the items of the arrays
    among the children. *)
Lemma value_deep_ind (P : value -> Prop) :
  (forall v, isObject v = false -> P v) ->
  (forall elems,
     Forall P elems ->
     (forall items, In (VArr items) elems -> Forall P items) ->
     P (VArr elems)) ->
  (forall props,
     Forall (fun kv => P (snd kv)) props ->
     (forall k items, In (k, VArr items) props -> Forall P items) ->
     P (VObj props)) ->
  forall v, P v.
Proof.
  intros Hleaf Harr Hobj.
  assert (H : forall v,
             P v /\ match v with
                    | VArr items => Forall P items
                    | _ => True
                    end).
  { induction v as [ v Hv | elems IH | props IH ] using value_tree_ind.
    - split; [ now apply Hleaf | ].
      destruct v; try exact I. discriminate.
    - assert (Hitems : Forall P elems)
        by (eapply Forall_impl; [ | exact IH ]; now intros x [Hx _]).
      split; [ | exact Hitems ].
      apply Harr; [ exact Hitems | ].
      intros items Hin. rewrite Forall_forall in IH.
      apply (IH _ Hin).
    - split; [ | exact I ].
      apply Hobj.
      + eapply Forall_impl; [ | exact IH ]. now intros kv [Hx _].
      + intros k items Hin. rewrite Forall_forall in IH.
        apply (IH _ Hin). }
  intros v. apply H.
Qed.

Section TraverseProduces.

Variable checkNode : value -> M unit.
Variable enters : value -> bool.
Variable F : value -> list LogEntry.
Variable ok : value -> bool.
Hypothesis checkNode_produces :
  forall n, ok n = true -> produces (checkNode n) (F n).

(** The traversal finds what the rules find on the visited nodes, in
    the order of the visits. *)
Lemma traverse_produces (v : value) :
  allNodes ok v = true ->
  produces (traverse checkNode enters v)
    (flat_map F (visitOrder enters v)).
Proof.
  induction v as [ v Hv | elems IH IHitems | props IH IHitems ]
    using value_deep_ind; intros Hok.
  - destruct v; try discriminate; apply produces_ret.
  - cbn in Hok. apply andb_prop in Hok. destruct Hok as [Hn Hall].
    rewrite forallb_forall in Hall. rewrite Forall_forall in IH.
    change (produces
              (checkNode (VArr elems) ;;
               forEach (visitChild checkNode enters) elems)
              (F (VArr elems)
               ++ flat_map F (flat_map (childOrder enters) elems))).
    apply produces_bind; [ now apply checkNode_produces | ].
    rewrite flat_map_flat_map. apply produces_forEach.
    apply Forall_forall. intros x Hx.
    pose proof (Hall _ Hx) as Hxok.
    destruct x; try (unfold visitChild, childOrder;
                     destruct (enters _);
                     [ now apply IH | apply produces_ret ]).
    unfold visitChild, childOrder. rewrite flat_map_flat_map.
    apply produces_forEach.
    cbn in Hxok. apply andb_prop in Hxok. destruct Hxok as [_ Hitems].
    rewrite forallb_forall in Hitems.
    pose proof (IHitems _ Hx) as Hdeep. rewrite Forall_forall in Hdeep.
    apply Forall_forall. intros y Hy. apply Hdeep; auto.
  - cbn in Hok. apply andb_prop in Hok. destruct Hok as [Hn Hall].
    rewrite forallb_forall in Hall. rewrite Forall_forall in IH.
    change (produces
              (checkNode (VObj props) ;;
               forEach
                 (fun kv => match kv with
                            | (_, child) => visitChild checkNode enters child
                            end) props)
              (F (VObj props)
               ++ flat_map F
                    (flat_map
                       (fun kv => match kv with
                                  | (_, child) => childOrder enters child
                                  end) props))).
    apply produces_bind; [ now apply checkNode_produces | ].
    rewrite flat_map_flat_map. apply produces_forEach.
    apply Forall_forall. intros [k x] Hx.
    pose proof (Hall _ Hx) as Hxok. cbv beta iota in Hxok.
    destruct x; try (unfold visitChild, childOrder;
                     destruct (enters _);
                     [ now apply (IH _ Hx) | apply produces_ret ]).
    unfold visitChild, childOrder. rewrite flat_map_flat_map.
    apply produces_forEach.
    cbn in Hxok. apply andb_prop in Hxok. destruct Hxok as [_ Hitems].
    rewrite forallb_forall in Hitems.
    pose proof (IHitems _ _ Hx) as Hdeep. rewrite Forall_forall in Hdeep.
    apply Forall_forall. intros y Hy. apply Hdeep; auto.
Qed.

(** Every node the traversal reaches is in the order of visits. *)
Lemma visits_in_order (root n : value) :
  visits enters root n -> In n (visitOrder enters root).
Proof.
  induction 1 as
    [ n Hn
    | props k items x n Hin Hx _ IH
    | props k child n Hin Harr Hent _ IH
    | elems items x n Hin Hx _ IH
    | elems child n Hin Harr Hent _ IH ].
  - destruct n; try discriminate; now left.
  - right. apply in_flat_map. exists (k, VArr items). split; [ exact Hin | ].
    apply in_flat_map. eauto.
  - right. apply in_flat_map. exists (k, child). split; [ exact Hin | ].
    destruct child; try discriminate; now rewrite Hent.
  - right. apply in_flat_map. exists (VArr items). split; [ exact Hin | ].
    apply in_flat_map. eauto.
  - right. apply in_flat_map. exists child. split; [ exact Hin | ].
    destruct child; try discriminate; now rewrite Hent.
Qed.

End TraverseProduces.

(** *** What the rules find on one node *)

Ltac rule_cases :=
  repeat first
    [ apply produces_ret
    | apply produces_one
    | apply produces_bind
    | match goal with
      | |- produces (if ?c then _ else _) (if ?c then _ else _) =>
          destruct c
      | |- produces (match ?o with Some _ => _ | None => _ end)
             (match ?o with Some _ => _ | None => _ end) =>
          destruct o
      end ].

Lemma ts_checkNode_produces (scriptId : string) (node : value) :
  produces (TsFile.checkNode scriptId node) (tsFindings scriptId node).
Proof.
  unfold TsFile.checkNode, TsFile.logAnomaly, tsFindings. cbv zeta.
  rule_cases.
Qed.

Lemma alt_checkNode_produces (scriptId : string) (node : value) :
  produces (AltFile.checkNode scriptId node) (altFindings scriptId node).
Proof.
  unfold AltFile.checkNode, AltFile.logAnomaly, altFindings. cbv zeta.
  rule_cases.
Qed.

Lemma produces_ret_bind {A : Type} (x : A) (k : A -> M unit)
    (entries : list LogEntry) :
  produces (k x) entries -> produces (bind (ret x) k) entries.
Proof. intros H st. exact (H st). Qed.

Lemma js_checkNode_produces (scriptId : string) (node : value) :
  JsFile.safeNode node = true ->
  produces (JsFile.checkNode scriptId node) (jsFindings scriptId node).
Proof.
  unfold JsFile.safeNode, JsFile.checkNode, JsFile.logAnomaly, jsFindings.
  intros H. cbv zeta.
  apply andb_prop in H. destruct H as [H Hleft].
  apply andb_prop in H. destruct H as [Hloc Hcallee].
  assert (Hline :
            (if truthy (field node "loc")
             then start <- getProp (field node "loc") "start" ;;
                  getProp start "line"
             else ret (VNum 0))
            = ret (jsLine node)).
  { unfold jsLine. destruct (truthy (field node "loc")) eqn:Eloc;
      [ | reflexivity ].
    rewrite getProp_field by now apply truthy_not_nullish.
    change (getProp (field (field node "loc") "start") "line"
            = ret (field (field (field node "loc") "start") "line")).
    apply getProp_field. now apply negb_true_iff. }
  rewrite Hline. apply produces_ret_bind.
  apply produces_bind; [ | apply produces_bind ].
  - destruct (strEq (field node "type") "CallExpression"); cbn [andb];
      [ | apply produces_ret ].
    rewrite getProp_field by now apply negb_true_iff.
    apply produces_ret_bind. rule_cases.
  - rule_cases.
  - destruct (strEq (field node "type") "AssignmentExpression"); cbn [andb];
      [ | apply produces_ret ].
    rewrite getProp_field by now apply negb_true_iff.
    apply produces_ret_bind. rule_cases.
Qed.

(** *** What a scan logs *)

Lemma order_allNodes (enters ok : value -> bool) (v : value) :
  allNodes ok v = true ->
  Forall (fun n => ok n = true) (visitOrder enters v).
Proof.
  induction v as [ v Hv | elems IH IHitems | props IH IHitems ]
    using value_deep_ind; intros Hok.
  - destruct v; try discriminate; constructor.
  - cbn in Hok. apply andb_prop in Hok. destruct Hok as [Hn Hall].
    rewrite forallb_forall in Hall. rewrite Forall_forall in IH.
    cbn [visitOrder]. constructor; [ exact Hn | ].
    apply Forall_flat_map, Forall_forall. intros x Hx.
    pose proof (Hall _ Hx) as Hxok.
    destruct x; try (destruct (enters _); [ now apply IH | constructor ]).
    apply Forall_flat_map, Forall_forall. intros y Hy.
    cbn in Hxok. apply andb_prop in Hxok. destruct Hxok as [_ Hitems].
    rewrite forallb_forall in Hitems.
    pose proof (IHitems _ Hx) as Hdeep. rewrite Forall_forall in Hdeep.
    apply Hdeep; auto.
  - cbn in Hok. apply andb_prop in Hok. destruct Hok as [Hn Hall].
    rewrite forallb_forall in Hall. rewrite Forall_forall in IH.
    cbn [visitOrder]. constructor; [ exact Hn | ].
    apply Forall_flat_map, Forall_forall. intros [k x] Hx.
    pose proof (Hall _ Hx) as Hxok. cbv beta iota in Hxok.
    destruct x; try (destruct (enters _);
                     [ now apply (IH _ Hx) | constructor ]).
    apply Forall_flat_map, Forall_forall. intros y Hy.
    cbn in Hxok. apply andb_prop in Hxok. destruct Hxok as [_ Hitems].
    rewrite forallb_forall in Hitems.
    pose proof (IHitems _ _ Hx) as Hdeep. rewrite Forall_forall in Hdeep.
    apply Hdeep; auto.
Qed.

Lemma found_not_empty {A : Type} (x : A) (l : list A) :
  In x l -> negb (isEmpty l) = true.
Proof. destruct l; [ intros [] | reflexivity ]. Qed.

Section Scans.

Variable parseScript : string -> Error + value.

Lemma ts_scan_record (scriptContent scriptId : string) (ast : value) :
  parseScript scriptContent = inr ast ->
  TsFile.scanScriptForAnomalies parseScript scriptContent scriptId
  = (negb (isEmpty
             (flat_map (tsFindings scriptId)
                (visitOrder TsFile.enters ast))),
     flat_map (tsFindings scriptId) (visitOrder TsFile.enters ast)).
Proof.
  intros Hp.
  rewrite (ts_scan_parsed parseScript _ _ _
             (record initialState
                (flat_map (tsFindings scriptId)
                   (visitOrder TsFile.enters ast))) Hp).
  - reflexivity.
  - apply (traverse_produces _ _ _ (fun _ => true)).
    + intros n _. apply ts_checkNode_produces.
    + apply allNodes_trivial.
Qed.

Lemma alt_scan_record (scriptContent scriptId : string) (ast : value) :
  parseScript scriptContent = inr ast ->
  AltFile.scanScriptForAnomalies parseScript scriptContent scriptId
  = (negb (isEmpty
             (flat_map (altFindings scriptId)
                (visitOrder (fun _ => true) ast))),
     flat_map (altFindings scriptId) (visitOrder (fun _ => true) ast)).
Proof.
  intros Hp.
  pose proof (traverse_produces (AltFile.checkNode scriptId)
                (fun _ => true) (altFindings scriptId) (fun _ => true)
                (fun n _ => alt_checkNode_produces scriptId n) ast
                (allNodes_trivial ast) initialState) as Hrun.
  unfold AltFile.scanScriptForAnomalies, AltFile.traverse, bind.
  now rewrite Hp, Hrun.
Qed.

Lemma js_scan_record (scriptContent scriptId : string) (ast : value) :
  parseScript scriptContent = inr ast ->
  JsFile.safeTree ast = true ->
  JsFile.scanScriptForAnomalies parseScript scriptContent scriptId
  = (negb (isEmpty
             (flat_map (jsFindings scriptId)
                (visitOrder (fun _ => true) ast))),
     flat_map (jsFindings scriptId) (visitOrder (fun _ => true) ast)).
Proof.
  intros Hp Hsafe.
  rewrite (js_scan_parsed parseScript _ _ _
             (record initialState
                (flat_map (jsFindings scriptId)
                   (visitOrder (fun _ => true) ast))) Hp).
  - reflexivity.
  - apply (traverse_produces _ _ _ JsFile.safeNode).
    + intros n Hn. now apply js_checkNode_produces.
    + exact Hsafe.
Qed.

End Scans.

Lemma findings_are_anomalies (scriptId : string) (F : value -> list LogEntry)
    (order : list value) :
  (forall n e, In e (F n) ->
               type e = "script_anomaly" /\ severity e = "high"
               /\ script_id e = scriptId) ->
  Forall (fun e => type e = "script_anomaly" /\ severity e = "high"
                   /\ script_id e = scriptId)
    (flat_map F order).
Proof.
  intros H. apply Forall_flat_map, Forall_forall. intros n _.
  apply Forall_forall. intros e He. eapply H, He.
Qed.

Ltac entry_cases H :=
  repeat match type of H with
    | In _ (_ ++ _) => apply in_app_or in H; destruct H as [H | H]
    | In _ (if ?c then _ else _) => destruct c
    | In _ (match ?o with Some _ => _ | None => _ end) => destruct o
    | In _ [] => destruct H
    | In _ [_] => destruct H as [<- | []]
    end.

Lemma ts_findings_anomalies (scriptId : string) (n : value) (e : LogEntry) :
  In e (tsFindings scriptId n) ->
  type e = "script_anomaly" /\ severity e = "high"
  /\ script_id e = scriptId.
Proof.
  unfold tsFindings. cbv zeta. intros H. entry_cases H; repeat split.
Qed.

Lemma js_findings_anomalies (scriptId : string) (n : value) (e : LogEntry) :
  In e (jsFindings scriptId n) ->
  type e = "script_anomaly" /\ severity e = "high"
  /\ script_id e = scriptId.
Proof.
  unfold jsFindings. cbv zeta. intros H. entry_cases H; repeat split.
Qed.

Lemma alt_findings_anomalies (scriptId : string) (n : value) (e : LogEntry) :
  In e (altFindings scriptId n) ->
  type e = "script_anomaly" /\ severity e = "high"
  /\ script_id e = scriptId.
Proof.
  unfold altFindings. cbv zeta. intros H. entry_cases H; repeat split.
Qed.

Lemma logsExactly_record (scriptId : string) (F : value -> list LogEntry)
    (order : list value) :
  (forall n e, In e (F n) ->
               type e = "script_anomaly" /\ severity e = "high"
               /\ script_id e = scriptId) ->
  logsExactly (negb (isEmpty (flat_map F order)), flat_map F order)
    scriptId (flat_map F order).
Proof.
  intros H. unfold logsExactly. cbn [fst snd].
  split; [ reflexivity | split ].
  - now apply findings_are_anomalies.
  - destruct (flat_map _ _); cbn; split; congruence.
Qed.

(** X16: once the parser has returned, each analyser logs the findings
    of the nodes it visits, in the order of the visits, and nothing
    else: no [script_analysis_error], only [script_anomaly] entries of
    severity [high] for the script at hand; and its verdict is [true]
    exactly when it logged something.  script-analyzer.ts visits the
    children that are nodes, the third analyser and script-analyzer.js
    all of them; script-analyzer.js does so on every tree on which its
    property reads do not throw. *)
Theorem parsed_scan_logs_findings
    (parseScript : string -> Error + value)
    (scriptContent scriptId : string) (ast : value) :
  parseScript scriptContent = inr ast ->
  logsExactly
    (TsFile.scanScriptForAnomalies parseScript scriptContent scriptId)
    scriptId
    (flat_map (tsFindings scriptId) (visitOrder TsFile.enters ast))
  /\ logsExactly
       (AltFile.scanScriptForAnomalies parseScript scriptContent scriptId)
       scriptId
       (flat_map (altFindings scriptId) (visitOrder (fun _ => true) ast))
  /\ (JsFile.safeTree ast = true ->
      logsExactly
        (JsFile.scanScriptForAnomalies parseScript scriptContent scriptId)
        scriptId
        (flat_map (jsFindings scriptId) (visitOrder (fun _ => true) ast))).
Proof.
  intros Hp. split; [ | split ].
  - rewrite (ts_scan_record _ _ _ _ Hp).
    apply logsExactly_record, ts_findings_anomalies.
  - rewrite (alt_scan_record _ _ _ _ Hp).
    apply logsExactly_record, alt_findings_anomalies.
  - intros Hsafe. rewrite (js_scan_record _ _ _ _ Hp Hsafe).
    apply logsExactly_record, js_findings_anomalies.
Qed.

Lemma parsed_scan_logs_findings_witness :
  Cases.parser Cases.cookieSource = inr Cases.cookieProgram
  /\ snd (TsFile.scanScriptForAnomalies Cases.parser Cases.cookieSource
            "page")
     = [ anomalyEntry "page" "High-risk function: Writes to document.cookie"
           (VNum 1);
         anomalyEntry "page"
           "High-risk function: Obfuscation method: replace" (VNum 1) ].
Proof.
  assert (H : Cases.parser Cases.cookieSource = inr Cases.cookieProgram)
    by reflexivity.
  split; [ exact H | ].
  apply (proj1 (parsed_scan_logs_findings Cases.parser Cases.cookieSource
                  "page" Cases.cookieProgram H)).
Defined.

(** X17: when the parser throws, the third analyser logs one entry, of
    type [script_analysis_error] and severity [medium], without a
    detection source, whose details end with the message of the error,
    and answers [false]. *)
Theorem third_analyser_parse_error
    (parseScript : string -> Error + value)
    (scriptContent scriptId : string) (error : Error) :
  parseScript scriptContent = inl error ->
  AltFile.scanScriptForAnomalies parseScript scriptContent scriptId
  = (false,
     [ {| type := "script_analysis_error";
          detection_source := None;
          severity := "medium";
          script_id := scriptId;
          line_number := None;
          details := "Failed to parse: " ++ message error |} ]).
Proof.
  intros H. unfold AltFile.scanScriptForAnomalies, bind.
  now rewrite H.
Qed.

Lemma third_analyser_parse_error_witness :
  Cases.parser "eval(;" = inl {| message := "Line 1: Unexpected token )" |}
  /\ fst (AltFile.scanScriptForAnomalies Cases.parser "eval(;" "page")
     = false.
Proof.
  assert (H : Cases.parser "eval(;"
              = inl {| message := "Line 1: Unexpected token )" |})
    by reflexivity.
  split; [ exact H | ].
  now rewrite (third_analyser_parse_error Cases.parser "eval(;" "page" _ H).
Defined.

(** *** Trees with nothing to find *)

Lemma unwatched_types (n : value) :
  watched n = false ->
  strEq (field n "type") "CallExpression" = false
  /\ strEq (field n "type") "MemberExpression" = false
  /\ strEq (field n "type") "AssignmentExpression" = false.
Proof.
  unfold watched. intros H.
  apply orb_false_iff in H. destruct H as [H H3].
  apply orb_false_iff in H. destruct H as [H1 H2]. auto.
Qed.

Lemma unwatched_findings (scriptId : string) (n : value) :
  negb (watched n) = true ->
  jsFindings scriptId n = []
  /\ tsFindings scriptId n = []
  /\ altFindings scriptId n = [].
Proof.
  intros H. apply negb_true_iff in H.
  destruct (unwatched_types n H) as (H1 & H2 & H3).
  unfold jsFindings, tsFindings, altFindings.
  now rewrite H1, H2, H3.
Qed.

Lemma flat_map_nil {A B : Type} (f : A -> list B) (l : list A) :
  Forall (fun x => f x = []) l -> flat_map f l = [].
Proof.
  induction 1 as [ | x xs Hx _ IH ]; cbn; [ reflexivity | ].
  now rewrite Hx, IH.
Qed.

(** X18: a tree without a call, a member access or an assignment is
    never flagged: the three analysers answer [false] and log nothing
    (script-analyzer.js provided its property reads do not throw). *)
Theorem clean_tree_not_flagged
    (parseScript : string -> Error + value)
    (scriptContent scriptId : string) (ast : value) :
  parseScript scriptContent = inr ast ->
  allNodes (fun n => negb (watched n)) ast = true ->
  TsFile.scanScriptForAnomalies parseScript scriptContent scriptId
  = (false, [])
  /\ AltFile.scanScriptForAnomalies parseScript scriptContent scriptId
     = (false, [])
  /\ (JsFile.safeTree ast = true ->
      JsFile.scanScriptForAnomalies parseScript scriptContent scriptId
      = (false, [])).
Proof.
  intros Hp Hclean.
  assert (Hnil : forall enters (F : value -> list LogEntry),
             (forall n, negb (watched n) = true -> F n = []) ->
             flat_map F (visitOrder enters ast) = []).
  { intros enters F HF. apply flat_map_nil.
    eapply Forall_impl; [ | apply (order_allNodes enters _ _ Hclean) ].
    exact HF. }
  split; [ | split ].
  - rewrite (ts_scan_record _ _ _ _ Hp), Hnil; [ reflexivity | ].
    intros n Hn. apply (unwatched_findings scriptId n Hn).
  - rewrite (alt_scan_record _ _ _ _ Hp), Hnil; [ reflexivity | ].
    intros n Hn. apply (unwatched_findings scriptId n Hn).
  - intros Hsafe.
    rewrite (js_scan_record _ _ _ _ Hp Hsafe), Hnil; [ reflexivity | ].
    intros n Hn. apply (unwatched_findings scriptId n Hn).
Qed.

Lemma clean_tree_not_flagged_witness :
  Cases.parser "x;" = inr Cases.plainProgram
  /\ allNodes (fun n => negb (watched n)) Cases.plainProgram = true
  /\ TsFile.scanScriptForAnomalies Cases.parser "x;" "page" = (false, []).
Proof.
  assert (H : Cases.parser "x;" = inr Cases.plainProgram) by reflexivity.
  assert (Hc : allNodes (fun n => negb (watched n)) Cases.plainProgram = true)
    by reflexivity.
  split; [ exact H | split; [ exact Hc | ] ].
  apply (proj1 (clean_tree_not_flagged Cases.parser "x;" "page"
                  Cases.plainProgram H Hc)).
Defined.

(** *** The third file finds what script-analyzer.ts finds *)

Lemma visitOrder_grows (e1 e2 : value -> bool) (v : value) :
  (forall x, e1 x = true -> e2 x = true) ->
  incl (visitOrder e1 v) (visitOrder e2 v).
Proof.
  intros He.
  assert (Hflat : forall (A : Type) (f g : A -> list value) (l : list A),
             (forall x, In x l -> incl (f x) (g x)) ->
             incl (flat_map f l) (flat_map g l)).
  { intros A f g l H y Hy. apply in_flat_map in Hy.
    destruct Hy as (x & Hx & Hy). apply in_flat_map.
    exists x. split; [ exact Hx | now apply (H x Hx) ]. }
  induction v as [ v Hv | elems IH IHitems | props IH IHitems ]
    using value_deep_ind.
  - destruct v; try discriminate; apply incl_refl.
  - cbn [visitOrder]. apply incl_cons; [ now left | ].
    apply incl_tl. apply Hflat. intros x Hx.
    rewrite Forall_forall in IH.
    destruct x; try (destruct (e1 _) eqn:E1;
                     [ rewrite (He _ E1); now apply IH
                     | intros y [] ]).
    apply Hflat. intros y Hy.
    pose proof (IHitems _ Hx) as Hdeep. rewrite Forall_forall in Hdeep.
    now apply Hdeep.
  - cbn [visitOrder]. apply incl_cons; [ now left | ].
    apply incl_tl. apply Hflat. intros [k x] Hx.
    rewrite Forall_forall in IH.
    destruct x; try (destruct (e1 _) eqn:E1;
                     [ rewrite (He _ E1); now apply (IH _ Hx)
                     | intros y [] ]).
    apply Hflat. intros y Hy.
    pose proof (IHitems _ _ Hx) as Hdeep. rewrite Forall_forall in Hdeep.
    now apply Hdeep.
Qed.

Lemma includes_truthy (l : list string) (v : value) (f : string) :
  Forall (fun s => s <> "") l ->
  includes l v = Some f -> truthy v = true.
Proof.
  intros Hl. destruct v; try discriminate. cbn.
  destruct (existsb (String.eqb s) l) eqn:E; [ | discriminate ].
  intros _. apply existsb_exists in E. destruct E as (x & Hin & Heq).
  apply String.eqb_eq in Heq. subst x.
  rewrite Forall_forall in Hl. apply negb_true_iff.
  apply String.eqb_neq. now apply Hl.
Qed.

Lemma deny_lists_not_empty :
  Forall (fun s => s <> "") DANGEROUS_CALLS
  /\ Forall (fun s => s <> "") STRING_MANIPULATORS.
Proof. split; repeat constructor; discriminate. Qed.

Lemma optField_known (v : value) (k k' s : string) :
  strEq (optField v k) s = true -> optField v k' = field v k'.
Proof. destruct v; try discriminate; reflexivity. Qed.

Lemma ts_findings_in_alt (scriptId : string) (n : value) :
  incl (tsFindings scriptId n) (altFindings scriptId n).
Proof.
  unfold tsFindings, altFindings. cbv zeta.
  repeat apply incl_app_app.
  - destruct (strEq (field n "type") "CallExpression"); cbn [andb];
      [ | intros e [] ].
    destruct (strEq (optField (field n "callee") "type") "Identifier") eqn:E;
      [ | intros e [] ].
    rewrite (optField_known _ _ "name" _ E).
    destruct (includes DANGEROUS_CALLS (field (field n "callee") "name"))
      eqn:Ei; [ | intros e [] ].
    rewrite (includes_truthy _ _ _ (proj1 deny_lists_not_empty) Ei).
    apply incl_refl.
  - destruct (strEq (field n "type") "MemberExpression"); cbn [andb];
      [ | intros e [] ].
    destruct (strEq (optField (field n "property") "type") "Identifier")
      eqn:E; [ | intros e [] ].
    rewrite (optField_known _ _ "name" _ E).
    destruct (includes STRING_MANIPULATORS
                (field (field n "property") "name"))
      eqn:Ei; [ | intros e [] ].
    rewrite (includes_truthy _ _ _ (proj2 deny_lists_not_empty) Ei).
    apply incl_refl.
  - destruct (strEq (field n "type") "AssignmentExpression"); cbn [andb];
      [ | intros e [] ].
    destruct (strEq (optField (field n "left") "type") "MemberExpression")
      eqn:E; cbn [andb]; [ | intros e [] ].
    rewrite (optField_known _ _ "property" _ E).
    apply incl_refl.
Qed.

(** X19: the third analyser makes its own parse call.  When that call
    returns the tree that script-analyzer.ts parsed, the third analyser
    logs every entry that script-analyzer.ts logs and answers [true]
    whenever script-analyzer.ts does: it enters every child and tests
    less before it reports.  When that call throws, the third analyser
    answers [false] and logs none of the entries of script-analyzer.ts,
    whatever script-analyzer.ts found. *)
Theorem third_analyser_against_ts
    (parseTs parseAlt : string -> Error + value)
    (scriptContent scriptId : string) (ast : value) :
  parseTs scriptContent = inr ast ->
  let ts := TsFile.scanScriptForAnomalies parseTs scriptContent scriptId in
  let alt :=
    AltFile.scanScriptForAnomalies parseAlt scriptContent scriptId in
  match parseAlt scriptContent with
  | inr tree =>
      tree = ast ->
      incl (snd ts) (snd alt) /\ (fst ts = true -> fst alt = true)
  | inl error =>
      fst alt = false /\ forall e, In e (snd ts) -> ~ In e (snd alt)
  end.
Proof.
  intros Hp. cbv zeta. rewrite (ts_scan_record _ _ _ _ Hp). cbn [fst snd].
  destruct (parseAlt scriptContent) as [ error | tree ] eqn:Ha.
  - unfold AltFile.scanScriptForAnomalies, bind. rewrite Ha. cbn [fst snd].
    split; [ reflexivity | ].
    intros e He [ Herr | [] ].
    apply in_flat_map in He. destruct He as (n & _ & He).
    apply ts_findings_anomalies in He. destruct He as (Hty & _).
    rewrite <- Herr in Hty. discriminate.
  - intros ->. rewrite (alt_scan_record _ _ _ _ Ha). cbn [fst snd].
    assert (H : incl
                  (flat_map (tsFindings scriptId)
                     (visitOrder TsFile.enters ast))
                  (flat_map (altFindings scriptId)
                     (visitOrder (fun _ => true) ast))).
    { intros e He. apply in_flat_map in He. destruct He as (n & Hn & He).
      apply in_flat_map. exists n. split.
      - apply (visitOrder_grows TsFile.enters (fun _ => true)); auto.
      - now apply ts_findings_in_alt. }
    split; [ exact H | ].
    destruct (flat_map (tsFindings scriptId) _) as [ | e l ];
      [ discriminate | ].
    intros _. apply (found_not_empty e). apply H. now left.
Qed.

Lemma third_analyser_against_ts_witness :
  Cases.parser Cases.cookieSource = inr Cases.cookieProgram
  /\ fst (TsFile.scanScriptForAnomalies Cases.parser Cases.cookieSource
            "page") = true
  /\ fst (AltFile.scanScriptForAnomalies Cases.noParser Cases.cookieSource
            "page") = false.
Proof.
  assert (H : Cases.parser Cases.cookieSource = inr Cases.cookieProgram)
    by reflexivity.
  split; [ exact H | split; [ reflexivity | ] ].
  exact (proj1 (third_analyser_against_ts Cases.parser Cases.noParser
                  Cases.cookieSource "page" Cases.cookieProgram H)).
Defined.

(** *** Cookie writes and string manipulators *)

Lemma line_known (node : value) (line : Z) :
  field (field (field node "loc") "start") "line" = VNum line ->
  TsFile.lineOf node = VNum line /\ jsLine node = VNum line.
Proof.
  intros H. unfold TsFile.lineOf, jsLine.
  destruct (field node "loc") as [ | | | | | | loc ]; try discriminate.
  cbn [optField truthy].
  destruct (field (VObj loc) "start") as [ | | | | | | start ];
    try discriminate.
  cbn [optField]. rewrite H. split; [ | reflexivity ].
  cbn [truthy]. destruct (Z.eqb_spec line 0); subst; reflexivity.
Qed.

Lemma visited_finding (enters : value -> bool) (F : value -> list LogEntry)
    (ast n : value) (e : LogEntry) :
  visits enters ast n -> In e (F n) ->
  flags (negb (isEmpty (flat_map F (visitOrder enters ast))),
         flat_map F (visitOrder enters ast)) e.
Proof.
  intros Hv He.
  assert (H : In e (flat_map F (visitOrder enters ast))).
  { apply in_flat_map. exists n. split; [ | exact He ].
    now apply visits_in_order. }
  split; [ now apply (found_not_empty e) | exact H ].
Qed.

Lemma typed_node_visited (ast n : value) (t : string) :
  contains ast n -> field n "type" = VStr t ->
  visits (fun _ => true) ast n.
Proof.
  intros Hc Ht.
  destruct (field_object n "type") as (ps & ->); [ congruence | ].
  now apply contains_visits.
Qed.

Lemma ts_typed_node_visited (ast n : value) (t : string) :
  TsFile.nodesUnderNodes ast = true ->
  contains ast n -> field n "type" = VStr t -> t <> "" ->
  visits TsFile.enters ast n.
Proof.
  intros Hast Hc Ht Hne.
  assert (Htr : truthy (field n "type") = true).
  { rewrite Ht. cbn. apply negb_true_iff. now apply String.eqb_neq. }
  destruct (field_object n "type") as (ps & ->); [ congruence | ].
  apply contains_visits; auto.
  intros u Hu Hun Ha. now apply (ts_path_entered ast (VObj ps)).
Qed.

Section Found.

Variable parseScript : string -> Error + value.
Variable scriptContent : string.
Variable scriptId : string.
Variable ast : value.
Hypothesis parsed : parseScript scriptContent = inr ast.

Lemma js_scan_finds (n : value) (t : string) (e : LogEntry) :
  JsFile.safeTree ast = true ->
  contains ast n -> field n "type" = VStr t ->
  In e (jsFindings scriptId n) ->
  flags (JsFile.scanScriptForAnomalies parseScript scriptContent scriptId) e.
Proof.
  intros Hsafe Hc Ht He.
  rewrite (js_scan_record _ _ _ _ parsed Hsafe).
  apply (visited_finding _ _ _ n); [ | exact He ].
  now apply (typed_node_visited _ _ t).
Qed.

Lemma ts_scan_finds (n : value) (t : string) (e : LogEntry) :
  TsFile.nodesUnderNodes ast = true ->
  contains ast n -> field n "type" = VStr t -> t <> "" ->
  In e (tsFindings scriptId n) ->
  flags (TsFile.scanScriptForAnomalies parseScript scriptContent scriptId) e.
Proof.
  intros Hast Hc Ht Hne He.
  rewrite (ts_scan_record _ _ _ _ parsed).
  apply (visited_finding _ _ _ n); [ | exact He ].
  now apply (ts_typed_node_visited _ _ t).
Qed.

Lemma alt_scan_finds (n : value) (t : string) (e : LogEntry) :
  contains ast n -> field n "type" = VStr t ->
  In e (altFindings scriptId n) ->
  flags (AltFile.scanScriptForAnomalies parseScript scriptContent scriptId) e.
Proof.
  intros Hc Ht He.
  rewrite (alt_scan_record _ _ _ _ parsed).
  apply (visited_finding _ _ _ n); [ | exact He ].
  now apply (typed_node_visited _ _ t).
Qed.

End Found.

Lemma cookie_findings (scriptId : string) (node : value) (line : Z) :
  isCookieWrite node line ->
  In (anomalyEntry scriptId
        "High-risk structural anomaly found: Direct assignment to 'document.cookie'"
        (VNum line))
    (jsFindings scriptId node)
  /\ In (anomalyEntry scriptId "High-risk function: Writes to document.cookie"
           (VNum line))
       (tsFindings scriptId node)
  /\ In (anomalyEntry scriptId "High-risk function: Writes to document.cookie"
           (VNum line))
       (altFindings scriptId node).
Proof.
  intros (Ht & Hlt & Hname & Hline).
  destruct (line_known _ _ Hline) as [Hts Hjs].
  unfold jsFindings, tsFindings, altFindings. cbv zeta.
  rewrite Ht, Hts, Hjs.
  destruct (field_object (field node "left") "type") as (left & Hleft);
    [ congruence | ].
  destruct (field_object (field (field node "left") "property") "name")
    as (prop & Hprop); [ congruence | ].
  rewrite Hleft in *. cbn [optField]. rewrite Hlt, Hprop in *.
  cbn [optField]. rewrite Hname.
  split; [ | split ];
    apply in_or_app; right; apply in_or_app; right; now left.
Qed.

Lemma manipulator_findings (scriptId : string) (node : value) (p : string)
    (line : Z) :
  isManipulatorAccess node p line ->
  In (anomalyEntry scriptId
        ("High-risk structural anomaly found: Obfuscation method detected: "
         ++ p)
        (VNum line))
    (jsFindings scriptId node)
  /\ In (anomalyEntry scriptId
           ("High-risk function: Obfuscation method: " ++ p) (VNum line))
       (tsFindings scriptId node)
  /\ In (anomalyEntry scriptId
           ("High-risk function: Obfuscation method: " ++ p) (VNum line))
       (altFindings scriptId node).
Proof.
  intros (Ht & Hpt & Hname & Hp & Hline).
  destruct (line_known _ _ Hline) as [Hts Hjs].
  unfold jsFindings, tsFindings, altFindings. cbv zeta.
  rewrite Ht, Hts, Hjs.
  destruct (field_object (field node "property") "type") as (prop & Hprop);
    [ congruence | ].
  rewrite Hprop in *. cbn [optField truthy]. rewrite Hpt, Hname.
  rewrite (includes_member _ _ Hp).
  assert (Htr : truthy (VStr p) = true).
  { apply (includes_truthy STRING_MANIPULATORS _ p);
      [ apply deny_lists_not_empty | now apply includes_member ]. }
  rewrite Htr.
  split; [ | split ]; apply in_or_app; right; apply in_or_app; left;
    now left.
Qed.

(** X20: an assignment to a member named [cookie], of whatever object,
    anywhere in the parsed tree, makes the analysers answer [true] and
    log a [script_anomaly] finding of severity [high] whose
    [line_number] is the line on which the assignment starts:
    script-analyzer.js on trees on which its property reads do not
    throw, script-analyzer.ts on trees whose nodes sit under nodes and
    arrays only, the third analyser whenever its own parse call returns
    the tree. *)
Theorem cookie_write_flagged
    (parseScript parseAlt : string -> Error + value)
    (scriptContent scriptId : string) (ast node : value) (line : Z) :
  parseScript scriptContent = inr ast ->
  contains ast node ->
  isCookieWrite node line ->
  (JsFile.safeTree ast = true ->
   flags (JsFile.scanScriptForAnomalies parseScript scriptContent scriptId)
     {| type := "script_anomaly";
        detection_source := Some "static_analysis";
        severity := "high";
        script_id := scriptId;
        line_number := Some (VNum line);
        details :=
          "High-risk structural anomaly found: Direct assignment to 'document.cookie'" |})
  /\ (TsFile.nodesUnderNodes ast = true ->
      flags (TsFile.scanScriptForAnomalies parseScript scriptContent
               scriptId)
        {| type := "script_anomaly";
           detection_source := Some "static_analysis";
           severity := "high";
           script_id := scriptId;
           line_number := Some (VNum line);
           details := "High-risk function: Writes to document.cookie" |})
  /\ (parseAlt scriptContent = inr ast ->
      flags (AltFile.scanScriptForAnomalies parseAlt scriptContent
               scriptId)
        {| type := "script_anomaly";
           detection_source := Some "static_analysis";
           severity := "high";
           script_id := scriptId;
           line_number := Some (VNum line);
           details := "High-risk function: Writes to document.cookie" |}).
Proof.
  intros Hp Hc Hw.
  destruct (cookie_findings scriptId _ _ Hw) as (Hjs & Hts & Halt).
  destruct Hw as (Ht & _).
  split; [ | split ].
  - intros Hsafe.
    exact (js_scan_finds _ _ _ ast Hp node _ _ Hsafe Hc Ht Hjs).
  - intros Hast.
    apply (ts_scan_finds _ _ _ ast Hp node _ _ Hast Hc Ht);
      [ discriminate | exact Hts ].
  - intros Ha. exact (alt_scan_finds _ _ _ ast Ha node _ _ Hc Ht Halt).
Qed.

Lemma cookieWrite_contained : contains Cases.cookieProgram Cases.cookieWrite.
Proof.
  eapply contains_prop; [ right; left; reflexivity | ].
  eapply contains_elem; [ left; reflexivity | ].
  eapply contains_prop; [ right; left; reflexivity | ].
  apply contains_self.
Qed.

Lemma cookie_write_flagged_witness :
  Cases.parser Cases.cookieSource = inr Cases.cookieProgram
  /\ contains Cases.cookieProgram Cases.cookieWrite
  /\ isCookieWrite Cases.cookieWrite 1
  /\ JsFile.safeTree Cases.cookieProgram = true
  /\ TsFile.nodesUnderNodes Cases.cookieProgram = true
  /\ flags (JsFile.scanScriptForAnomalies Cases.parser Cases.cookieSource
              "page")
       {| type := "script_anomaly";
          detection_source := Some "static_analysis";
          severity := "high";
          script_id := "page";
          line_number := Some (VNum 1);
          details :=
            "High-risk structural anomaly found: Direct assignment to 'document.cookie'" |}
  /\ flags (TsFile.scanScriptForAnomalies Cases.parser Cases.cookieSource
              "page")
       {| type := "script_anomaly";
          detection_source := Some "static_analysis";
          severity := "high";
          script_id := "page";
          line_number := Some (VNum 1);
          details := "High-risk function: Writes to document.cookie" |}.
Proof.
  assert (Hp : Cases.parser Cases.cookieSource = inr Cases.cookieProgram)
    by reflexivity.
  pose proof cookieWrite_contained as Hc.
  assert (Hw : isCookieWrite Cases.cookieWrite 1).
  { split; [ reflexivity | split; [ reflexivity | split; reflexivity ] ]. }
  assert (Hsafe : JsFile.safeTree Cases.cookieProgram = true) by reflexivity.
  assert (Hast : TsFile.nodesUnderNodes Cases.cookieProgram = true)
    by reflexivity.
  destruct (cookie_write_flagged Cases.parser Cases.noParser
              Cases.cookieSource "page" Cases.cookieProgram
              Cases.cookieWrite 1 Hp Hc Hw) as (Hjs & Hts & _).
  split; [ exact Hp | split; [ exact Hc | split; [ exact Hw | ] ] ].
  split; [ exact Hsafe | split; [ exact Hast | ] ].
  split; [ exact (Hjs Hsafe) | exact (Hts Hast) ].
Defined.

(** X21: a member access through an identifier named after one of the
    string manipulators, anywhere in the parsed tree, makes the
    analysers answer [true] and log a [script_anomaly] finding of
    severity [high] whose details name the method and whose
    [line_number] is the line on which the access starts, under the
    same conditions on the tree. *)
Theorem manipulator_access_flagged
    (parseScript parseAlt : string -> Error + value)
    (scriptContent scriptId : string) (ast node : value)
    (p : string) (line : Z) :
  parseScript scriptContent = inr ast ->
  contains ast node ->
  isManipulatorAccess node p line ->
  (JsFile.safeTree ast = true ->
   flags (JsFile.scanScriptForAnomalies parseScript scriptContent scriptId)
     {| type := "script_anomaly";
        detection_source := Some "static_analysis";
        severity := "high";
        script_id := scriptId;
        line_number := Some (VNum line);
        details :=
          "High-risk structural anomaly found: Obfuscation method detected: "
          ++ p |})
  /\ (TsFile.nodesUnderNodes ast = true ->
      flags (TsFile.scanScriptForAnomalies parseScript scriptContent
               scriptId)
        {| type := "script_anomaly";
           detection_source := Some "static_analysis";
           severity := "high";
           script_id := scriptId;
           line_number := Some (VNum line);
           details := "High-risk function: Obfuscation method: " ++ p |})
  /\ (parseAlt scriptContent = inr ast ->
      flags (AltFile.scanScriptForAnomalies parseAlt scriptContent
               scriptId)
        {| type := "script_anomaly";
           detection_source := Some "static_analysis";
           severity := "high";
           script_id := scriptId;
           line_number := Some (VNum line);
           details := "High-risk function: Obfuscation method: " ++ p |}).
Proof.
  intros Hp Hc Hm.
  destruct (manipulator_findings scriptId _ _ _ Hm) as (Hjs & Hts & Halt).
  destruct Hm as (Ht & _).
  split; [ | split ].
  - intros Hsafe.
    exact (js_scan_finds _ _ _ ast Hp node _ _ Hsafe Hc Ht Hjs).
  - intros Hast.
    apply (ts_scan_finds _ _ _ ast Hp node _ _ Hast Hc Ht);
      [ discriminate | exact Hts ].
  - intros Ha. exact (alt_scan_finds _ _ _ ast Ha node _ _ Hc Ht Halt).
Qed.

Lemma replace_contained :
  contains Cases.cookieProgram (Cases.memberOf "name" "replace").
Proof.
  eapply contains_prop; [ right; left; reflexivity | ].
  eapply contains_elem; [ left; reflexivity | ].
  eapply contains_prop; [ right; left; reflexivity | ].
  eapply contains_prop; [ right; right; right; left; reflexivity | ].
  eapply contains_prop; [ right; left; reflexivity | ].
  apply contains_self.
Qed.

Lemma manipulator_access_flagged_witness :
  Cases.parser Cases.cookieSource = inr Cases.cookieProgram
  /\ contains Cases.cookieProgram (Cases.memberOf "name" "replace")
  /\ isManipulatorAccess (Cases.memberOf "name" "replace") "replace" 1
  /\ JsFile.safeTree Cases.cookieProgram = true
  /\ TsFile.nodesUnderNodes Cases.cookieProgram = true
  /\ flags (JsFile.scanScriptForAnomalies Cases.parser Cases.cookieSource
              "page")
       {| type := "script_anomaly";
          detection_source := Some "static_analysis";
          severity := "high";
          script_id := "page";
          line_number := Some (VNum 1);
          details :=
            "High-risk structural anomaly found: Obfuscation method detected: replace" |}
  /\ flags (TsFile.scanScriptForAnomalies Cases.parser Cases.cookieSource
              "page")
       {| type := "script_anomaly";
          detection_source := Some "static_analysis";
          severity := "high";
          script_id := "page";
          line_number := Some (VNum 1);
          details := "High-risk function: Obfuscation method: replace" |}.
Proof.
  assert (Hp : Cases.parser Cases.cookieSource = inr Cases.cookieProgram)
    by reflexivity.
  pose proof replace_contained as Hc.
  assert (Hm : isManipulatorAccess (Cases.memberOf "name" "replace")
                 "replace" 1).
  { split; [ reflexivity | split; [ reflexivity | split; [ reflexivity | ] ] ].
    split; [ cbn; auto 10 | reflexivity ]. }
  assert (Hsafe : JsFile.safeTree Cases.cookieProgram = true) by reflexivity.
  assert (Hast : TsFile.nodesUnderNodes Cases.cookieProgram = true)
    by reflexivity.
  destruct (manipulator_access_flagged Cases.parser Cases.noParser
              Cases.cookieSource "page" Cases.cookieProgram
              (Cases.memberOf "name" "replace") "replace" 1 Hp Hc Hm)
    as (Hjs & Hts & _).
  split; [ exact Hp | split; [ exact Hc | split; [ exact Hm | ] ] ].
  split; [ exact Hsafe | split; [ exact Hast | ] ].
  split; [ exact (Hjs Hsafe) | exact (Hts Hast) ].
Defined.

End FindingsFacts.
(** ** The log store *)

Section StorageFacts.

Import ScriptAnalyzer LogStorage.
Open Scope string_scope.

Lemma lookup_setProp_same (k : string) (v : value)
    (props : list (string * value)) :
  lookup k (setProp k v props) = v.
Proof.
  induction props as [ | [k' v'] rest IH ]; cbn.
  - now rewrite String.eqb_refl.
  - destruct (String.eqb k' k) eqn:E; cbn.
    + now rewrite String.eqb_refl.
    + now rewrite E.
Qed.

Lemma lookup_setProp_other (k k2 : string) (v : value)
    (props : list (string * value)) :
  k2 <> k -> lookup k2 (setProp k v props) = lookup k2 props.
Proof.
  intros Hne.
  assert (E0 : String.eqb k k2 = false)
    by (apply String.eqb_neq; congruence).
  induction props as [ | [k' v'] rest IH ]; cbn.
  - now rewrite E0.
  - destruct (String.eqb k' k) eqn:E; cbn.
    + apply String.eqb_eq in E. subst k'. now rewrite E0.
    + destruct (String.eqb k' k2); [ reflexivity | exact IH ].
Qed.

Lemma getLogs_saveLogWrite (e : list (string * value)) (now : Z)
    (currentLogs : value) (st : Storage) :
  getLogs (saveLogWrite e now currentLogs st)
  = fullLog e now :: arrayOrEmpty currentLogs.
Proof.
  unfold getLogs, saveLogWrite, storageGet, storageSet.
  now rewrite lookup_setProp_same.
Qed.

Lemma getLogs_saveLog (e : list (string * value)) (now : Z) (st : Storage) :
  getLogs (saveLog e now st) = fullLog e now :: getLogs st.
Proof. apply getLogs_saveLogWrite. Qed.

Lemma saveLog_other_keys (e : list (string * value)) (now : Z)
    (st : Storage) (key : string) :
  key <> LOG_KEY ->
  storageGet (saveLog e now st) key = storageGet st key.
Proof.
  intros Hne. unfold saveLog, saveLogWrite, storageGet, storageSet.
  now apply lookup_setProp_other.
Qed.

(** X22: entries saved one after the other are all read back by
    [getLogs], the newest first, in front of what the store held; a
    store whose [security_logs] is not an array counts as empty; and no
    other key of the store changes. *)
Theorem saved_logs_are_read_back
    (entries : list (list (string * value) * Z)) (st : Storage) :
  getLogs (saveAll entries st)
  = (rev (map (fun e => fullLog (fst e) (snd e)) entries) ++ getLogs st)%list
  /\ forall key, key <> LOG_KEY ->
       storageGet (saveAll entries st) key = storageGet st key.
Proof.
  revert st. induction entries as [ | e rest IH ]; intros st.
  - split; reflexivity.
  - destruct (IH (saveLog (fst e) (snd e) st)) as [Hlogs Hkeys].
    unfold saveAll in *. cbn [fold_left map rev]. split.
    + rewrite Hlogs, getLogs_saveLog, <- app_assoc. reflexivity.
    + intros key Hne. rewrite (Hkeys key Hne).
      now apply saveLog_other_keys.
Qed.

(** X23: the entry that [saveLog] stores carries the time of the save
    as its [timestamp], whatever [timestamp] the caller gave, and every
    other property as the caller gave it. *)
Theorem timestamp_is_replaced
    (newLogEntry : list (string * value)) (now : Z) (st : Storage) :
  exists stored,
    getLogs (saveLog newLogEntry now st) = stored :: getLogs st
    /\ field stored "timestamp" = VNum now
    /\ forall k, k <> "timestamp" -> field stored k = lookup k newLogEntry.
Proof.
  exists (fullLog newLogEntry now). split; [ apply getLogs_saveLog | ].
  unfold fullLog. cbn [field]. split.
  - apply lookup_setProp_same.
  - intros k Hne. now apply lookup_setProp_other.
Qed.

(** X24: [saveLog] reads, waits, and writes.  Of two calls that both
    read before either writes, only the entry of the second writer is
    kept: the entry of the first is lost, where two calls in a row keep
    both. *)
Theorem overlapping_saves_keep_one
    (first second : list (string * value)) (now1 now2 : Z) (st : Storage) :
  let currentLogs := storageGet st LOG_KEY in
  getLogs
    (saveLogWrite second now2 currentLogs
       (saveLogWrite first now1 currentLogs st))
  = fullLog second now2 :: getLogs st
  /\ getLogs (saveLog second now2 (saveLog first now1 st))
     = fullLog second now2 :: fullLog first now1 :: getLogs st.
Proof.
  cbv zeta. split.
  - apply getLogs_saveLogWrite.
  - now rewrite !getLogs_saveLog.
Qed.

End StorageFacts.

(** ** The permission check *)

Section ConflictFacts.

Import ConflictChecker.
Open Scope string_scope.

Lemma fold_found {A : Type} (p : A -> bool) (l init : list A) :
  fold_left (fun found x => if p x then (found ++ [x])%list else found)
    l init
  = (init ++ filter p l)%list.
Proof.
  revert init. induction l as [ | x l IH ]; intros init; cbn.
  - now rewrite app_nil_r.
  - rewrite IH. destruct (p x); [ now rewrite <- app_assoc | reflexivity ].
Qed.

Lemma foundPermissions_filter (sensitive : list string)
    (ext : Management.ExtensionInfo) :
  foundPermissions sensitive ext = filter (holds ext) sensitive.
Proof. unfold foundPermissions. now rewrite fold_found. Qed.

Lemma filter_nil_existsb {A : Type} (p : A -> bool) (l : list A) :
  filter p l = [] <-> existsb p l = false.
Proof.
  induction l as [ | x l IH ]; cbn; [ tauto | ].
  destruct (p x); cbn; [ split; discriminate | exact IH ].
Qed.

Section Loop.

Variable sensitive : list string.
Variable stamp : option string.
Variable runtimeId : string.

Lemma checkExtension_reported (st : State) (ext : Management.ExtensionInfo) :
  checkExtension sensitive stamp runtimeId st ext
  = if reported sensitive runtimeId ext
    then {| conflictCount := S (conflictCount st);
            logs := (logs st ++ [conflictEntry sensitive stamp ext])%list |}
    else st.
Proof.
  unfold checkExtension, reported.
  destruct (skipped runtimeId ext); [ reflexivity | ]. cbn [negb andb].
  destruct (existsb (holds ext) sensitive) eqn:E.
  - destruct (foundPermissions sensitive ext) eqn:F; [ | reflexivity ].
    rewrite foundPermissions_filter in F.
    apply filter_nil_existsb in F. congruence.
  - apply filter_nil_existsb in E.
    now rewrite foundPermissions_filter, E.
Qed.

Lemma check_loop (extensions : list Management.ExtensionInfo) (st : State) :
  fold_left (checkExtension sensitive stamp runtimeId) extensions st
  = {| conflictCount :=
         conflictCount st
         + List.length (filter (reported sensitive runtimeId) extensions);
       logs :=
         (logs st
          ++ map (conflictEntry sensitive stamp)
               (filter (reported sensitive runtimeId) extensions))%list |}.
Proof.
  revert st. induction extensions as [ | ext rest IH ]; intros st.
  - cbn. rewrite Nat.add_0_r, app_nil_r. now destruct st.
  - cbn [fold_left filter]. rewrite IH, checkExtension_reported.
    destruct (reported sensitive runtimeId ext); [ | reflexivity ].
    cbn [conflictCount logs map List.length].
    rewrite <- app_assoc, Nat.add_succ_r. reflexivity.
Qed.

Lemma check_filter (extensions : list Management.ExtensionInfo) :
  check sensitive stamp runtimeId (Some extensions)
  = (Some (List.length (filter (reported sensitive runtimeId) extensions)),
     map (conflictEntry sensitive stamp)
       (filter (reported sensitive runtimeId) extensions)).
Proof. unfold check. rewrite check_loop. reflexivity. Qed.

Lemma check_entry (getAll : option (list Management.ExtensionInfo))
    (e : LogEntry) :
  In e (snd (check sensitive stamp runtimeId getAll)) ->
  exists extensions ext,
    getAll = Some extensions /\ In ext extensions
    /\ reported sensitive runtimeId ext = true
    /\ e = conflictEntry sensitive stamp ext.
Proof.
  destruct getAll as [ extensions | ]; [ | intros [] ].
  rewrite check_filter. cbn [snd]. intros H.
  apply in_map_iff in H. destruct H as (ext & <- & Hin).
  apply filter_In in Hin. destruct Hin as [Hin Hrep].
  exists extensions, ext. auto.
Qed.

Lemma entry_shape (ext : Management.ExtensionInfo) :
  NoDup sensitive ->
  reported sensitive runtimeId ext = true ->
  let e := conflictEntry sensitive stamp ext in
  extension_id e <> runtimeId
  /\ sensitive_permissions_found e <> []
  /\ NoDup (sensitive_permissions_found e)
  /\ incl (sensitive_permissions_found e) sensitive.
Proof.
  intros Hnd Hrep. cbv zeta. unfold conflictEntry.
  cbn [extension_id sensitive_permissions_found].
  rewrite foundPermissions_filter.
  unfold reported in Hrep. apply andb_prop in Hrep.
  destruct Hrep as [Hskip Hex]. apply negb_true_iff in Hskip.
  unfold skipped in Hskip.
  apply orb_false_iff in Hskip. destruct Hskip as [Hskip _].
  apply orb_false_iff in Hskip. destruct Hskip as [Hid _].
  split; [ now apply String.eqb_neq | split; [ | split ] ].
  - intros Hnil. apply filter_nil_existsb in Hnil. congruence.
  - now apply NoDup_filter.
  - intros x Hx. apply filter_In in Hx. tauto.
Qed.

End Loop.

(** X25: the check saves one entry for each installed extension that is
    not the extension itself, is of type [extension], is enabled and
    holds a sensitive permission among its permissions or its host
    permissions; it saves them in the order of the installed
    extensions, each with the permissions found in the order of the
    list, and prints their number.  When the list of installed
    extensions cannot be had, it saves nothing. *)
Theorem conflict_check_reports
    (sensitive : list string) (stamp : option string) (runtimeId : string)
    (extensions : list Management.ExtensionInfo) :
  let kept := filter (reported sensitive runtimeId) extensions in
  check sensitive stamp runtimeId (Some extensions)
  = (Some (List.length kept), map (conflictEntry sensitive stamp) kept)
  /\ (forall ext,
        sensitive_permissions_found (conflictEntry sensitive stamp ext)
        = filter (holds ext) sensitive)
  /\ check sensitive stamp runtimeId None = (None, []).
Proof.
  cbv zeta. split; [ apply check_filter | split; [ | reflexivity ] ].
  intros ext. apply foundPermissions_filter.
Qed.

Lemma sensitive_lists :
  NoDup JsFile.SENSITIVE_PERMISSIONS
  /\ NoDup TsFile.SENSITIVE_PERMISSIONS
  /\ TsFile.SENSITIVE_PERMISSIONS
     = (JsFile.SENSITIVE_PERMISSIONS ++ ["management"])%list
  /\ forallb (fun p => negb (String.eqb p "management"))
       JsFile.SENSITIVE_PERMISSIONS = true.
Proof.
  split; [ | split; [ | split; reflexivity ] ].
  - repeat constructor; cbn; intuition discriminate.
  - repeat constructor; cbn; intuition discriminate.
Qed.

(** X26: no entry of either file is about the extension itself; each
    names at least one permission, no permission twice, and only
    permissions of the list of its file. *)
Theorem conflict_entries_shape
    (runtimeId now : string)
    (getAll : option (list Management.ExtensionInfo)) (e : LogEntry) :
  In e (snd (JsFile.runConflictCheck runtimeId getAll))
  \/ In e (snd (TsFile.runConflictCheck runtimeId now getAll)) ->
  extension_id e <> runtimeId
  /\ sensitive_permissions_found e <> []
  /\ NoDup (sensitive_permissions_found e)
  /\ incl (sensitive_permissions_found e) TsFile.SENSITIVE_PERMISSIONS
  /\ type e = "extension_conflict"
  /\ severity e = "medium".
Proof.
  destruct sensitive_lists as (Hjs & Hts & Happ & _).
  intros [H | H]; apply check_entry in H;
    destruct H as (extensions & ext & _ & _ & Hrep & ->).
  - destruct (entry_shape _ None _ ext Hjs Hrep) as (H1 & H2 & H3 & H4).
    split; [ exact H1 | split; [ exact H2 | split; [ exact H3 | ] ] ].
    split; [ | split; reflexivity ].
    intros x Hx. rewrite Happ. apply in_or_app. left. now apply H4.
  - destruct (entry_shape _ (Some now) _ ext Hts Hrep)
      as (H1 & H2 & H3 & H4).
    split; [ exact H1 | split; [ exact H2 | split; [ exact H3 | ] ] ].
    split; [ exact H4 | split; reflexivity ].
Qed.

Lemma conflict_entries_shape_witness :
  let e :=
    conflictEntry JsFile.SENSITIVE_PERMISSIONS None Installed.blocker in
  In e (snd (JsFile.runConflictCheck "self" (Some Installed.all)))
  /\ sensitive_permissions_found e = ["webRequest"; "tabs"; "<all_urls>"]
  /\ extension_id e <> "self".
Proof.
  cbv zeta.
  assert (H : In (conflictEntry JsFile.SENSITIVE_PERMISSIONS None
                    Installed.blocker)
                (snd (JsFile.runConflictCheck "self" (Some Installed.all))))
    by (left; reflexivity).
  split; [ exact H | split; [ reflexivity | ] ].
  apply (conflict_entries_shape "self" "" (Some Installed.all) _
           (or_introl H)).
Defined.

Lemma filter_all {A : Type} (p : A -> bool) (l : list A) :
  forallb p l = true -> filter p l = l.
Proof.
  induction l as [ | x l IH ]; cbn; [ reflexivity | ].
  intros H. apply andb_prop in H. destruct H as [Hx Hl].
  now rewrite Hx, IH.
Qed.

Lemma forallb_filter {A : Type} (p q : A -> bool) (l : list A) :
  forallb p l = true -> forallb p (filter q l) = true.
Proof.
  induction l as [ | x l IH ]; cbn; [ reflexivity | ].
  intros H. apply andb_prop in H. destruct H as [Hx Hl].
  destruct (q x); cbn; [ rewrite Hx | ]; auto.
Qed.

Lemma filter_length_le {A : Type} (p q : A -> bool) (l : list A) :
  (forall x, p x = true -> q x = true) ->
  (List.length (filter p l) <= List.length (filter q l))%nat.
Proof.
  intros H. induction l as [ | x l IH ]; cbn; [ lia | ].
  destruct (p x) eqn:E.
  - rewrite (H x E). cbn. lia.
  - destruct (q x); cbn; lia.
Qed.

Lemma reported_js_ts (runtimeId : string) (ext : Management.ExtensionInfo) :
  reported JsFile.SENSITIVE_PERMISSIONS runtimeId ext = true ->
  reported TsFile.SENSITIVE_PERMISSIONS runtimeId ext = true.
Proof.
  unfold reported. intros H. apply andb_prop in H. destruct H as [Hs He].
  rewrite Hs. cbn [andb].
  destruct sensitive_lists as (_ & _ & -> & _).
  rewrite existsb_app, He. reflexivity.
Qed.

(** X27: whatever conflict-checker.js reports, conflict-checker.ts
    reports too: for each entry of the first there is one of the second
    about the same extension, whose permissions are those of the first
    with [management] added when the extension holds it; and the second
    counts at least as many. *)
Theorem ts_check_covers_js
    (runtimeId now : string)
    (extensions : list Management.ExtensionInfo) (e : LogEntry) :
  In e (snd (JsFile.runConflictCheck runtimeId (Some extensions))) ->
  (exists e',
     In e' (snd (TsFile.runConflictCheck runtimeId now (Some extensions)))
     /\ extension_id e' = extension_id e
     /\ extension_name e' = extension_name e
     /\ filter (fun p => negb (String.eqb p "management"))
          (sensitive_permissions_found e')
        = sensitive_permissions_found e)
  /\ (forall n m,
        fst (JsFile.runConflictCheck runtimeId (Some extensions)) = Some n ->
        fst (TsFile.runConflictCheck runtimeId now (Some extensions))
        = Some m ->
        (n <= m)%nat).
Proof.
  intros H. split.
  - apply check_entry in H.
    destruct H as (exts & ext & Heq & Hin & Hrep & ->).
    inversion Heq; subst exts.
    exists (conflictEntry TsFile.SENSITIVE_PERMISSIONS (Some now) ext).
    split; [ | split; [ reflexivity | split; [ reflexivity | ] ] ].
    + unfold TsFile.runConflictCheck. rewrite check_filter. cbn [snd].
      apply in_map, filter_In. split; [ exact Hin | ].
      now apply reported_js_ts.
    + unfold conflictEntry. cbn [sensitive_permissions_found].
      rewrite !foundPermissions_filter.
      destruct sensitive_lists as (_ & _ & -> & Hnot).
      rewrite !filter_app.
      rewrite (filter_all _ (filter (holds ext) JsFile.SENSITIVE_PERMISSIONS))
        by now apply forallb_filter.
      cbn [filter]. destruct (holds ext "management"); cbn;
        now rewrite app_nil_r.
  - intros n m. unfold JsFile.runConflictCheck, TsFile.runConflictCheck.
    rewrite !check_filter. cbn [fst]. intros Hn Hm.
    inversion Hn; inversion Hm; subst.
    apply filter_length_le. apply reported_js_ts.
Qed.

Lemma ts_check_covers_js_witness :
  let e :=
    conflictEntry JsFile.SENSITIVE_PERMISSIONS None Installed.blocker in
  In e (snd (JsFile.runConflictCheck "self" (Some Installed.all)))
  /\ exists e',
       In e'
         (snd (TsFile.runConflictCheck "self" "now" (Some Installed.all)))
       /\ extension_id e' = extension_id e
       /\ extension_name e' = extension_name e
       /\ filter (fun p => negb (String.eqb p "management"))
            (sensitive_permissions_found e')
          = sensitive_permissions_found e.
Proof.
  cbv zeta.
  assert (H : In (conflictEntry JsFile.SENSITIVE_PERMISSIONS None
                    Installed.blocker)
                (snd (JsFile.runConflictCheck "self" (Some Installed.all))))
    by (left; reflexivity).
  split; [ exact H | ].
  apply (ts_check_covers_js "self" "now" Installed.all _ H).
Defined.

End ConflictFacts.

(** ** The URL scanner *)

Section UrlFacts.

Import UrlScanner.
Open Scope string_scope.

Lemma prefix_append (p s : string) :
  prefix p s = true <-> exists rest, s = p ++ rest.
Proof.
  revert s. induction p as [ | a p IH ]; intros s.
  - split; [ intros _; now exists s | intros _; now destruct s ].
  - destruct s as [ | b s ]; cbn.
    + split; [ discriminate | intros (rest & H); discriminate ].
    + destruct (ascii_dec a b) as [ -> | Hne ].
      * rewrite IH. split; intros (rest & H); exists rest.
        -- now rewrite H.
        -- now inversion H.
      * split; [ discriminate | ].
        intros (rest & H). inversion H. congruence.
Qed.

Lemma includes_spec (s needle : string) :
  includes s needle = true <-> exists a b, s = a ++ needle ++ b.
Proof.
  split.
  - induction s as [ | c s IH ]; cbn [includes]; intros H;
      apply orb_prop in H; destruct H as [H | H]; try discriminate.
    + apply prefix_append in H. destruct H as (b & H). now exists "", b.
    + apply prefix_append in H. destruct H as (b & H). now exists "", b.
    + destruct (IH H) as (a & b & ->). now exists (String c a), b.
  - intros (a & b & ->). induction a as [ | c a IH ].
    + assert (H : prefix needle (needle ++ b) = true)
        by (apply prefix_append; now exists b).
      cbn [append]. destruct (needle ++ b); cbn [includes]; now rewrite H.
    + cbn [append includes]. rewrite IH. apply orb_true_r.
Qed.

Lemma toLowerCase_app (a b : string) :
  NetworkMonitor.toLowerCase (a ++ b)
  = NetworkMonitor.toLowerCase a ++ NetworkMonitor.toLowerCase b.
Proof. induction a as [ | c a IH ]; cbn; [ | rewrite IH ]; reflexivity. Qed.

Lemma some_includes (u : string) (l : list string) :
  existsb (fun p => includes u p) l = true
  <-> exists p a b, In p l /\ u = a ++ p ++ b.
Proof.
  rewrite existsb_exists. split.
  - intros (p & Hin & H). apply includes_spec in H.
    destruct H as (a & b & H). now exists p, a, b.
  - intros (p & a & b & Hin & H). exists p. split; [ exact Hin | ].
    apply includes_spec. now exists a, b.
Qed.

(** X28: a request whose URL starts with [http:], in any letter case,
    is logged once with severity [high] and the lower-case URL by each
    of the three listeners, whatever else the URL holds; the listener
    of src/background.ts then raises one alert, marked HIGH. *)
Theorem http_request_is_high
    (detailsUrl scheme rest : string) (st : State) :
  NetworkMonitor.toLowerCase scheme = "http:" ->
  detailsUrl = scheme ++ rest ->
  let u := NetworkMonitor.toLowerCase detailsUrl in
  Plain.onBeforeRequest detailsUrl st = saveLog (unsecured u) st
  /\ Trackers.onBeforeRequest detailsUrl st = saveLog (unsecured u) st
  /\ Alerting.onBeforeRequest detailsUrl st
     = triggerAlert "Unsecured HTTP site detected. (Risk: HIGH)" u
         (saveLog (unsecured u) st).
Proof.
  intros Hs Hu. cbv zeta.
  assert (H : startsWith (NetworkMonitor.toLowerCase detailsUrl) "http:"
              = true).
  { unfold startsWith. apply prefix_append.
    exists (NetworkMonitor.toLowerCase rest).
    now rewrite Hu, toLowerCase_app, Hs. }
  unfold Plain.onBeforeRequest, Trackers.onBeforeRequest,
    Alerting.onBeforeRequest, assess, Trackers.assess.
  cbv zeta. rewrite H. split; [ | split ]; reflexivity.
Qed.

Lemma http_request_is_high_witness :
  NetworkMonitor.toLowerCase "HTTP:" = "http:"
  /\ Alerting.onBeforeRequest "HTTP://Shop.example/?token=1" initial
     = triggerAlert "Unsecured HTTP site detected. (Risk: HIGH)"
         "http://shop.example/?token=1"
         (saveLog (unsecured "http://shop.example/?token=1") initial).
Proof.
  assert (H : NetworkMonitor.toLowerCase "HTTP:" = "http:") by reflexivity.
  split; [ exact H | ].
  apply (http_request_is_high "HTTP://Shop.example/?token=1" "HTTP:"
           "//Shop.example/?token=1" initial H eq_refl).
Defined.

(** X29: the listener logs at most one entry for a request, never one
    of severity [low]; the entry holds the lower-case URL; and nothing
    is logged exactly when the lower-case URL neither starts with
    [http:] nor holds one of the suspicious words, at any place. *)
Theorem url_scan_entries (detailsUrl : string) (st : State) :
  let u := NetworkMonitor.toLowerCase detailsUrl in
  exists added,
    logs (Plain.onBeforeRequest detailsUrl st) = (logs st ++ added)%list
    /\ (List.length added <= 1)%nat
    /\ Forall (fun e =>
                 (severity e = "medium" \/ severity e = "high")
                 /\ (severity e = "high" <-> startsWith u "http:" = true)
                 /\ url e = u /\ type e = "url_threat")
         added
    /\ (added = [] <->
        startsWith u "http:" = false
        /\ forall p a b, In p SUSPICIOUS_PARAMS -> u <> a ++ p ++ b).
Proof.
  cbv zeta. unfold Plain.onBeforeRequest, assess. cbv zeta.
  set (u := NetworkMonitor.toLowerCase detailsUrl).
  destruct (startsWith u "http:") eqn:Hh.
  - exists [unsecured u]. cbn.
    split; [ reflexivity | split; [ lia | split ] ].
    + constructor; [ | constructor ]. cbn.
      split; [ now right | split; [ split; reflexivity | ] ].
      split; reflexivity.
    + split; [ discriminate | intros [H _]; discriminate ].
  - destruct (existsb (fun p => includes u p) SUSPICIOUS_PARAMS) eqn:Hp.
    + eexists [_]. cbn [riskLevel String.eqb negb].
      split; [ reflexivity | split; [ cbn; lia | split ] ].
      * constructor; [ | constructor ]. cbn.
        split; [ now left | split; [ split; discriminate | ] ].
        split; reflexivity.
      * split; [ discriminate | ]. intros [_ H].
        apply some_includes in Hp. destruct Hp as (p & a & b & Hin & Heq).
        now destruct (H p a b Hin).
    + exists []. cbn. rewrite app_nil_r.
      split; [ reflexivity | split; [ lia | split; [ constructor | ] ] ].
      split; [ | reflexivity ]. intros _. split; [ reflexivity | ].
      intros p a b Hin Heq.
      assert (Hex : existsb (fun p => includes u p) SUSPICIOUS_PARAMS = true)
        by (apply some_includes; now exists p, a, b).
      congruence.
Qed.

(** A suspicious word anywhere in a URL that is not [http:], in
    any letter case and with or without a query, is logged with
    severity [medium] as a suspicious query parameter. *)
Theorem suspicious_word_is_medium
    (detailsUrl p a b : string) (st : State) :
  In p SUSPICIOUS_PARAMS ->
  NetworkMonitor.toLowerCase detailsUrl = a ++ p ++ b ->
  startsWith (NetworkMonitor.toLowerCase detailsUrl) "http:" = false ->
  Plain.onBeforeRequest detailsUrl st
  = saveLog
      {| type := "url_threat";
         severity := "medium";
         url := NetworkMonitor.toLowerCase detailsUrl;
         details := "Suspicious query parameter detected.";
         detection_source := "network_monitor" |}
      st.
Proof.
  intros Hin Heq Hh.
  assert (Hex : existsb
                  (fun p => includes (NetworkMonitor.toLowerCase detailsUrl) p)
                  SUSPICIOUS_PARAMS = true)
    by (apply some_includes; now exists p, a, b).
  unfold Plain.onBeforeRequest, assess. cbv zeta.
  rewrite Hh, Hex. reflexivity.
Qed.

Lemma suspicious_word_is_medium_witness :
  In "track" SUSPICIOUS_PARAMS
  /\ NetworkMonitor.toLowerCase "https://RaceTrack.example/"
     = "https://race" ++ "track" ++ ".example/"
  /\ severity_of_last
       (logs (Plain.onBeforeRequest "https://RaceTrack.example/" initial))
     = Some "medium".
Proof.
  assert (Hin : In "track" SUSPICIOUS_PARAMS) by (cbn; auto 10).
  assert (Heq : NetworkMonitor.toLowerCase "https://RaceTrack.example/"
                = "https://race" ++ "track" ++ ".example/") by reflexivity.
  split; [ exact Hin | split; [ exact Heq | ] ].
  now rewrite (suspicious_word_is_medium "https://RaceTrack.example/"
                 "track" "https://race" ".example/" initial Hin Heq eq_refl).
Defined.

Lemma app_one_inj {A : Type} (l : list A) (x y : A) :
  (l ++ [x] = l ++ [y])%list -> x = y.
Proof. intros H. apply app_inv_head in H. now inversion H. Qed.

Lemma app_one_neq {A : Type} (l : list A) (x : A) :
  l <> (l ++ [x])%list.
Proof.
  intros H. rewrite <- (app_nil_r l) in H at 1.
  apply app_inv_head in H. discriminate.
Qed.

Lemma saveLog_neq (e : LogEntry) (st : State) : saveLog e st <> st.
Proof.
  intros H. apply (f_equal logs) in H. cbn in H.
  symmetry in H. now apply app_one_neq in H.
Qed.

(** X30: the listener that knows tracker domains logs whenever the
    plain listener does, with the same severity and URL, and stays
    silent only when the plain listener does. *)
Theorem tracker_listener_covers (detailsUrl : string) (st : State) :
  (forall e,
     logs (Plain.onBeforeRequest detailsUrl st) = (logs st ++ [e])%list ->
     exists e',
       logs (Trackers.onBeforeRequest detailsUrl st)
       = (logs st ++ [e'])%list
       /\ severity e' = severity e /\ url e' = url e)
  /\ (Trackers.onBeforeRequest detailsUrl st = st ->
      Plain.onBeforeRequest detailsUrl st = st).
Proof.
  unfold Plain.onBeforeRequest, Trackers.onBeforeRequest, assess,
    Trackers.assess. cbv zeta.
  set (u := NetworkMonitor.toLowerCase detailsUrl).
  destruct (startsWith u "http:");
    destruct (existsb (fun p => includes u p) SUSPICIOUS_PARAMS);
    destruct (existsb (fun d => includes u d) TRACKER_DOMAINS);
    cbn [riskLevel reason String.eqb negb Ascii.eqb Bool.eqb andb];
    (split;
     [ intros e He;
       first
         [ now apply app_one_neq in He
         | apply app_one_inj in He; subst e;
           eexists; split; [ reflexivity | split; reflexivity ] ]
     | intros Hs; first [ reflexivity | now apply saveLog_neq in Hs ] ]).
Qed.

End UrlFacts.
